(** * cartogomancy: the source-analysis pipeline of the UML generator

    A shallow embedding of [uml-generator.js] (file discovery, per-file
    analysis, aggregation, stub synthesis) and of [runAnalysis] from
    [tui.js], with the properties of the pipeline stated and proved.

    Conventions of the model.
    - A JavaScript string is a [string]: a sequence of code units, here
      restricted to the 8-bit range.
    - Node's [path] module is the POSIX one.
    - The file system below the project root is a finite tree; symbolic links
      and other special entries are leaves that are neither files nor
      directories, as [Dirent.isFile]/[Dirent.isDirectory] report them.
      What a link points to is not part of the tree: a link is found by its
      path, and reading through it is outside the model.
    - The TypeScript parser, [Math.random], the clock, git and [JSON.parse]
      are external: they are parameters of the pipeline. *)

From Stdlib Require Import String Ascii List Bool Arith Lia.
From Stdlib Require Import Numbers.DecimalString.
From Stdlib Require Import Sorting.Permutation Sorting.Sorted.
Import ListNotations.
Local Open Scope list_scope.
Local Open Scope string_scope.
Local Open Scope nat_scope.

(** ** JavaScript exceptions *)

Inductive exn (A : Type) : Type :=
| Ok (a : A)
| Throw (msg : string).
Arguments Ok {A} a.
Arguments Throw {A} msg.

Definition bind {A B : Type} (c : exn A) (f : A -> exn B) : exn B :=
  match c with
  | Ok a => f a
  | Throw e => Throw e
  end.

Notation "'do' x <- c ; k" := (bind c (fun x => k))
  (at level 10, x name, c at level 100, k at level 200).

Definition returns {A : Type} (c : exn A) : bool :=
  match c with Ok _ => true | Throw _ => false end.

(** ** String primitives of the JavaScript runtime *)

Module JsString.

Definition chr_eqb (a b : ascii) : bool := Ascii.eqb a b.

(** [s.startsWith(p)] *)
Definition startsWith (s p : string) : bool := String.prefix p s.

(** [s.includes(p)] *)
Fixpoint includes (s p : string) : bool :=
  String.prefix p s ||
  match s with
  | EmptyString => false
  | String _ t => includes t p
  end.

(** [s.slice(a, b)] for non-negative indices. *)
Definition slice (s : string) (a b : nat) : string := String.substring a (b - a) s.

(** [s.substring(a, b)] for [a <= b]. *)
Definition substring (s : string) (a b : nat) : string := String.substring a (b - a) s.

(** [arr.includes(x)] on an array of strings. *)
Definition arr_includes (l : list string) (x : string) : bool :=
  existsb (String.eqb x) l.

(** Splitting at every code unit that satisfies [p]; [s.split(',')],
    [s.split('/')] and [s.split(/[\s(]/)] are instances.  The result is
    never empty. *)
Fixpoint split_on (p : ascii -> bool) (s : string) : list string :=
  match s with
  | EmptyString => [""]
  | String c t =>
      if p c then "" :: split_on p t
      else match split_on p t with
           | [] => [String c ""]
           | h :: r => String c h :: r
           end
  end.

(** [arr.pop()] of a freshly split array: its last element. *)
Definition pop (l : list string) : option string := List.last (map Some l) None.

(** White space and line terminators, as [\s] and [trim] see them. *)
Definition is_space (c : ascii) : bool :=
  let n := nat_of_ascii c in
  (n =? 9) || (n =? 10) || (n =? 11) || (n =? 12) || (n =? 13) || (n =? 32) || (n =? 160).

(** [\w] *)
Definition is_word (c : ascii) : bool :=
  let n := nat_of_ascii c in
  ((65 <=? n) && (n <=? 90)) || ((97 <=? n) && (n <=? 122)) ||
  ((48 <=? n) && (n <=? 57)) || (n =? 95).

Definition is_line_terminator (c : ascii) : bool :=
  let n := nat_of_ascii c in (n =? 10) || (n =? 13).

Fixpoint trimStart (s : string) : string :=
  match s with
  | String c t => if is_space c then trimStart t else s
  | EmptyString => EmptyString
  end.

Definition rev (s : string) : string :=
  string_of_list_ascii (List.rev (list_ascii_of_string s)).

Definition trim (s : string) : string := rev (trimStart (rev (trimStart s))).

(** [s.toLowerCase()] on 8-bit code units. *)
Definition lower_chr (c : ascii) : ascii :=
  let n := nat_of_ascii c in
  if ((65 <=? n) && (n <=? 90)) ||
     ((192 <=? n) && (n <=? 222) && negb (n =? 215))
  then ascii_of_nat (n + 32) else c.

Fixpoint map_chars (f : ascii -> ascii) (s : string) : string :=
  match s with
  | EmptyString => EmptyString
  | String c t => String (f c) (map_chars f t)
  end.

Definition toLowerCase (s : string) : string := map_chars lower_chr s.

(** Decimal rendering of an array index inside a template literal. *)
Definition of_nat (n : nat) : string := NilEmpty.string_of_uint (Nat.to_uint n).

(** [s.split('\n').length] *)
Definition count_lines (s : string) : nat :=
  List.length (split_on (chr_eqb "010"%char) s).

End JsString.

(** ** A backtracking matcher for the regular expressions of the source *)

Module Regex.

Inductive re : Type :=
| Eps
| Chr (p : ascii -> bool)
| Seq (a b : re)
| Alt (a b : re)
| Star (a : re)
| Group (n : nat) (a : re)
| WordB
| Bol
| Eos.

(** A position in the subject: the code unit before it, the text from it on,
    and the captures made so far. *)
Record pos : Type := mkPos {
  prev : option ascii;
  rest : string;
  caps : list (nat * string)
}.

Definition word_before (s : pos) : bool :=
  match prev s with Some c => JsString.is_word c | None => false end.

Definition word_after (s : pos) : bool :=
  match rest s with String c _ => JsString.is_word c | EmptyString => false end.

Definition consumed (s s' : pos) : string :=
  String.substring 0 (String.length (rest s) - String.length (rest s')) (rest s).

(** The iterations of a greedy [Star]: one more round of [step] when it
    consumes something, else the continuation.  Every round shortens the
    text, so [String.length (rest s)] rounds are all there can be. *)
Fixpoint iterate (step : (pos -> option pos) -> pos -> option pos)
  (k : pos -> option pos) (n : nat) (s : pos) {struct n} : option pos :=
  match n with
  | 0 => k s
  | S n' =>
      match step (fun s' =>
                    if String.length (rest s') <? String.length (rest s)
                    then iterate step k n' s' else None) s with
      | Some x => Some x
      | None => k s
      end
  end.

(** Continuation-passing matcher: alternatives in order, [Star] greedy, an
    iteration of [Star] that consumes nothing is not taken. *)
Fixpoint m (r : re) (k : pos -> option pos) (s : pos) {struct r} : option pos :=
  match r with
  | Eps => k s
  | Chr p =>
      match rest s with
      | String c t => if p c then k (mkPos (Some c) t (caps s)) else None
      | EmptyString => None
      end
  | Seq a b => m a (m b k) s
  | Alt a b =>
      match m a k s with
      | Some x => Some x
      | None => m b k s
      end
  | Star a => iterate (m a) k (String.length (rest s)) s
  | Group n a =>
      m a (fun s' => k (mkPos (prev s') (rest s') ((n, consumed s s') :: caps s'))) s
  | WordB => if xorb (word_before s) (word_after s) then k s else None
  | Bol =>
      match prev s with
      | None => k s
      | Some c => if JsString.is_line_terminator c then k s else None
      end
  | Eos =>
      match rest s with
      | EmptyString => k s
      | String _ _ => None
      end
  end.

Fixpoint Lit (w : string) : re :=
  match w with
  | EmptyString => Eps
  | String c t => Seq (Chr (Ascii.eqb c)) (Lit t)
  end.

Definition Plus (a : re) : re := Seq a (Star a).
Definition Opt (a : re) : re := Alt a Eps.
Definition Any (cs : string) : re := Chr (fun c => JsString.includes cs (String c "")).
Definition NoneOf (cs : string) : re := Chr (fun c => negb (JsString.includes cs (String c ""))).
Definition space : re := Chr JsString.is_space.
Definition word : re := Chr JsString.is_word.

Fixpoint alts (l : list re) : re :=
  match l with
  | [] => Eps
  | [a] => a
  | a :: l' => Alt a (alts l')
  end.

Fixpoint seqs (l : list re) : re :=
  match l with
  | [] => Eps
  | [a] => a
  | a :: l' => Seq a (seqs l')
  end.

(** One match: the text skipped before it, the matched text, the captures,
    and the position right after it. *)
Record found : Type := mkFound {
  skipped : string;
  text : string;
  groups : list (nat * string);
  after : pos
}.

Fixpoint capture (n : nat) (l : list (nat * string)) : option string :=
  match l with
  | [] => None
  | (i, v) :: l' => if i =? n then Some v else capture n l'
  end.

(** [$n] in a replacement and [match[n]]: an unset group reads as empty. *)
Definition group (n : nat) (f : found) : string :=
  match capture n (groups f) with Some v => v | None => "" end.

(** A match attempt anchored at one position. *)
Definition attempt (r : re) (p : option ascii) (s : string) : option pos :=
  m r Some (mkPos p s []).

(** [RegExp.prototype.exec] from a position: the leftmost match. *)
Fixpoint exec (r : re) (p : option ascii) (s : string) : option found :=
  match attempt r p s with
  | Some e =>
      Some (mkFound "" (consumed (mkPos p s []) e) (caps e) e)
  | None =>
      match s with
      | EmptyString => None
      | String c t =>
          match exec r (Some c) t with
          | Some f => Some (mkFound (String c (skipped f)) (text f) (groups f) (after f))
          | None => None
          end
      end
  end.

(** [regex.test(s)] *)
Definition test (r : re) (s : string) : bool :=
  match exec r None s with Some _ => true | None => false end.

(** The scan moved one code unit on before it found these matches. *)
Definition shift (c : ascii) (res : list found * string) : list found * string :=
  match res with
  | ([], tl) => ([], String c tl)
  | (g :: l, tl) => (mkFound (String c (skipped g)) (text g) (groups g) (after g) :: l, tl)
  end.

(** The successive matches of a global regular expression, as
    [String.prototype.match] and [replace] walk them: after an empty match
    the scan moves one code unit on.  Returns the matches and the text
    after the last one. *)
Fixpoint scan (fuel : nat) (r : re) (p : option ascii) (s : string)
  : list found * string :=
  match fuel with
  | 0 => ([], s)
  | S fuel' =>
      match exec r p s with
      | None => ([], s)
      | Some f =>
          let e := after f in
          match text f with
          | EmptyString =>
              match rest e with
              | EmptyString => ([f], "")
              | String c t =>
                  let '(l, tl) := shift c (scan fuel' r (Some c) t) in (f :: l, tl)
              end
          | String _ _ =>
              let '(l, tl) := scan fuel' r (prev e) (rest e) in (f :: l, tl)
          end
      end
  end.

Definition match_all (r : re) (s : string) : list found :=
  fst (scan (S (String.length s)) r None s).

(** [s.replace(r, template)] for a regular expression without the [g] flag. *)
Definition replace_first (r : re) (template : found -> string) (s : string) : string :=
  match exec r None s with
  | None => s
  | Some f => skipped f ++ template f ++ rest (after f)
  end.

(** [s.replace(r, template)] for a global regular expression. *)
Definition replace_all (r : re) (template : found -> string) (s : string) : string :=
  let '(l, tl) := scan (S (String.length s)) r None s in
  String.concat "" (map (fun f => skipped f ++ template f) l) ++ tl.

End Regex.

Import Regex.

(** ** The regular expressions of [uml-generator.js] *)

(** [/\b(if|else|for|while|switch|case|catch)\b/g] *)
Definition keywords : list string :=
  ["if"; "else"; "for"; "while"; "switch"; "case"; "catch"].

Definition complexityRegex : re :=
  Seq WordB (Seq (Group 1 (alts (map Lit keywords))) WordB).

Definition cyclomaticComplexity (content : string) : nat :=
  List.length (match_all complexityRegex content).


(** Spec-level reading of the complexity metric: the number of whole-word
    occurrences of each keyword, summed over the keyword set.  An occurrence
    of [w] is whole-word when no word character stands right before it and
    none right after it. *)
Module ComplexitySpec.

Fixpoint strip (w s : string) : option string :=
  match w with
  | EmptyString => Some s
  | String c w' =>
      match s with
      | String c' s' => if Ascii.eqb c c' then strip w' s' else None
      | EmptyString => None
      end
  end.

Definition word_char_before (before : option ascii) : bool :=
  match before with Some c => JsString.is_word c | None => false end.

Definition word_char_first (s : string) : bool :=
  match s with String c _ => JsString.is_word c | EmptyString => false end.

Definition whole_word_at (w : string) (before : option ascii) (s : string) : bool :=
  negb (word_char_before before) &&
  match strip w s with
  | Some t => negb (word_char_first t)
  | None => false
  end.

Fixpoint occurrences_from (w : string) (before : option ascii) (s : string) : nat :=
  (if whole_word_at w before s then 1 else 0) +
  match s with
  | EmptyString => 0
  | String c t => occurrences_from w (Some c) t
  end.

Definition occurrences (w text : string) : nat := occurrences_from w None text.

Definition keyword_occurrences (text : string) : nat :=
  list_sum (map (fun w => occurrences w text) keywords).

End ComplexitySpec.

(** ** Node's [path] module (POSIX flavour)

    An external library: the functions below follow the algorithms of
    Node's [path.posix], loop for loop. *)

Module Path.

Definition is_slash (c : ascii) : bool := Ascii.eqb c "/".
Definition is_dot (c : ascii) : bool := Ascii.eqb c ".".

(** [dirname]: the loop [for (i = path.length - 1; i >= 1; --i)] looking for
    the last separator that follows a non-separator. *)
Fixpoint dirname_loop (path : string) (i : nat) (matchedSlash : bool) : option nat :=
  match i with
  | 0 => None
  | S i' =>
      match String.get i path with
      | Some c =>
          if is_slash c
          then (if matchedSlash then dirname_loop path i' true else Some i)
          else dirname_loop path i' false
      | None => None
      end
  end.

Definition dirname (path : string) : string :=
  if String.length path =? 0 then "."
  else
    let hasRoot := match String.get 0 path with Some c => is_slash c | None => false end in
    match dirname_loop path (String.length path - 1) true with
    | None => if hasRoot then "/" else "."
    | Some e => if hasRoot && (e =? 1) then "//" else JsString.slice path 0 e
    end.

(** [extname] *)
Inductive PreDot : Type := PreDotZero | PreDotOne | PreDotMinusOne.

Record ExtState : Type := mkExt {
  startDot : option nat;
  startPart : nat;
  ext_end : option nat;
  ext_matchedSlash : bool;
  preDotState : PreDot
}.

Fixpoint extname_loop (path : string) (n : nat) (st : ExtState) : ExtState :=
  match n with
  | 0 => st
  | S i =>
      match String.get i path with
      | None => st
      | Some code =>
          if is_slash code then
            if negb (ext_matchedSlash st)
            then mkExt (startDot st) (i + 1) (ext_end st) (ext_matchedSlash st) (preDotState st)
            else extname_loop path i st
          else
            let st1 :=
              match ext_end st with
              | None => mkExt (startDot st) (startPart st) (Some (i + 1)) false (preDotState st)
              | Some _ => st
              end in
            if is_dot code then
              match startDot st1 with
              | None =>
                  extname_loop path i
                    (mkExt (Some i) (startPart st1) (ext_end st1) (ext_matchedSlash st1)
                       (preDotState st1))
              | Some _ =>
                  extname_loop path i
                    (mkExt (startDot st1) (startPart st1) (ext_end st1) (ext_matchedSlash st1)
                       PreDotOne)
              end
            else
              match startDot st1 with
              | Some _ =>
                  extname_loop path i
                    (mkExt (startDot st1) (startPart st1) (ext_end st1) (ext_matchedSlash st1)
                       PreDotMinusOne)
              | None => extname_loop path i st1
              end
      end
  end.

Definition extname (path : string) : string :=
  let st := extname_loop path (String.length path) (mkExt None 0 None true PreDotZero) in
  match startDot st, ext_end st with
  | Some sd, Some e =>
      match preDotState st with
      | PreDotZero => ""
      | PreDotOne =>
          if (sd =? e - 1) && (sd =? startPart st + 1) then "" else JsString.slice path sd e
      | PreDotMinusOne => JsString.slice path sd e
      end
  | _, _ => ""
  end.

(** [basename(path, suffix)]; an empty [suffix] is the one-argument call. *)
Record BaseState : Type := mkBase {
  b_start : nat;
  b_end : option nat;
  b_matchedSlash : bool;
  extIdx : option nat;
  firstNonSlashEnd : option nat
}.

Fixpoint basename_suffix_loop (path suffix : string) (n : nat) (st : BaseState) : BaseState :=
  match n with
  | 0 => st
  | S i =>
      match String.get i path with
      | None => st
      | Some code =>
          if is_slash code then
            if negb (b_matchedSlash st)
            then mkBase (i + 1) (b_end st) (b_matchedSlash st) (extIdx st) (firstNonSlashEnd st)
            else basename_suffix_loop path suffix i st
          else
            let st1 :=
              match firstNonSlashEnd st with
              | None => mkBase (b_start st) (b_end st) false (extIdx st) (Some (i + 1))
              | Some _ => st
              end in
            match extIdx st1 with
            | Some x =>
                if match String.get x suffix with
                   | Some sc => Ascii.eqb code sc
                   | None => false
                   end
                then
                  match x with
                  | 0 =>
                      basename_suffix_loop path suffix i
                        (mkBase (b_start st1) (Some i) (b_matchedSlash st1) None
                           (firstNonSlashEnd st1))
                  | S x' =>
                      basename_suffix_loop path suffix i
                        (mkBase (b_start st1) (b_end st1) (b_matchedSlash st1) (Some x')
                           (firstNonSlashEnd st1))
                  end
                else
                  basename_suffix_loop path suffix i
                    (mkBase (b_start st1) (firstNonSlashEnd st1) (b_matchedSlash st1) None
                       (firstNonSlashEnd st1))
            | None => basename_suffix_loop path suffix i st1
            end
      end
  end.

Fixpoint basename_plain_loop (path : string) (n : nat) (st : BaseState) : BaseState :=
  match n with
  | 0 => st
  | S i =>
      match String.get i path with
      | None => st
      | Some code =>
          if is_slash code then
            if negb (b_matchedSlash st)
            then mkBase (i + 1) (b_end st) (b_matchedSlash st) (extIdx st) (firstNonSlashEnd st)
            else basename_plain_loop path i st
          else
            match b_end st with
            | None =>
                basename_plain_loop path i
                  (mkBase (b_start st) (Some (i + 1)) false (extIdx st) (firstNonSlashEnd st))
            | Some _ => basename_plain_loop path i st
            end
      end
  end.

Definition basename (path suffix : string) : string :=
  let len := String.length path in
  if (0 <? String.length suffix) && (String.length suffix <=? len) then
    if String.eqb suffix path then ""
    else
      let st := basename_suffix_loop path suffix len
                  (mkBase 0 None true (Some (String.length suffix - 1)) None) in
      let e :=
        match b_end st with
        | Some e => if b_start st =? e
                    then match firstNonSlashEnd st with Some f => f | None => 0 end
                    else e
        | None => len
        end in
      JsString.slice path (b_start st) e
  else
    let st := basename_plain_loop path len (mkBase 0 None true None None) in
    match b_end st with
    | None => ""
    | Some e => JsString.slice path (b_start st) e
    end.

(** Path segments: [normalize] drops empty and [.] segments and resolves
    [..] against the segment before it. *)
Definition segments (path : string) : list string :=
  filter (fun s => negb (String.eqb s "") && negb (String.eqb s "."))
    (JsString.split_on is_slash path).

Fixpoint normalize_segments (allowAboveRoot : bool) (stack : list string) (segs : list string)
  : list string :=
  match segs with
  | [] => List.rev stack
  | s :: segs' =>
      if String.eqb s ".." then
        match stack with
        | top :: stack' =>
            if String.eqb top ".."
            then normalize_segments allowAboveRoot (".." :: stack) segs'
            else normalize_segments allowAboveRoot stack' segs'
        | [] =>
            if allowAboveRoot
            then normalize_segments allowAboveRoot [".."] segs'
            else normalize_segments allowAboveRoot [] segs'
        end
      else normalize_segments allowAboveRoot (s :: stack) segs'
  end.

Definition isAbsolute (path : string) : bool := JsString.startsWith path "/".

Definition endsWithSlash (path : string) : bool :=
  match String.get (String.length path - 1) path with
  | Some c => is_slash c
  | None => false
  end.

Definition normalize (path : string) : string :=
  if String.length path =? 0 then "."
  else
    let body := String.concat "/"
                  (normalize_segments (negb (isAbsolute path)) [] (segments path)) in
    if String.length body =? 0 then
      if isAbsolute path then "/" else if endsWithSlash path then "./" else "."
    else
      let body := if endsWithSlash path then body ++ "/" else body in
      if isAbsolute path then "/" ++ body else body.

(** [path.join(a, b)] *)
Definition join (a b : string) : string :=
  if String.length a =? 0 then normalize b
  else if String.length b =? 0 then normalize a
  else normalize (a ++ "/" ++ b).

(** [path.resolve(p)] with the working directory [cwd]; the result is
    absolute and carries no trailing separator. *)
Definition resolve (cwd path : string) : string :=
  let full := if isAbsolute path then path else cwd ++ "/" ++ path in
  "/" ++ String.concat "/" (normalize_segments false [] (segments full)).

Fixpoint drop_common (a b : list string) : list string * list string :=
  match a, b with
  | x :: a', y :: b' => if String.eqb x y then drop_common a' b' else (a, b)
  | _, _ => (a, b)
  end.

(** [path.relative(from, to)] *)
Definition relative (cwd from to : string) : string :=
  if String.eqb from to then ""
  else
    let f := segments (resolve cwd from) in
    let t := segments (resolve cwd to) in
    let '(f', t') := drop_common f t in
    String.concat "/" (map (fun _ => "..") f' ++ t').

End Path.

(** ** The file system below the project root *)

#[warnings="-register-all"] Inductive entry : Type :=
| File (name : string) (content : option string)
| Dir (name : string) (readable : bool) (entries : list entry)
| Special (name : string).

Definition entry_name (e : entry) : string :=
  match e with
  | File n _ => n
  | Dir n _ _ => n
  | Special n => n
  end.

(** The tree [root] is what the path [mount] names; [cwd] is the working
    directory of the process.  A file whose content is [None] and a
    directory that is not [readable] exist but cannot be read. *)
Record FileSystem : Type := mkFS {
  cwd : string;
  mount : string;
  root : entry
}.

Fixpoint descend (e : entry) (segs : list string) : option entry :=
  match segs with
  | [] => Some e
  | s :: segs' =>
      match e with
      | Dir _ _ es =>
          match find (fun x => String.eqb (entry_name x) s) es with
          | Some x => descend x segs'
          | None => None
          end
      | _ => None
      end
  end.

Definition lookup (fs : FileSystem) (path : string) : option entry :=
  descend (root fs) (Path.segments (Path.relative (cwd fs) (mount fs) path)).

(** [fs.existsSync] *)
Definition existsSync (fs : FileSystem) (path : string) : bool :=
  match lookup fs path with Some _ => true | None => false end.

(** [fs.readFileSync(path, 'utf8')] *)
Definition readFileSync (fs : FileSystem) (path : string) : exn string :=
  match lookup fs path with
  | Some (File _ (Some content)) => Ok content
  | Some (File _ None) => Throw "EACCES"
  | Some (Dir _ _ _) => Throw "EISDIR"
  | Some (Special _) => Throw "EINVAL"
  | None => Throw "ENOENT"
  end.

(** ** File discovery: [findSourceFiles] *)

Definition sourceExtensions : list string := [".js"; ".jsx"; ".ts"; ".tsx"; ".mjs"].

Section Discovery.

Variable wd : string.
Variable dir : string.
Variables includes excludes : list string.

(** One iteration of the [for (const entry of entries)] loop of [walk],
    with the recursive call [walk(fullPath)] on a directory entry; [files]
    is the array the walk pushes to. *)
Fixpoint walk_entry (currentDir : string) (e : entry) (files : list string)
  {struct e} : exn (list string) :=
  let fullPath := Path.join currentDir (entry_name e) in
  let relativePath := Path.relative wd dir fullPath in
  if existsb (fun pattern => JsString.includes relativePath pattern) excludes
  then Ok files
  else
    match e with
    | Dir _ readable entries =>
        if readable then
          (fix loop (es : list entry) (files : list string) : exn (list string) :=
             match es with
             | [] => Ok files
             | e' :: es' =>
                 do files' <- walk_entry fullPath e' files;
                 loop es' files'
             end) entries files
        else Throw "EACCES"
    | File name _ =>
        let ext := Path.extname name in
        if JsString.arr_includes sourceExtensions ext then
          if (List.length includes =? 0) ||
             existsb (fun pattern => JsString.startsWith relativePath pattern) includes
          then Ok (files ++ [fullPath])%list
          else Ok files
        else Ok files
    | Special _ => Ok files
    end.

Fixpoint walk_entries (currentDir : string) (es : list entry) (files : list string)
  : exn (list string) :=
  match es with
  | [] => Ok files
  | e :: es' =>
      do files' <- walk_entry currentDir e files;
      walk_entries currentDir es' files'
  end.

(** [walk(currentDir)]: [readdirSync] raises on what is not a readable
    directory. *)
Definition walk (currentDir : string) (node : option entry) (files : list string)
  : exn (list string) :=
  match node with
  | Some (Dir _ true entries) => walk_entries currentDir entries files
  | Some (Dir _ false _) => Throw "EACCES"
  | Some _ => Throw "ENOTDIR"
  | None => Throw "ENOENT"
  end.

End Discovery.

Definition findSourceFiles (fs : FileSystem) (dir : string) (includes excludes : list string)
  : exn (list string) :=
  walk (cwd fs) dir includes excludes dir (lookup fs dir) [].

(** ** The syntax tree of the TypeScript compiler API

    [ts.createSourceFile] is external: the model takes the tree it returns
    as given, for malformed text too.  Where the parser itself gives up
    (it exhausts the stack on text that is nested very deeply) there is no
    tree, and what is said below of the tree of a file says nothing of
    such a file.  The tree keeps what [parseWithTypeScript] reads: class
    and interface declarations with their name, heritage clauses and
    members, and the children [ts.forEachChild] walks. *)

Inductive HeritageToken : Type := ExtendsKeyword | ImplementsKeyword.

Record HeritageClause : Type := mkClause {
  token : HeritageToken;
  types : list string   (* [type.expression.getText()] of each type *)
}.

Inductive ClassElement : Type :=
| MethodDeclaration (name : option string)
| OtherElement.

#[warnings="-register-all"] Inductive node : Type :=
| ClassDeclaration (name : option string) (heritageClauses : option (list HeritageClause))
    (members : list ClassElement) (children : list node)
| InterfaceDeclaration (name : option string) (heritageClauses : option (list HeritageClause))
    (children : list node)
| OtherNode (children : list node).

Record Method : Type := mkMethod {
  method_name : string;
  visibility : string;
  method_type : string
}.

Record ClassInfo : Type := mkClassInfo {
  ci_name : string;
  ci_extends : option string;
  ci_implements : list string;
  ci_methods : list Method
}.

Record InterfaceInfo : Type := mkInterfaceInfo {
  ii_name : string;
  ii_extends : list string
}.

Record ParseResult : Type := mkParseResult {
  pr_classes : list ClassInfo;
  pr_interfaces : list InterfaceInfo
}.

(** The loop over [node.heritageClauses] of a class: [clause.types[0]] is
    [undefined] for an [extends] clause without a type, and reading its
    [expression] raises a [TypeError]. *)
Fixpoint class_heritage (clauses : list HeritageClause) (info : ClassInfo) : exn ClassInfo :=
  match clauses with
  | [] => Ok info
  | clause :: rest =>
      match token clause with
      | ExtendsKeyword =>
          match types clause with
          | [] => Throw "TypeError: Cannot read properties of undefined (reading 'expression')"
          | t :: _ =>
              class_heritage rest
                (mkClassInfo (ci_name info) (Some t) (ci_implements info) (ci_methods info))
          end
      | ImplementsKeyword =>
          class_heritage rest
            (mkClassInfo (ci_name info) (ci_extends info) (types clause) (ci_methods info))
      end
  end.

Fixpoint interface_heritage (clauses : list HeritageClause) (info : InterfaceInfo)
  : InterfaceInfo :=
  match clauses with
  | [] => info
  | clause :: rest =>
      match token clause with
      | ExtendsKeyword => interface_heritage rest (mkInterfaceInfo (ii_name info) (types clause))
      | ImplementsKeyword => interface_heritage rest info
      end
  end.

Definition class_methods (members : list ClassElement) : list Method :=
  flat_map (fun member =>
              match member with
              | MethodDeclaration (Some n) => [mkMethod n "public" "method"]
              | _ => []
              end) members.

Section Visit.

Variable isTypeScript : bool.

(** [visit(node)] of [parseWithTypeScript], threading [result]. *)
Fixpoint visit (n : node) (result : ParseResult) {struct n} : exn ParseResult :=
  let forEachChild :=
    fix forEachChild (cs : list node) (result : ParseResult) : exn ParseResult :=
      match cs with
      | [] => Ok result
      | c :: cs' => do result' <- visit c result; forEachChild cs' result'
      end in
  match n with
  | ClassDeclaration (Some className) heritageClauses members children =>
      let classInfo := mkClassInfo className None [] [] in
      do classInfo <- match heritageClauses with
                      | Some clauses => class_heritage clauses classInfo
                      | None => Ok classInfo
                      end;
      let classInfo :=
        mkClassInfo (ci_name classInfo) (ci_extends classInfo) (ci_implements classInfo)
          (ci_methods classInfo ++ class_methods members)%list in
      forEachChild children
        (mkParseResult (pr_classes result ++ [classInfo])%list (pr_interfaces result))
  | ClassDeclaration None _ _ children => forEachChild children result
  | InterfaceDeclaration (Some interfaceName) heritageClauses children =>
      if isTypeScript then
        let ifaceInfo := mkInterfaceInfo interfaceName [] in
        let ifaceInfo :=
          match heritageClauses with
          | Some clauses => interface_heritage clauses ifaceInfo
          | None => ifaceInfo
          end in
        forEachChild children
          (mkParseResult (pr_classes result) (pr_interfaces result ++ [ifaceInfo])%list)
      else forEachChild children result
  | InterfaceDeclaration None _ children => forEachChild children result
  | OtherNode children => forEachChild children result
  end.

End Visit.

(** ** The records of the output document *)

Record Commit : Type := mkCommit {
  hash : string;
  author : string;
  email : string;
  date : string;
  message : string;
  daysAgo : nat
}.

Record GitMetrics : Type := mkGitMetrics {
  commitCount : nat;
  lastCommit : option Commit;
  isGitTracked : bool
}.

Record ComplexityMetrics : Type := mkComplexityMetrics {
  cm_cyclomaticComplexity : nat;
  cognitiveComplexity : nat;
  nestingDepth : nat;
  linesOfCode : nat;
  cm_methodCount : nat;
  threatLevel : string;
  threatColor : string;
  label : string;
  suggestions : list string
}.

Record CoverageMetrics : Type := mkCoverageMetrics {
  hasCoverage : bool;
  overallCoverage : nat
}.

Record Metrics : Type := mkMetrics {
  lines : nat;
  complexity : nat;
  methodCount : nat;
  coverage : nat
}.

Record TestMetrics : Type := mkTestMetrics {
  test_exists : bool;
  test_coverage : nat
}.

(** A property the source leaves out of an object literal reads as [None]
    ([gitMetrics] and [testMetrics] of a stub) or as [false] ([isExternal]
    of an analyzed record). *)
Record ClassRecord : Type := mkClassRecord {
  id : string;
  name : string;
  type : string;
  subtype : string;
  package : string;
  filePath : string;
  methods : list Method;
  fields : list string;
  dependencies : list string;
  extends : list string;
  implements : list string;
  top_complexity : nat;
  complexityMetrics : ComplexityMetrics;
  coverageMetrics : CoverageMetrics;
  metrics : Metrics;
  gitMetrics : option GitMetrics;
  testMetrics : option TestMetrics;
  isExternal : bool
}.

Record PackageRecord : Type := mkPackage {
  pkg_id : string;
  pkg_name : string;
  pkg_path : string;
  pkg_classes : list string
}.

Record Project : Type := mkProject {
  project_name : string;
  project_description : string;
  project_language : string
}.

Record Snapshot : Type := mkSnapshot {
  version : string;
  generated : string;
  project : Project;
  packages : list PackageRecord;
  classes : list ClassRecord
}.

(** ** The regular expressions of [analyzeFile] *)

Definition quotes : string := String "'" (String "034" "").

(** [/import\s+(?:{[^}]+}|[\w]+|\*\s+as\s+\w+)?\s*(?:,\s*{[^}]+})?\s*from\s+['dq]([^'dq]+)['dq]/g],
    [dq] standing for the double quote. *)
Definition importRegex : re :=
  seqs [Lit "import"; Plus space;
        Opt (alts [seqs [Lit "{"; Plus (NoneOf "}"); Lit "}"];
                   Plus word;
                   seqs [Lit "*"; Plus space; Lit "as"; Plus space; Plus word]]);
        Star space;
        Opt (seqs [Lit ","; Star space; Lit "{"; Plus (NoneOf "}"); Lit "}"]);
        Star space; Lit "from"; Plus space;
        Any quotes; Group 1 (Plus (NoneOf quotes)); Any quotes].

(** [/export\s+(?:default\s+)?(?:function|const|class)\s+(\w+)/] *)
Definition componentRegex : re :=
  seqs [Lit "export"; Plus space;
        Opt (Seq (Lit "default") (Plus space));
        alts [Lit "function"; Lit "const"; Lit "class"];
        Plus space; Group 1 (Plus word)].

(** [/class\s+\w+\s+extends\s+(\w+)/] *)
Definition extendsRegex : re :=
  seqs [Lit "class"; Plus space; Plus word; Plus space; Lit "extends"; Plus space;
        Group 1 (Plus word)].

(** [/class\s+\w+\s+implements\s+([\w,\s]+)/] *)
Definition implementsRegex : re :=
  seqs [Lit "class"; Plus space; Plus word; Plus space; Lit "implements"; Plus space;
        Group 1 (Plus (Chr (fun c => JsString.is_word c || Ascii.eqb c "," || JsString.is_space c)))].

(** [/(?:function\s+\w+|const\s+\w+\s*=\s*(?:async\s+)?\([^)]*\)\s*=>|^\s*\w+\s*\([^)]*\)\s*{)/gm] *)
Definition methodRegex : re :=
  alts [seqs [Lit "function"; Plus space; Plus word];
        seqs [Lit "const"; Plus space; Plus word; Star space; Lit "="; Star space;
              Opt (Seq (Lit "async") (Plus space));
              Lit "("; Star (NoneOf ")"); Lit ")"; Star space; Lit "=>"];
        seqs [Bol; Star space; Plus word; Star space;
              Lit "("; Star (NoneOf ")"); Lit ")"; Star space; Lit "{"]].

(** [/\.(jsx?|tsx?)$/] *)
Definition testFileRegex : re :=
  seqs [Lit "."; Group 1 (alts [Seq (Lit "js") (Opt (Lit "x")); Seq (Lit "ts") (Opt (Lit "x"))]);
        Eos].

(** [/\./g] *)
Definition dotRegex : re := Lit ".".

(** ** Per-file analysis: [analyzeFile] *)

(** The [while ((match = importRegex.exec(content)) !== null)] loop: each
    round resumes at [lastIndex], the end of the previous match. *)
Fixpoint import_loop (fuel : nat) (p : option ascii) (s : string) (dependencies : list string)
  : list string :=
  match fuel with
  | 0 => dependencies
  | S fuel' =>
      match exec importRegex p s with
      | None => dependencies
      | Some found =>
          let importPath := group 1 found in
          let dependencies :=
            if JsString.startsWith importPath "." || JsString.startsWith importPath "/"
            then
              let depName := Path.basename importPath (Path.extname importPath) in
              if negb (JsString.arr_includes dependencies depName)
              then (dependencies ++ [depName])%list
              else dependencies
            else dependencies in
          import_loop fuel' (prev (after found)) (rest (after found)) dependencies
      end
  end.

Definition extract_dependencies (content : string) : list string :=
  import_loop (S (String.length content)) None content [].

Definition threat_level (c : nat) : string :=
  if 15 <? c then "CRITICAL" else if 10 <? c then "HIGH" else if 5 <? c then "MODERATE" else "LOW".

Definition threat_color (c : nat) : string :=
  if 15 <? c then "red" else if 10 <? c then "orange" else if 5 <? c then "yellow" else "green".

(** [Math.random().toString(36).substring(2, 9)] of the [n]-th draw. *)
Definition random_token (random36 : nat -> string) (n : nat) : string :=
  JsString.substring (random36 n) 2 9.

Definition fallback_methods (content : string) : list Method :=
  let methodMatches := map text (match_all methodRegex content) in
  map (fun '(i, m) =>
         let n := match nth_error (JsString.split_on
                                     (fun c => JsString.is_space c || Ascii.eqb c "(")
                                     (JsString.trim m)) 1 with
                  | Some n => n
                  | None => ""
                  end in
         mkMethod (if String.eqb n "" then "method_" ++ JsString.of_nat i else n)
           "public" "method")
      (combine (seq 0 (List.length methodMatches)) methodMatches).

(** The variables [name], [extendsClass], [implementsInterfaces] and
    [methods] of [analyzeFile]. *)
Record Structural : Type := mkStructural {
  s_name : string;
  s_extendsClass : option string;
  s_implementsInterfaces : list string;
  s_methods : list Method
}.

(** The branch [if (tsResults.classes.length > 0) ... else ...]: the first
    class of the tree, or else what the regular expressions find. *)
Definition structural_fields (tsResults : ParseResult) (content fileName : string)
  : Structural :=
  match pr_classes tsResults with
  | mainClass :: _ =>
      mkStructural (ci_name mainClass) (ci_extends mainClass) (ci_implements mainClass)
        (ci_methods mainClass)
  | [] =>
      let name := match exec componentRegex None content with
                  | Some componentMatch => group 1 componentMatch
                  | None => fileName
                  end in
      let extendsClass := match exec extendsRegex None content with
                          | Some extendsMatch => Some (group 1 extendsMatch)
                          | None => None
                          end in
      let implementsInterfaces :=
        match exec implementsRegex None content with
        | Some implementsMatch =>
            map JsString.trim (JsString.split_on (Ascii.eqb ",") (group 1 implementsMatch))
        | None => []
        end in
      mkStructural name extendsClass implementsInterfaces (fallback_methods content)
  end.

Section Analysis.

(** The external collaborators. *)
Variable createSourceFile : string -> string -> node.
Variable random36 : nat -> string.
Variable getGitMetrics : string -> string -> GitMetrics.

Definition parseWithTypeScript (filePath content : string) : exn ParseResult :=
  let ext := Path.extname filePath in
  let isTypeScript := JsString.arr_includes [".ts"; ".tsx"] ext in
  let sourceFile := createSourceFile filePath content in
  visit isTypeScript sourceFile (mkParseResult [] []).

(** [analyzeFile(filePath, projectRoot)]; [rng] counts the draws of
    [Math.random] made so far.  The result of [fs.statSync] is not used and
    the call cannot fail on a file that was just read; [getGitMetrics]
    shells out to git inside one [try]/[catch] and never raises. *)
Definition analyzeFile (fs : FileSystem) (rng : nat) (filePath projectRoot : string)
  : exn (ClassRecord * nat) :=
  do content <- readFileSync fs filePath;
  let relativePath := Path.relative (cwd fs) projectRoot filePath in
  let fileName := Path.basename filePath (Path.extname filePath) in
  let packagePath := Path.dirname relativePath in
  do tsResults <- parseWithTypeScript filePath content;
  let dependencies := extract_dependencies content in
  let isReactComponent :=
    test componentRegex content &&
    (JsString.includes content "import React" || JsString.includes content "from 'react'") in
  let found := structural_fields tsResults content fileName in
  let name := s_name found in
  let extendsClass := s_extendsClass found in
  let implementsInterfaces := s_implementsInterfaces found in
  let methods := s_methods found in
  let cyclomaticComplexity := cyclomaticComplexity content in
  let gitMetrics := getGitMetrics filePath projectRoot in
  let lines := JsString.count_lines content in
  Ok (mkClassRecord
        ("component_" ++ random_token random36 rng)
        name
        "class"
        (if isReactComponent then "react_component" else "utility")
        (if String.eqb packagePath "" then "root" else packagePath)
        relativePath
        methods
        []
        dependencies
        (match extendsClass with
         | Some c => if String.eqb c "" then [] else [c]
         | None => []
         end)
        implementsInterfaces
        cyclomaticComplexity
        (mkComplexityMetrics cyclomaticComplexity cyclomaticComplexity 0 lines
           (List.length methods)
           (threat_level cyclomaticComplexity) (threat_color cyclomaticComplexity)
           (threat_level cyclomaticComplexity) [])
        (mkCoverageMetrics false 0)
        (mkMetrics lines cyclomaticComplexity (List.length methods) 0)
        (Some gitMetrics)
        (Some (mkTestMetrics
                 (existsSync fs (replace_first testFileRegex
                                   (fun f => ".test" ++ group 1 f) filePath))
                 0))
        false,
      S rng).

End Analysis.

(** ** Aggregation: [generateUML] and the TUI's [runAnalysis] *)

(** The [packages] map: a JavaScript [Map] keyed by package path, read back
    in insertion order by [Array.from(packages.values())]. *)
Definition PackageMap : Type := list (string * PackageRecord).

Definition map_has (packages : PackageMap) (key : string) : bool :=
  existsb (fun kv => String.eqb (fst kv) key) packages.

Definition map_set (packages : PackageMap) (key : string) (v : PackageRecord) : PackageMap :=
  if map_has packages key
  then map (fun kv => if String.eqb (fst kv) key then (key, v) else kv) packages
  else (packages ++ [(key, v)])%list.

(** [packages.get(key).classes.push(classId)] *)
Definition push_class (packages : PackageMap) (key classId : string) : PackageMap :=
  map (fun kv =>
         if String.eqb (fst kv) key
         then (fst kv, mkPackage (pkg_id (snd kv)) (pkg_name (snd kv)) (pkg_path (snd kv))
                         (pkg_classes (snd kv) ++ [classId])%list)
         else kv) packages.

Definition map_values (packages : PackageMap) : list PackageRecord := map snd packages.

(** [pkgPath.split('/').pop() || 'root'] *)
Definition package_name (pkgPath : string) : string :=
  match JsString.pop (JsString.split_on Path.is_slash pkgPath) with
  | Some n => if String.eqb n "" then "root" else n
  | None => "root"
  end.

(** [a || b] on strings that may be missing. *)
Definition or_default (a : option string) (b : string) : string :=
  match a with
  | Some s => if String.eqb s "" then b else s
  | None => b
  end.

Record Manifest : Type := mkManifest {
  manifest_name : option string;
  manifest_description : option string
}.

Definition defaultIncludePatterns : list string :=
  ["src"; "lib"; "components"; "pages"; "utils"; "hooks"; "services"].

Definition defaultExcludePatterns : list string :=
  ["node_modules"; "dist"; "build"; ".git"; "coverage"; "test"; "__tests__"].

(** The stub record of [generateUML] for an external class name. *)
Definition stubClass (className : string) : ClassRecord :=
  mkClassRecord
    ("external_" ++ JsString.toLowerCase (replace_all dotRegex (fun _ => "_") className))
    className
    "class"
    "external"
    "external"
    ("external/" ++ className)
    [] [] [] [] []
    0
    (mkComplexityMetrics 0 0 0 75 0 "EXTERNAL" "gray" "External Library" [])
    (mkCoverageMetrics false 0)
    (mkMetrics 75 0 0 0)
    None
    None
    true.

(** [externalClasses.add(x)] guarded by [!definedClasses.has(x)], for the
    names of one array; the set keeps insertion order. *)
Fixpoint add_external (definedClasses : list string) (names : list string)
  (externalClasses : list string) : list string :=
  match names with
  | [] => externalClasses
  | n :: names' =>
      add_external definedClasses names'
        (if negb (JsString.arr_includes definedClasses n)
         then (if JsString.arr_includes externalClasses n
               then externalClasses
               else (externalClasses ++ [n])%list)
         else externalClasses)
  end.

(** The [classes.forEach] that collects the external names. *)
Fixpoint collect_external (definedClasses : list string) (cs : list ClassRecord)
  (externalClasses : list string) : list string :=
  match cs with
  | [] => externalClasses
  | classData :: cs' =>
      collect_external definedClasses cs'
        (add_external definedClasses (implements classData)
           (add_external definedClasses (extends classData) externalClasses))
  end.

(** The [externalClasses.forEach] that appends the stubs. *)
Fixpoint add_stubs (externalClasses : list string) (classes : list ClassRecord)
  (packages : PackageMap) : list ClassRecord * PackageMap :=
  match externalClasses with
  | [] => (classes, packages)
  | className :: rest =>
      let stub := stubClass className in
      add_stubs rest (classes ++ [stub])%list (push_class packages "external" (id stub))
  end.

Section Pipeline.

Variable createSourceFile : string -> string -> node.
Variable random36 : nat -> string.
Variable getGitMetrics : string -> string -> GitMetrics.
Variable JSON_parse : string -> exn Manifest.
Variable now : string.

(** The state of the analysis loop. *)
Record LoopState : Type := mkLoop {
  l_classes : list ClassRecord;
  l_packages : PackageMap;
  l_rng : nat
}.

(** The [for (const filePath of files)] loop of [generateUML]; a file whose
    analysis raises is reported with [console.warn] and skipped. *)
Fixpoint analyze_files (fs : FileSystem) (projectPath : string) (files : list string)
  (st : LoopState) : LoopState :=
  match files with
  | [] => st
  | filePath :: files' =>
      analyze_files fs projectPath files'
        match analyzeFile createSourceFile random36 getGitMetrics fs (l_rng st)
                filePath projectPath with
        | Ok (classData, rng) =>
            let classes := (l_classes st ++ [classData])%list in
            let pkgPath := package classData in
            let '(packages, rng) :=
              if negb (map_has (l_packages st) pkgPath)
              then (map_set (l_packages st) pkgPath
                      (mkPackage ("package_" ++ random_token random36 rng)
                         (package_name pkgPath) pkgPath []),
                    S rng)
              else (l_packages st, rng) in
            mkLoop classes (push_class packages pkgPath (id classData)) rng
        | Throw _ => st
        end
  end.

(** Project name and description, from [package.json] when it parses. *)
Definition read_metadata (fs : FileSystem) (projectPath projectName : string) : Project :=
  let projectDescription := "Codebase visualization" in
  let projectLanguage := "JavaScript" in
  let packageJsonPath := Path.join projectPath "package.json" in
  if existsSync fs packageJsonPath then
    match (do text <- readFileSync fs packageJsonPath; JSON_parse text) with
    | Ok packageJson =>
        mkProject (or_default (manifest_name packageJson) projectName)
          (or_default (manifest_description packageJson) projectDescription)
          projectLanguage
    | Throw _ => mkProject projectName projectDescription projectLanguage
    end
  else mkProject projectName projectDescription projectLanguage.

Section GenerateUML.

(** The module-level configuration read by [generateUML]. *)
Variables includePatterns excludePatterns : list string.

Definition generateUML (fs : FileSystem) (projectPath projectName : string) : exn Snapshot :=
  do files <- findSourceFiles fs projectPath includePatterns excludePatterns;
  let st := analyze_files fs projectPath files (mkLoop [] [] 0) in
  let classes := l_classes st in
  let packages := l_packages st in
  let definedClasses := map name classes in
  let externalClasses := collect_external definedClasses classes [] in
  let '(classes, packages) :=
    if 0 <? List.length externalClasses then
      let externalPkgPath := "external" in
      let packages :=
        if negb (map_has packages externalPkgPath)
        then map_set packages externalPkgPath
               (mkPackage "package_external" "External Libraries" externalPkgPath [])
        else packages in
      add_stubs externalClasses classes packages
    else (classes, packages) in
  Ok (mkSnapshot "6.0" now (read_metadata fs projectPath projectName)
        (map_values packages) classes).

End GenerateUML.

Record Options : Type := mkOptions {
  opt_includePatterns : list string;
  opt_excludePatterns : list string
}.

(** The [for (const filePath of files)] loop of [runAnalysis] in [tui.js]. *)
Fixpoint tui_analyze_files (fs : FileSystem) (projectPath : string) (files : list string)
  (st : LoopState) : LoopState :=
  match files with
  | [] => st
  | filePath :: files' =>
      tui_analyze_files fs projectPath files'
        match analyzeFile createSourceFile random36 getGitMetrics fs (l_rng st)
                filePath projectPath with
        | Ok (classData, rng) =>
            let classes := (l_classes st ++ [classData])%list in
            let pkgPath := package classData in
            let '(packages, rng) :=
              if negb (map_has (l_packages st) pkgPath)
              then (map_set (l_packages st) pkgPath
                      (mkPackage ("package_" ++ random_token random36 rng)
                         (package_name pkgPath) pkgPath []),
                    S rng)
              else (l_packages st, rng) in
            mkLoop classes (push_class packages pkgPath (id classData)) rng
        | Throw _ => st
        end
  end.

(** [runAnalysis(projectPath, options)]; [None] is the [null] it returns
    when no source file was found. *)
Definition runAnalysis (fs : FileSystem) (projectPath : string) (options : Options)
  : exn (option Snapshot) :=
  do files <- findSourceFiles fs projectPath (opt_includePatterns options)
                (opt_excludePatterns options);
  if List.length files =? 0 then Ok None
  else
    let st := tui_analyze_files fs projectPath files (mkLoop [] [] 0) in
    let projectName := Path.basename projectPath "" in
    Ok (Some (mkSnapshot "6.0" now (read_metadata fs projectPath projectName)
                (map_values (l_packages st)) (l_classes st))).

End Pipeline.

(** ** Sample inputs *)

Module Samples.

(** A parser that knows the trees of the sample texts; every other text is
    taken to hold no class or interface declaration. *)
Definition class_tree (n : string) (parent : string) : node :=
  OtherNode [ClassDeclaration (Some n) (Some [mkClause ExtendsKeyword [parent]]) [] []].

Definition sample_parser (filePath content : string) : node :=
  if String.eqb content "export class A extends B {}" then class_tree "A" "B"
  else if String.eqb content "export class A extends Foo {}" then class_tree "A" "Foo"
  else if String.eqb content "export class B extends foo {}" then class_tree "B" "foo"
  else if String.eqb content "export class X extends Y {}" then class_tree "X" "Y"
  else OtherNode [OtherNode []].

Definition no_git (filePath projectRoot : string) : GitMetrics := mkGitMetrics 0 None false.
Definition no_manifest (text : string) : exn Manifest := Throw "SyntaxError".
Definition sample_random (n : nat) : string := "0." ++ JsString.of_nat n ++ "k3x9q2mzp".

Definition no_snapshot : Snapshot := mkSnapshot "" "" (mkProject "" "" "") [] [].

Definition sample_run (includePatterns excludePatterns : list string) (fs : FileSystem)
  : exn Snapshot :=
  generateUML sample_parser sample_random no_git no_manifest "2024-01-01T00:00:00.000Z"
    includePatterns excludePatterns fs "/proj" "proj".

Definition snapshot_of (run : exn Snapshot) : Snapshot :=
  match run with Ok snap => snap | Throw _ => no_snapshot end.

Definition sample_tui (fs : FileSystem) : exn (option Snapshot) :=
  runAnalysis sample_parser sample_random no_git no_manifest "2024-01-01T00:00:00.000Z"
    fs "/proj" (mkOptions defaultIncludePatterns defaultExcludePatterns).

Definition tui_snapshot_of (run : exn (option Snapshot)) : Snapshot :=
  match run with Ok (Some snap) => snap | _ => no_snapshot end.

Definition sample_analyze (fs : FileSystem) (filePath : string) : exn (ClassRecord * nat) :=
  analyzeFile sample_parser sample_random no_git fs 0 filePath "/proj".

Definition record_of (run : exn (ClassRecord * nat)) : ClassRecord :=
  match run with Ok (r, _) => r | Throw _ => stubClass "" end.

(** [/proj/src/A.ts] alone, a class that extends an undefined [B]. *)
Definition fs_scenario : FileSystem :=
  mkFS "/home" "/proj"
    (Dir "proj" true [Dir "src" true [File "A.ts" (Some "export class A extends B {}")]]).

(** A file directly in the project root. *)
Definition fs_root_file : FileSystem :=
  mkFS "/home" "/proj" (Dir "proj" true [File "index.js" (Some "const x = 1;")]).

(** A directory that cannot be read, next to a source file. *)
Definition fs_unreadable_dir : FileSystem :=
  mkFS "/home" "/proj"
    (Dir "proj" true
       [Dir "src" true [File "a.ts" (Some "export const a = 1;")];
        Dir "secret" false []]).

(** Two valid files and one with malformed syntax. *)
Definition fs_malformed : FileSystem :=
  mkFS "/home" "/proj"
    (Dir "proj" true
       [Dir "src" true
          [File "a.ts" (Some "export const a = 1;");
           File "b.ts" (Some "export function b() {}");
           File "broken.ts" (Some "function ( {")]]).

(** Two valid files and one that cannot be read. *)
Definition fs_unreadable_file : FileSystem :=
  mkFS "/home" "/proj"
    (Dir "proj" true
       [Dir "src" true
          [File "a.ts" (Some "export const a = 1;");
           File "b.ts" (Some "export function b() {}");
           File "locked.ts" None]]).

(** A source file with its test file next to it, and a module file alone. *)
Definition fs_tests : FileSystem :=
  mkFS "/home" "/proj"
    (Dir "proj" true
       [Dir "src" true
          [File "X.ts" (Some "export const x = 1;");
           File "X.test.ts" (Some "");
           File "lonely.mjs" (Some "export const y = 2;")]]).

(** Two classes whose parents differ in letter case only. *)
Definition fs_case_clash : FileSystem :=
  mkFS "/home" "/proj"
    (Dir "proj" true
       [Dir "src" true
          [File "A.ts" (Some "export class A extends Foo {}");
           File "B.ts" (Some "export class B extends foo {}")]]).

(** A project with a top-level directory named [external]. *)
Definition fs_external_dir : FileSystem :=
  mkFS "/home" "/proj"
    (Dir "proj" true
       [Dir "external" true [File "X.ts" (Some "export class X extends Y {}")]]).

(** A file with local and package imports. *)
Definition fs_imports : FileSystem :=
  mkFS "/home" "/proj"
    (Dir "proj" true
       [Dir "src" true
          [File "app.js" (Some "import React from 'react';
import {a, b} from './lib/util.js'
import * as q from '../q'
import u2 from '/abs/lib/util.ts'
import z from 'zlib'
")]]).

End Samples.
Import Samples.

(** ** Auxiliary definitions for the proofs *)

(** Keyword occurrences that start at one position, and from a position on,
    summed over the keyword set. *)
Definition at_total (p : option ascii) (s : string) : nat :=
  list_sum (map (fun w => if ComplexitySpec.whole_word_at w p s then 1 else 0) keywords).

Definition total_from (p : option ascii) (s : string) : nat :=
  list_sum (map (fun w => ComplexitySpec.occurrences_from w p s) keywords).

Definition last_chr (w : string) : option ascii :=
  List.last (map Some (list_ascii_of_string w)) None.

Definition all_word (w : string) : bool :=
  forallb JsString.is_word (list_ascii_of_string w).

(** A regular expression that cannot match the empty text. *)
Fixpoint nonempty (r : re) : bool :=
  match r with
  | Chr _ => true
  | Seq a b => nonempty a || nonempty b
  | Alt a b => nonempty a && nonempty b
  | Group _ a => nonempty a
  | _ => false
  end.

(** A file is analyzable when [analyzeFile] returns a record for it; the
    draws of [Math.random] play no part in that. *)
Definition analyzable (createSourceFile : string -> string -> node) (fs : FileSystem)
  (projectRoot filePath : string) : bool :=
  match readFileSync fs filePath with
  | Ok content => returns (parseWithTypeScript createSourceFile filePath content)
  | Throw _ => false
  end.

(** The path probed for a test file: [filePath.replace(/\.(jsx?|tsx?)$/, '.test$1')]. *)
Definition test_file_path (filePath : string) : string :=
  replace_first testFileRegex (fun f => ".test" ++ group 1 f) filePath.

(** The package of a record, from the path of its file. *)
Definition package_of (fs : FileSystem) (projectRoot filePath : string) : string :=
  let packagePath := Path.dirname (Path.relative (cwd fs) projectRoot filePath) in
  if String.eqb packagePath "" then "root" else packagePath.

(** One round of the analysis loop, as a function of the state. *)
Definition loop_step (createSourceFile : string -> string -> node) (random36 : nat -> string)
  (getGitMetrics : string -> string -> GitMetrics) (fs : FileSystem) (projectPath : string)
  (st : LoopState) (filePath : string) : LoopState :=
  match analyzeFile createSourceFile random36 getGitMetrics fs (l_rng st)
          filePath projectPath with
  | Ok (classData, rng) =>
      let classes := (l_classes st ++ [classData])%list in
      let pkgPath := package classData in
      let '(packages, rng) :=
        if negb (map_has (l_packages st) pkgPath)
        then (map_set (l_packages st) pkgPath
                (mkPackage ("package_" ++ random_token random36 rng)
                   (package_name pkgPath) pkgPath []),
              S rng)
        else (l_packages st, rng) in
      mkLoop classes (push_class packages pkgPath (id classData)) rng
  | Throw _ => st
  end.

(** What the analysis loop maintains: its records are not external, the
    package map has one entry per package path met so far, and each entry
    is named after its path and carries a random id. *)
Definition loop_inv (random36 : nat -> string) (st : LoopState) : Prop :=
  (forall c, In c (l_classes st) -> isExternal c = false) /\
  NoDup (map fst (l_packages st)) /\
  (forall k v, In (k, v) (l_packages st) ->
     pkg_path v = k /\ pkg_name v = package_name k /\
     exists n, pkg_id v = "package_" ++ random_token random36 n) /\
  (forall k, map_has (l_packages st) k = true <->
             exists c, In c (l_classes st) /\ package c = k).

(** The names referenced by the records of [generateUML]'s loop that no
    record defines, in the order the stubs are made. *)
Definition external_names (cs : list ClassRecord) : list string :=
  collect_external (map name cs) cs [].

Definition is_real (c : ClassRecord) : bool := negb (isExternal c).

(** The package the stubs go to: made on demand, found when it is there. *)
Definition with_external_package (packages : PackageMap) : PackageMap :=
  if negb (map_has packages "external")
  then map_set packages "external"
         (mkPackage "package_external" "External Libraries" "external" [])
  else packages.

Definition push_stubs (externalClasses : list string) (packages : PackageMap) : PackageMap :=
  fold_left (fun pk className => push_class pk "external" (id (stubClass className)))
    externalClasses packages.

(** The package map at the end of [generateUML]. *)
Definition final_packages (externalClasses : list string) (packages : PackageMap) : PackageMap :=
  match externalClasses with
  | [] => packages
  | _ :: _ => push_stubs externalClasses (with_external_package packages)
  end.

Definition in_external_package (p : PackageRecord) : bool := String.eqb (pkg_path p) "external".

(** The exclusion test of [walk] on the full path of an entry. *)
Definition excluded (wd dir : string) (excludes : list string) (fullPath : string) : bool :=
  existsb (fun pattern => JsString.includes (Path.relative wd dir fullPath) pattern) excludes.

(** The walk of the entries of [currentDir] comes to a directory that
    cannot be read: an entry that is not excluded, or one below a readable
    entry that is not excluded. *)
Inductive meets_unreadable (wd dir : string) (excludes : list string)
  : string -> list entry -> Prop :=
| meets_here (currentDir : string) (entries : list entry) (n : string) (es : list entry) :
    In (Dir n false es) entries ->
    excluded wd dir excludes (Path.join currentDir n) = false ->
    meets_unreadable wd dir excludes currentDir entries
| meets_below (currentDir : string) (entries : list entry) (n : string) (es : list entry) :
    In (Dir n true es) entries ->
    excluded wd dir excludes (Path.join currentDir n) = false ->
    meets_unreadable wd dir excludes (Path.join currentDir n) es ->
    meets_unreadable wd dir excludes currentDir entries.

(** ** The rest of the command-line tool

    The start-up code of [uml-generator.js] that reads [process.argv]. *)

Module Cli.

Record Config : Type := mkConfig {
  targetPath : string;
  outputFile : option string;
  includePatterns : list string;
  excludePatterns : list string
}.

(** What the start-up code decides: print the help and exit, or go on with
    a configuration. *)
Inductive Start : Type :=
| ShowHelp
| Configured (c : Config).

(** The loop [for (let i = 1; i < args.length; i++)]: an option takes the
    argument after it when that argument is there and not empty, and both
    are passed over; anything else is passed over alone. *)
Fixpoint parse_options (args : list string) (cfg : Config) {struct args} : Config :=
  match args with
  | [] => cfg
  | a :: rest =>
      match rest with
      | [] => cfg
      | v :: rest' =>
          if String.eqb a "--output" && negb (String.eqb v "") then
            parse_options rest'
              (mkConfig (targetPath cfg) (Some v) (includePatterns cfg) (excludePatterns cfg))
          else if String.eqb a "--include" && negb (String.eqb v "") then
            parse_options rest'
              (mkConfig (targetPath cfg) (outputFile cfg)
                 (JsString.split_on (Ascii.eqb ",") v) (excludePatterns cfg))
          else if String.eqb a "--exclude" && negb (String.eqb v "") then
            parse_options rest'
              (mkConfig (targetPath cfg) (outputFile cfg) (includePatterns cfg)
                 (JsString.split_on (Ascii.eqb ",") v))
          else parse_options rest cfg
      end
  end.

(** [args = process.argv.slice(2)] *)
Definition parse_args (args : list string) : Start :=
  if JsString.arr_includes args "--help" || JsString.arr_includes args "-h" then ShowHelp
  else
    Configured
      (parse_options (List.tl args)
         (mkConfig (or_default (List.hd_error args) ".") None
            defaultIncludePatterns defaultExcludePatterns)).

(** The arguments that spell a configuration out in full. *)
Definition render (c : Config) (output : string) : list string :=
  [targetPath c; "--output"; output;
   "--include"; String.concat "," (includePatterns c);
   "--exclude"; String.concat "," (excludePatterns c)].

(** [isGitHubUrl(input)] *)
Definition isGitHubUrl (input : string) : bool :=
  JsString.startsWith input "http://" || JsString.startsWith input "https://" ||
  JsString.startsWith input "git@".

End Cli.

(** ** The rest of the TUI *)

Module Tui.

(** The answers to the prompts of [configureOptions], as the prompts
    return them: what was typed, or the default of the prompt when nothing
    was typed. *)
Record Answers : Type := mkAnswers {
  customize : bool;
  include : string;
  exclude : string;
  outputFile : string
}.

(** [input.split(',').map(s => s.trim())] *)
Definition parse_patterns (input : string) : list string :=
  map JsString.trim (JsString.split_on (Ascii.eqb ",") input).

(** The default shown in a pattern prompt: [patterns.join(', ')]. *)
Definition default_answer (patterns : list string) : string := String.concat ", " patterns.

(** [configureOptions(projectPath)]: the options of the analysis and the
    name of the output file. *)
Definition configureOptions (answers : Answers) : Options * string :=
  let includePatterns := defaultIncludePatterns in
  let excludePatterns := defaultExcludePatterns in
  (if customize answers
   then mkOptions (parse_patterns (include answers)) (parse_patterns (exclude answers))
   else mkOptions includePatterns excludePatterns,
   outputFile answers).

(** [fs.readdirSync(path, { withFileTypes: true })] *)
Definition readdirSync (fs : FileSystem) (path : string) : exn (list entry) :=
  match lookup fs path with
  | Some (Dir _ true entries) => Ok entries
  | Some (Dir _ false _) => Throw "EACCES"
  | Some _ => Throw "ENOTDIR"
  | None => Throw "ENOENT"
  end.

Definition isDirectory (e : entry) : bool :=
  match e with Dir _ _ _ => true | _ => false end.

(** [path.join] of several parts: the parts that are not empty, joined by
    a separator and normalized. *)
Definition join_all (parts : list string) : string :=
  match filter (fun s => negb (String.eqb s "")) parts with
  | [] => "."
  | nonempty => Path.normalize (String.concat "/" nonempty)
  end.

Record Suggestion : Type := mkSuggestion {
  sg_name : string;
  sg_value : string;
  sg_short : string
}.

Definition commonPaths (homeDir cwd : string) : list string :=
  [join_all [homeDir; "lab"; "madness_interactive"; "projects"];
   join_all [homeDir; "projects"];
   join_all [homeDir; "dev"];
   join_all [homeDir; "Documents"; "projects"];
   cwd].

(** The body of the loop over [commonPaths]: the projects among the first
    five entries of one location; a location that cannot be read gives
    none. *)
Definition suggestions_in (fs : FileSystem) (basePath : string) : list Suggestion :=
  if existsSync fs basePath then
    match readdirSync fs basePath with
    | Ok entries =>
        flat_map
          (fun entry =>
             if isDirectory entry && negb (JsString.startsWith (entry_name entry) ".") then
               let fullPath := Path.join basePath (entry_name entry) in
               if existsSync fs (Path.join fullPath "package.json")
               then [mkSuggestion (entry_name entry ++ " (" ++ basePath ++ ")") fullPath
                       (entry_name entry)]
               else []
             else [])
          (firstn 5 entries)
    | Throw _ => []
    end
  else [].

(** [findSuggestedProjects()]; [homeDir] is [os.homedir()]. *)
Definition findSuggestedProjects (fs : FileSystem) (homeDir : string) : list Suggestion :=
  firstn 10 (flat_map (suggestions_in fs) (commonPaths homeDir (cwd fs))).

(** [Array.prototype.sort] with the comparator
    [(a, b) => b.metrics.complexity - a.metrics.complexity]: a stable sort
    by descending complexity. *)
Fixpoint insert_by_complexity (x : ClassRecord) (l : list ClassRecord) : list ClassRecord :=
  match l with
  | [] => [x]
  | y :: l' =>
      if complexity (metrics y) <=? complexity (metrics x)
      then x :: l
      else y :: insert_by_complexity x l'
  end.

Definition sort_by_complexity (l : list ClassRecord) : list ClassRecord :=
  fold_right insert_by_complexity [] l.

(** The rows of the table of the most complex components in
    [displayResults]. *)
Definition sortedByComplexity (umlData : Snapshot) : list ClassRecord :=
  firstn 5 (sort_by_complexity (classes umlData)).

(** The answers to the prompts of [selectProject]: the entry chosen from
    the list, and what is typed at the prompts for a path and for a URL. *)
Record Choice : Type := mkChoice {
  project : string;
  customPath : string;
  githubUrl : string
}.

(** What [selectProject] ends with: the process exits, or a path is
    returned. *)
Inductive Selection : Type :=
| Exit
| Selected (projectPath : string).

(** [selectProject()] *)
Definition selectProject (answers : Choice) : Selection :=
  if String.eqb (project answers) "exit" then Exit
  else if String.eqb (project answers) "browse" then Selected (customPath answers)
  else if String.eqb (project answers) "github" then Selected (githubUrl answers)
  else Selected (project answers).

(** The [validate] of the prompt for a URL. *)
Definition validate_url (input : string) : bool :=
  JsString.startsWith input "http" || JsString.startsWith input "git@".

(** A home directory with one project, a hidden directory and a plain
    directory under [projects]. *)
Definition fs_home : FileSystem :=
  mkFS "/home/u/work" "/home/u"
    (Dir "u" true
       [Dir "projects" true
          [Dir "app" true [File "package.json" (Some "{}")];
           Dir ".cache" true [File "package.json" (Some "{}")];
           Dir "notes" true [File "readme.md" (Some "notes")];
           File "package.json" (Some "{}")];
        Dir "work" true []]).

End Tui.

(** The first three steps of the loop of [main] in [tui.js]: select a
    project, configure the options, run the analysis.  [None] when
    [selectProject] exits the process. *)
Definition main_round (createSourceFile : string -> string -> node)
  (random36 : nat -> string) (getGitMetrics : string -> string -> GitMetrics)
  (JSON_parse : string -> exn Manifest) (now : string)
  (fs : FileSystem) (choice : Tui.Choice) (answers : Tui.Answers)
  : option (exn (option Snapshot)) :=
  match Tui.selectProject choice with
  | Tui.Exit => None
  | Tui.Selected projectPath =>
      let options := fst (Tui.configureOptions answers) in
      Some (runAnalysis createSourceFile random36 getGitMetrics JSON_parse now
              fs projectPath options)
  end.

(** ** Further auxiliary definitions for the proofs *)

(** The walk of the entries of [currentDir] pushes the path [f]: a file
    entry that passes the three tests, here or below a readable directory
    that is not excluded. *)
Inductive finds (wd dir : string) (includes excludes : list string)
  : string -> list entry -> string -> Prop :=
| finds_here (currentDir : string) (entries : list entry) (n : string) (c : option string) :
    In (File n c) entries ->
    excluded wd dir excludes (Path.join currentDir n) = false ->
    JsString.arr_includes sourceExtensions (Path.extname n) = true ->
    (List.length includes =? 0) ||
    existsb (fun pattern =>
               JsString.startsWith (Path.relative wd dir (Path.join currentDir n)) pattern)
      includes = true ->
    finds wd dir includes excludes currentDir entries (Path.join currentDir n)
| finds_below (currentDir : string) (entries : list entry) (n : string) (es : list entry)
    (f : string) :
    In (Dir n true es) entries ->
    excluded wd dir excludes (Path.join currentDir n) = false ->
    finds wd dir includes excludes (Path.join currentDir n) es f ->
    finds wd dir includes excludes currentDir entries f.

(** What one entry adds to the array of files: the paths the walk finds
    at it or below it, after those that were there. *)
Definition walk_adds (wd dir : string) (includes excludes : list string) (e : entry) : Prop :=
  forall cur files files',
    walk_entry wd dir includes excludes cur e files = Ok files' ->
    exists new, files' = (files ++ new)%list /\
                forall f, In f new <-> finds wd dir includes excludes cur [e] f.

(** The walk raises at an entry only where it meets a directory it cannot
    read. *)
Definition walk_raises_at (wd dir : string) (includes excludes : list string) (e : entry)
  : Prop :=
  forall cur files,
    returns (walk_entry wd dir includes excludes cur e files) = false ->
    meets_unreadable wd dir excludes cur [e].

(** The nodes [forEachChild] visits below a node. *)
Definition node_children (n : node) : list node :=
  match n with
  | ClassDeclaration _ _ _ children => children
  | InterfaceDeclaration _ _ children => children
  | OtherNode children => children
  end.

(** An [extends] clause without a type. *)
Definition empty_extends (clause : HeritageClause) : bool :=
  match token clause, types clause with
  | ExtendsKeyword, [] => true
  | _, _ => false
  end.

(** The tree holds a named class declaration with an [extends] clause that
    has no type. *)
Inductive has_empty_extends : node -> Prop :=
| empty_extends_here (className : string) (clauses : list HeritageClause)
    (members : list ClassElement) (children : list node) :
    existsb empty_extends clauses = true ->
    has_empty_extends (ClassDeclaration (Some className) (Some clauses) members children)
| empty_extends_below (n c : node) :
    In c (node_children n) -> has_empty_extends c -> has_empty_extends n.

(** The number of code units of a text that satisfy [p]. *)
Fixpoint count_chars (p : ascii -> bool) (s : string) : nat :=
  match s with
  | EmptyString => 0
  | String c t => (if p c then 1 else 0) + count_chars p t
  end.

(** No code unit of a text satisfies [p]. *)
Definition free_of (p : ascii -> bool) (s : string) : bool :=
  count_chars p s =? 0.

(** What a stub id keeps of a name: dots read as underscores, letters in
    lower case. *)
Definition stub_key (className : string) : string :=
  JsString.map_chars
    (fun c => JsString.lower_chr (if Ascii.eqb c "." then "_"%char else c)) className.

(** [ts.forEachChild(node, visit)] over the children of a node. *)
Fixpoint visit_all (isTypeScript : bool) (cs : list node) (result : ParseResult)
  : exn ParseResult :=
  match cs with
  | [] => Ok result
  | c :: cs' => do result' <- visit isTypeScript c result; visit_all isTypeScript cs' result'
  end.

(** The walk of a tree raises exactly on a class with an [extends] clause
    that has no type, whatever was collected before. *)
Definition raises_on_empty_extends (isTypeScript : bool) (n : node) : Prop :=
  forall result, returns (visit isTypeScript n result) = false <-> has_empty_extends n.

(** The walk of the tree of a JavaScript file collects no interface. *)
Definition keeps_interfaces (n : node) : Prop :=
  forall result result',
    visit false n result = Ok result' -> pr_interfaces result' = pr_interfaces result.

(** Records and package entries point at each other: the id of a record is
    listed by the entry of its package, and every id an entry lists is the
    id of a record of that package. *)
Definition xref_inv (st : LoopState) : Prop :=
  (forall c, In c (l_classes st) ->
     exists v, In (package c, v) (l_packages st) /\ In (id c) (pkg_classes v)) /\
  (forall k v i, In (k, v) (l_packages st) -> In i (pkg_classes v) ->
     exists c, In c (l_classes st) /\ id c = i /\ package c = k).

(** The same for the records and packages of a snapshot. *)
Definition cross_referenced (snap : Snapshot) : Prop :=
  (forall c, In c (classes snap) ->
     exists p, In p (packages snap) /\ pkg_path p = package c /\ In (id c) (pkg_classes p)) /\
  (forall p i, In p (packages snap) -> In i (pkg_classes p) ->
     exists c, In c (classes snap) /\ id c = i /\ package c = pkg_path p).

(** Every id made so far carries the token of a draw of its own. *)
Definition draws_inv (random36 : nat -> string) (st : LoopState) : Prop :=
  exists ci pi : list nat,
    map id (l_classes st) = map (fun i => "component_" ++ random_token random36 i) ci /\
    map (fun kv => pkg_id (snd kv)) (l_packages st) =
      map (fun i => "package_" ++ random_token random36 i) pi /\
    NoDup (ci ++ pi) /\
    (forall i, In i (ci ++ pi) -> i < l_rng st) /\
    l_rng st = List.length (l_classes st) + List.length (l_packages st).

(** The tokens of the first [n] draws differ from one another. *)
Definition distinct_draws (random36 : nat -> string) (n : nat) : Prop :=
  forall i j, i < n -> j < n ->
    random_token random36 i = random_token random36 j -> i = j.

(** A TypeScript file with a type-only import and an import of a default
    and a namespace binding, before a plain named import. *)
Definition fs_type_import : FileSystem :=
  mkFS "/home" "/proj"
    (Dir "proj" true
       [Dir "src" true
          [File "app.ts" (Some "import type { Shape } from './shapes';
import tools, * as geo from './geometry';
import { area } from './area';
")]]).

(** A class whose [extends] clause names no type, and the tree of its
    text: the clause is there and its list of types is empty. *)
Definition fs_empty_extends : FileSystem :=
  mkFS "/home" "/proj"
    (Dir "proj" true [Dir "src" true [File "A.ts" (Some "export class A extends {}")]]).

Definition empty_extends_parser (filePath content : string) : node :=
  OtherNode [ClassDeclaration (Some "A") (Some [mkClause ExtendsKeyword []]) [] []].

(** Two files whose classes extend two different names that the project
    does not define. *)
Definition fs_two_stubs : FileSystem :=
  mkFS "/home" "/proj"
    (Dir "proj" true
       [Dir "src" true
          [File "A.ts" (Some "export class A extends B {}");
           File "X.ts" (Some "export class X extends Y {}")]]).

(** The ids of a snapshot that carry a random token: those of the analyzed
    records, and those of the packages other than the package made for the
    stubs. *)
Definition drawn_ids (snap : Snapshot) : nat :=
  List.length (filter is_real (classes snap)) +
  List.length (filter (fun p => negb (String.eqb (pkg_id p) "package_external"))
                 (packages snap)).

(** * Properties *)

(** ** Strings *)

Lemma substring_zero_app (w t : string) :
  String.substring 0 (String.length w) (w ++ t) = w.
Proof.
  induction w as [|c w IH]; simpl.
  - destruct t; reflexivity.
  - now rewrite IH.
Qed.

Lemma string_length_app (w t : string) :
  String.length (w ++ t) = String.length w + String.length t.
Proof. induction w; simpl; auto. Qed.

Lemma consumed_app (p p' : option ascii) (w t : string) (c c' : list (nat * string)) :
  consumed (mkPos p (w ++ t) c) (mkPos p' t c') = w.
Proof.
  unfold consumed; simpl. rewrite string_length_app.
  replace (String.length w + String.length t - String.length t) with (String.length w) by lia.
  apply substring_zero_app.
Qed.

(** ** The complexity metric counts whole-word keywords *)

Section ComplexityProof.

Import ComplexitySpec.

Local Arguments Ascii.eqb : simpl never.
Local Arguments JsString.is_word : simpl never.

Lemma total_from_step p s :
  total_from p s =
  at_total p s + match s with EmptyString => 0 | String c t => total_from (Some c) t end.
Proof.
  unfold total_from, at_total, keywords.
  destruct s; simpl; lia.
Qed.

Ltac eval_closed :=
  repeat match goal with
  | |- context [Ascii.eqb ?a ?b] =>
      tryif is_var b then fail else
      (let v := eval vm_compute in (Ascii.eqb a b) in
       change (Ascii.eqb a b) with v)
  | |- context [JsString.is_word ?a] =>
      tryif is_var a then fail else
      (let v := eval vm_compute in (JsString.is_word a) in
       change (JsString.is_word a) with v)
  end.

Ltac case_step :=
  match goal with
  | |- context [match ?s with EmptyString => _ | String _ _ => _ end] =>
      is_var s; destruct s
  | |- context [match ?p with Some _ => _ | None => _ end] =>
      is_var p; destruct p
  | |- context [Ascii.eqb ?a ?b] =>
      is_var b;
      let E := fresh "E" in
      destruct (Ascii.eqb a b) eqn:E;
      [apply Ascii.eqb_eq in E; subst b; eval_closed |]
  | |- context [JsString.is_word ?c] =>
      is_var c; destruct (JsString.is_word c)
  end; simpl.

Ltac pick_keyword :=
  let close := (simpl; repeat split; auto 10) in
  first [ exists "if"; solve [close] | exists "else"; solve [close]
        | exists "for"; solve [close] | exists "while"; solve [close]
        | exists "switch"; solve [close] | exists "case"; solve [close]
        | exists "catch"; solve [close] ].

(** One anchored attempt of the regular expression succeeds exactly where a
    keyword stands as a whole word, and then consumes that keyword. *)
Lemma attempt_keyword p s :
  match attempt complexityRegex p s with
  | None => at_total p s = 0
  | Some e =>
      at_total p s = 1 /\
      exists w, In w keywords /\ s = w ++ rest e /\ prev e = last_chr w
  end.
Proof.
  unfold attempt, complexityRegex, at_total, keywords, whole_word_at.
  unfold last_chr. simpl.
  unfold word_before, word_after, word_char_before, word_char_first. simpl.
  repeat case_step; first [ reflexivity | split; [ reflexivity | pick_keyword ] ].
Qed.

Lemma at_total_after_word c s :
  JsString.is_word c = true -> at_total (Some c) s = 0.
Proof.
  intros H. unfold at_total, whole_word_at, word_char_before, keywords.
  rewrite H. reflexivity.
Qed.

(** Inside a word no whole-word occurrence starts. *)
Lemma skip_word w : forall c p t,
  all_word (String c w) = true ->
  total_from p (String c w ++ t) =
  at_total p (String c w ++ t) + total_from (last_chr (String c w)) t.
Proof.
  induction w as [|c' w IH]; intros c p t H.
  - rewrite total_from_step. reflexivity.
  - rewrite total_from_step.
    change (String c (String c' w) ++ t) with (String c (String c' w ++ t)).
    cbv beta iota.
    unfold all_word in H. simpl in H.
    apply andb_prop in H. destruct H as [Hc H].
    rewrite (IH c' (Some c) t) by exact H.
    rewrite at_total_after_word by exact Hc.
    reflexivity.
Qed.

Lemma keyword_shape w :
  In w keywords -> exists c w', w = String c w' /\ all_word w = true.
Proof.
  unfold keywords. simpl.
  intros H; repeat (destruct H as [<-|H]; [eexists; eexists; split; reflexivity|]).
  destruct H.
Qed.

Lemma exec_keyword s : forall p,
  match exec complexityRegex p s with
  | None => total_from p s = 0
  | Some f =>
      total_from p s = 1 + total_from (prev (after f)) (rest (after f)) /\
      String.length (rest (after f)) < String.length s /\
      text f <> ""
  end.
Proof.
  induction s as [|c t IH]; intros p; cbn [exec];
    pose proof (attempt_keyword p) as A.
  - specialize (A ""). destruct (attempt complexityRegex p "") as [e|].
    + destruct A as [_ (w & Hin & Hs & _)].
      destruct (keyword_shape w Hin) as (c & w' & -> & _). discriminate.
    + rewrite total_from_step. lia.
  - specialize (A (String c t)).
    destruct (attempt complexityRegex p (String c t)) as [e|].
    + destruct A as [Hat (w & Hin & Hs & Hp)].
      destruct (keyword_shape w Hin) as (c0 & w' & -> & Hw).
      cbn [after text]. destruct e as [pe re ce]. cbn [rest prev] in *.
      rewrite Hs. rewrite consumed_app.
      split; [|split].
      * rewrite skip_word by exact Hw. rewrite Hp. rewrite <- Hs. lia.
      * rewrite string_length_app. simpl. lia.
      * discriminate.
    + specialize (IH (Some c)).
      destruct (exec complexityRegex (Some c) t) as [f|].
      * cbn [after text rest prev]. destruct IH as (H1 & H2 & H3).
        split; [|split]; auto.
        -- rewrite total_from_step. lia.
        -- simpl. lia.
      * rewrite total_from_step. lia.
Qed.

Lemma scan_keywords fuel : forall s p,
  String.length s < fuel ->
  List.length (fst (scan fuel complexityRegex p s)) = total_from p s.
Proof.
  induction fuel as [|fuel IH]; intros s p Hf; [lia|].
  cbn [scan]. pose proof (exec_keyword s p) as E.
  destruct (exec complexityRegex p s) as [f|].
  - destruct E as (H1 & H2 & H3).
    destruct (text f) as [|a b] eqn:Et; [congruence|].
    specialize (IH (rest (after f)) (prev (after f))).
    destruct (scan fuel complexityRegex (prev (after f)) (rest (after f))) as [l tl].
    simpl in *. rewrite IH by lia. lia.
  - simpl. lia.
Qed.

Lemma complexity_is_keyword_count text :
  cyclomaticComplexity text = keyword_occurrences text.
Proof.
  unfold cyclomaticComplexity, match_all.
  rewrite scan_keywords by lia. reflexivity.
Qed.

End ComplexityProof.



(** ** The matcher only moves forward *)

Lemma m_le r : forall k s e,
  m r k s = Some e ->
  exists s', k s' = Some e /\ String.length (rest s') <= String.length (rest s).
Proof.
  induction r as [|p|a IHa b IHb|a IHa b IHb|a IHa|n a IHa| | |];
    intros k s e H; simpl in H.
  - exists s; auto.
  - destruct (rest s) as [|c t] eqn:Er; [discriminate|].
    destruct (p c); [|discriminate].
    eexists; split; [exact H|]. simpl. lia.
  - apply IHa in H as (s1 & H1 & L1).
    apply IHb in H1 as (s2 & H2 & L2).
    exists s2; split; [exact H2|lia].
  - destruct (m a k s) as [x|] eqn:E.
    + inversion H; subst x. apply IHa in E. exact E.
    + apply IHb in H. exact H.
  - revert H. generalize (String.length (rest s)) at 1. intros n. revert s.
    induction n as [|n IHn]; intros s H; cbn [iterate] in H.
    + exists s; auto.
    + match type of H with
      | match ?X with _ => _ end = _ => destruct X as [x|] eqn:E
      end.
      * inversion H; subst x.
        apply IHa in E as (s1 & H1 & L1).
        destruct (String.length (rest s1) <? String.length (rest s)) eqn:Lt;
          [|discriminate].
        apply IHn in H1 as (s2 & H2 & L2).
        exists s2; split; [exact H2|lia].
      * exists s; auto.
  - apply IHa in H as (s1 & H1 & L1).
    eexists; split; [exact H1|]. simpl. lia.
  - exists s; split; [|lia]. destruct (xorb _ _); [exact H|discriminate].
  - exists s; split; [|lia]. destruct (prev s) as [c|]; [|exact H].
    destruct (JsString.is_line_terminator c); [exact H|discriminate].
  - exists s; split; [|lia]. destruct (rest s); [exact H|discriminate].
Qed.

Lemma m_lt r : nonempty r = true -> forall k s e,
  m r k s = Some e ->
  exists s', k s' = Some e /\ String.length (rest s') < String.length (rest s).
Proof.
  induction r as [|p|a IHa b IHb|a IHa b IHb|a IHa|n a IHa| | |];
    simpl; intros N k s e H; try discriminate.
  - destruct (rest s) as [|c t] eqn:Er; [discriminate|].
    destruct (p c); [|discriminate].
    eexists; split; [exact H|]. simpl. lia.
  - destruct (nonempty a) eqn:Na.
    + apply IHa in H as (s1 & H1 & L1); [|reflexivity].
      apply m_le in H1 as (s2 & H2 & L2).
      exists s2; split; [exact H2|lia].
    + simpl in N. apply m_le in H as (s1 & H1 & L1).
      apply IHb in H1 as (s2 & H2 & L2); [|exact N].
      exists s2; split; [exact H2|lia].
  - apply andb_prop in N as [Na Nb].
    destruct (m a k s) as [x|] eqn:E.
    + inversion H; subst x. apply IHa in E; auto.
    + apply IHb in H; auto.
  - apply IHa in H as (s1 & H1 & L1); [|exact N].
    eexists; split; [exact H1|]. simpl. lia.
Qed.

(** The matcher depends on its continuation only through its values. *)
Lemma m_ext r : forall k1 k2 s,
  (forall s', k1 s' = k2 s') -> m r k1 s = m r k2 s.
Proof.
  induction r as [|p|a IHa b IHb|a IHa b IHb|a IHa|n a IHa| | |];
    intros k1 k2 s H; simpl.
  - apply H.
  - destruct (rest s) as [|c t]; [reflexivity|]. destruct (p c); [apply H|reflexivity].
  - apply IHa. intros s'. now apply IHb.
  - rewrite (IHa k1 k2 s H), (IHb k1 k2 s H). reflexivity.
  - generalize (String.length (rest s)). intros n. revert s.
    induction n as [|n IHn]; intros s; cbn [iterate]; [apply H|].
    rewrite (IHa _ (fun s' => if String.length (rest s') <? String.length (rest s)
                              then iterate (m a) k2 n s' else None) s).
    + now rewrite H.
    + intros s'. destruct (_ <? _); [apply IHn|reflexivity].
  - apply IHa. intros s'. apply H.
  - now rewrite H.
  - destruct (prev s) as [c|]; now rewrite H.
  - now rewrite H.
Qed.

Lemma m_none r k s :
  (forall s', String.length (rest s') <= String.length (rest s) -> k s' = None) ->
  m r k s = None.
Proof.
  intros H. destruct (m r k s) as [e|] eqn:E; [|reflexivity].
  apply m_le in E as (s' & K & L). rewrite (H s' L) in K. discriminate.
Qed.

(** The rounds granted to [Star] are enough: more of them change nothing. *)
Lemma iterate_fuel a : forall n1 n2 k s,
  String.length (rest s) <= n1 -> String.length (rest s) <= n2 ->
  iterate (m a) k n1 s = iterate (m a) k n2 s.
Proof.
  assert (Stop : forall n k s, String.length (rest s) = 0 ->
                               iterate (m a) k n s = k s).
  { intros n k s Z. destruct n as [|n]; [reflexivity|]. cbn [iterate].
    rewrite m_none; [reflexivity|]. intros s' L.
    destruct (Nat.ltb_spec (String.length (rest s')) (String.length (rest s)));
      [lia|reflexivity]. }
  induction n1 as [|n1 IH]; intros n2 k s H1 H2.
  - rewrite !Stop by lia. reflexivity.
  - destruct n2 as [|n2]; [rewrite !Stop by lia; reflexivity|].
    cbn [iterate].
    rewrite (m_ext a _ (fun s' => if String.length (rest s') <? String.length (rest s)
                                  then iterate (m a) k n2 s' else None) s);
      [reflexivity|].
    intros s'.
    destruct (Nat.ltb_spec (String.length (rest s')) (String.length (rest s)));
      [apply IH; lia|reflexivity].
Qed.

Lemma star_fuel a k s n :
  String.length (rest s) <= n -> m (Star a) k s = iterate (m a) k n s.
Proof. intros H. simpl. apply iterate_fuel; lia. Qed.

Lemma substring_zero_zero (s : string) : String.substring 0 0 s = "".
Proof. destruct s; reflexivity. Qed.

Lemma exec_le r : forall s p f,
  exec r p s = Some f ->
  String.length (rest (after f)) <= String.length s /\
  (text f <> "" -> String.length (rest (after f)) < String.length s).
Proof.
  induction s as [|c t IH]; intros p f; cbn [exec].
  - destruct (attempt r p "") as [e|] eqn:E; [|discriminate].
    intros H; inversion H; subst f; clear H. cbn [after text].
    unfold attempt in E. apply m_le in E as (s' & K & L). inversion K; subst s'.
    cbn [rest] in L. split; [exact L|]. unfold consumed. cbn [rest]. simpl. tauto.
  - destruct (attempt r p (String c t)) as [e|] eqn:E.
    + intros H; inversion H; subst f; clear H. cbn [after text].
      unfold attempt in E. apply m_le in E as (s' & K & L). inversion K; subst s'.
      cbn [rest] in L. split; [exact L|]. unfold consumed. cbn [rest].
      destruct (String.length (String c t) - String.length (rest e)) as [|d] eqn:D.
      * rewrite substring_zero_zero. tauto.
      * intros _. lia.
    + destruct (exec r (Some c) t) as [g|] eqn:G; [|discriminate].
      intros H; inversion H; subst f; clear H. cbn [after text].
      destruct (IH _ _ G) as [L T]. split; [simpl; lia|].
      intros N. specialize (T N). simpl. lia.
Qed.

(** The rounds granted to a global scan are enough as well. *)
Lemma scan_fuel r : forall f1 f2 p s,
  String.length s < f1 -> String.length s < f2 ->
  scan f1 r p s = scan f2 r p s.
Proof.
  induction f1 as [|f1 IH]; intros f2 p s H1 H2; [lia|].
  destruct f2 as [|f2]; [lia|]. cbn [scan].
  destruct (exec r p s) as [f|] eqn:E; [|reflexivity].
  destruct (exec_le r s p f E) as [L T].
  destruct (text f) as [|c w].
  - destruct (rest (after f)) as [|c t] eqn:R; [reflexivity|].
    simpl in L. rewrite (IH f2 (Some c) t) by lia. reflexivity.
  - assert (String.length (rest (after f)) < String.length s) by (apply T; discriminate).
    rewrite (IH f2 (prev (after f)) (rest (after f))) by lia. reflexivity.
Qed.

Lemma match_all_fuel r s fuel :
  String.length s < fuel -> fst (scan fuel r None s) = match_all r s.
Proof. intros H. unfold match_all. f_equal. apply scan_fuel; lia. Qed.

Lemma substring_zero_succ (n : nat) (s : string) :
  0 < String.length s -> exists c t, String.substring 0 (S n) s = String c t.
Proof. destruct s; simpl; [lia|]. intros _. eauto. Qed.

(** A match of a regular expression that cannot match the empty text
    consumes at least one code unit. *)
Lemma exec_progress r : nonempty r = true -> forall s p f,
  exec r p s = Some f ->
  String.length (rest (after f)) < String.length s /\
  exists c t, text f = String c t.
Proof.
  intros N. induction s as [|c t IH]; intros p f; cbn [exec].
  - destruct (attempt r p "") as [e|] eqn:E; [|discriminate].
    unfold attempt in E. apply (m_lt r N) in E as (s' & H1 & L). simpl in L. lia.
  - destruct (attempt r p (String c t)) as [e|] eqn:E.
    + intros H; inversion H; subst f; clear H. cbn [after text].
      unfold attempt in E. apply (m_lt r N) in E as (s' & H1 & L).
      inversion H1; subst s'. cbn [rest] in L.
      split; [exact L|].
      unfold consumed. cbn [rest].
      destruct (String.length (String c t) - String.length (rest e)) as [|n] eqn:D; [lia|].
      apply substring_zero_succ. simpl. lia.
    + destruct (exec r (Some c) t) as [g|] eqn:G; [|discriminate].
      intros H; inversion H; subst f; clear H. cbn [after text].
      destruct (IH _ _ G) as [L T]. split; [simpl; lia|exact T].
Qed.

(** ** Import edges *)

Lemma importRegex_nonempty : nonempty importRegex = true.
Proof. reflexivity. Qed.

(** More fuel than the text is long changes nothing: the loop has ended. *)
Lemma import_loop_fuel f1 : forall f2 p s deps,
  String.length s < f1 -> String.length s < f2 ->
  import_loop f1 p s deps = import_loop f2 p s deps.
Proof.
  induction f1 as [|f1 IH]; intros f2 p s deps H1 H2; [lia|].
  destruct f2 as [|f2]; [lia|].
  cbn [import_loop].
  destruct (exec importRegex p s) as [f|] eqn:E; [|reflexivity].
  destruct (exec_progress _ importRegex_nonempty _ _ _ E) as [L _].
  apply IH; lia.
Qed.

(** ** Per-file analysis *)

Section AnalysisFacts.

Variable createSourceFile : string -> string -> node.
Variable random36 : nat -> string.
Variable getGitMetrics : string -> string -> GitMetrics.

Abbreviation analyze := (analyzeFile createSourceFile random36 getGitMetrics).

Lemma analyzeFile_inv fs rng filePath projectRoot r n :
  analyze fs rng filePath projectRoot = Ok (r, n) ->
  exists content,
    readFileSync fs filePath = Ok content /\
    n = S rng /\
    id r = "component_" ++ random_token random36 rng /\
    isExternal r = false /\
    dependencies r = extract_dependencies content /\
    package r = package_of fs projectRoot filePath /\
    top_complexity r = cyclomaticComplexity content /\
    testMetrics r = Some (mkTestMetrics (existsSync fs (test_file_path filePath)) 0).
Proof.
  unfold analyzeFile, bind.
  destruct (readFileSync fs filePath) as [content|] eqn:R; [|discriminate].
  destruct (parseWithTypeScript createSourceFile filePath content) as [ts|]; [|discriminate].
  intros H. inversion H; subst; clear H. exists content. cbn.
  repeat split; reflexivity.
Qed.

Lemma analyzeFile_returns fs rng filePath projectRoot :
  returns (analyze fs rng filePath projectRoot) =
  analyzable createSourceFile fs projectRoot filePath.
Proof.
  unfold analyzeFile, analyzable, bind.
  destruct (readFileSync fs filePath) as [content|]; [|reflexivity].
  destruct (parseWithTypeScript createSourceFile filePath content) as [ts|]; [|reflexivity].
  reflexivity.
Qed.

End AnalysisFacts.

(** ** The package map *)

Lemma NoDup_snoc {A : Type} (l : list A) (x : A) :
  NoDup l -> ~ In x l -> NoDup (l ++ [x]).
Proof.
  induction l as [|y l IH]; intros Hnd Hx; simpl.
  - constructor; [intros []|constructor].
  - inversion Hnd; subst. constructor.
    + rewrite in_app_iff. simpl. intros [H|[H|[]]]; [auto|].
      subst. apply Hx. simpl; auto.
    + apply IH; [assumption|]. intros H. apply Hx. simpl; auto.
Qed.

Lemma map_has_In (packages : PackageMap) (k : string) :
  map_has packages k = true <-> In k (map fst packages).
Proof.
  unfold map_has. rewrite existsb_exists, in_map_iff. split.
  - intros (kv & Hin & E). apply String.eqb_eq in E. eauto.
  - intros (kv & E & Hin). exists kv. split; [exact Hin|]. now apply String.eqb_eq.
Qed.

Lemma push_class_keys (packages : PackageMap) (k c : string) :
  map fst (push_class packages k c) = map fst packages.
Proof.
  unfold push_class. rewrite map_map. apply map_ext.
  intros [k' v]; simpl. destruct (String.eqb k' k); reflexivity.
Qed.

Lemma push_class_has (packages : PackageMap) (k c k' : string) :
  map_has (push_class packages k c) k' = map_has packages k'.
Proof.
  apply eq_true_iff_eq. now rewrite !map_has_In, push_class_keys.
Qed.

Lemma push_class_In (packages : PackageMap) (k c k' : string) (v' : PackageRecord) :
  In (k', v') (push_class packages k c) ->
  exists v, In (k', v) packages /\
            pkg_id v' = pkg_id v /\ pkg_name v' = pkg_name v /\ pkg_path v' = pkg_path v /\
            pkg_classes v' = (if String.eqb k' k then pkg_classes v ++ [c] else pkg_classes v)%list.
Proof.
  unfold push_class. rewrite in_map_iff. intros ([k0 v0] & E & Hin). simpl in E.
  destruct (String.eqb k0 k) eqn:Ek; inversion E; subst; clear E.
  - exists v0. rewrite Ek. simpl. auto.
  - exists v'. rewrite Ek. auto.
Qed.

Lemma map_has_snoc (packages : PackageMap) (k0 : string) (v : PackageRecord) (k : string) :
  map_has (packages ++ [(k0, v)])%list k = true <-> map_has packages k = true \/ k = k0.
Proof.
  rewrite !map_has_In, map_app, in_app_iff. simpl. intuition.
Qed.

Lemma map_set_fresh (packages : PackageMap) (k : string) (v : PackageRecord) :
  map_has packages k = false -> map_set packages k v = (packages ++ [(k, v)])%list.
Proof. unfold map_set. now intros ->. Qed.

(** ** The analysis loop *)

Section LoopFacts.

Variable createSourceFile : string -> string -> node.
Variable random36 : nat -> string.
Variable getGitMetrics : string -> string -> GitMetrics.
Variable fs : FileSystem.
Variable projectPath : string.

Abbreviation analyze := (analyzeFile createSourceFile random36 getGitMetrics fs).
Abbreviation step := (loop_step createSourceFile random36 getGitMetrics fs projectPath).
Abbreviation run := (analyze_files createSourceFile random36 getGitMetrics fs projectPath).

Lemma analyze_files_cons f files st :
  run (f :: files) st = run files (step st f).
Proof. reflexivity. Qed.

Lemma tui_analyze_files_eq files : forall st,
  tui_analyze_files createSourceFile random36 getGitMetrics fs projectPath files st =
  run files st.
Proof. induction files as [|f files IH]; intros st; [reflexivity|]. simpl. apply IH. Qed.

Lemma step_classes st f :
  l_classes (step st f) =
  match analyze (l_rng st) f projectPath with
  | Ok (c, _) => (l_classes st ++ [c])%list
  | Throw _ => l_classes st
  end.
Proof.
  unfold loop_step. destruct (analyze (l_rng st) f projectPath) as [[c n]|]; [|reflexivity].
  destruct (negb (map_has (l_packages st) (package c))); reflexivity.
Qed.

Lemma step_inv st f : loop_inv random36 st -> loop_inv random36 (step st f).
Proof.
  intros (Hext & Hnd & Hwf & Hhas). unfold loop_step.
  destruct (analyze (l_rng st) f projectPath) as [[c n]|] eqn:A;
    [|unfold loop_inv; auto].
  destruct (analyzeFile_inv _ _ _ _ _ _ _ _ _ A) as (content & _ & _ & _ & Hc & _).
  destruct (map_has (l_packages st) (package c)) eqn:Hk; cbn [negb];
    unfold loop_inv; cbn [l_classes l_packages].
  - (* the package exists *)
    split; [|split; [|split]].
    + intros c' Hin. apply in_app_or in Hin as [Hin|[<-|[]]]; auto.
    + now rewrite push_class_keys.
    + intros k v Hin. apply push_class_In in Hin as (v0 & Hin & E1 & E2 & E3 & _).
      rewrite E1, E2, E3. now apply Hwf.
    + intros k. rewrite push_class_has, Hhas. split.
      * intros (c' & Hin & E). exists c'. split; [apply in_or_app; auto|exact E].
      * intros (c' & Hin & E). apply in_app_or in Hin as [Hin|[<-|[]]]; [eauto|].
        subst k. now apply Hhas.
  - (* a new package *)
    rewrite map_set_fresh by exact Hk.
    split; [|split; [|split]].
    + intros c' Hin. apply in_app_or in Hin as [Hin|[<-|[]]]; auto.
    + rewrite push_class_keys, map_app. simpl.
      apply NoDup_snoc; [exact Hnd|].
      intros Hin. apply map_has_In in Hin. congruence.
    + intros k v Hin. apply push_class_In in Hin as (v0 & Hin & E1 & E2 & E3 & _).
      rewrite E1, E2, E3.
      apply in_app_or in Hin as [Hin|[E|[]]]; [now apply Hwf|].
      inversion E; subst; simpl. eauto.
    + intros k. rewrite push_class_has.
      rewrite map_has_snoc, Hhas. split.
      * intros [(c' & Hin & E)|E].
        -- exists c'. split; [apply in_or_app; auto|exact E].
        -- exists c. split; [apply in_or_app; simpl; auto|now symmetry].
      * intros (c' & Hin & E). apply in_app_or in Hin as [Hin|[<-|[]]]; [eauto|auto].
Qed.

Lemma run_inv files : forall st, loop_inv random36 st -> loop_inv random36 (run files st).
Proof.
  induction files as [|f files IH]; intros st H; [exact H|].
  rewrite analyze_files_cons. apply IH, step_inv, H.
Qed.

Lemma init_inv : loop_inv random36 (mkLoop [] [] 0).
Proof.
  unfold loop_inv; simpl.
  split; [intros c []|]. split; [constructor|]. split; [intros k v []|].
  intros k; split; [discriminate|intros (c & [] & _)].
Qed.

(** The records come from [analyzeFile] on the listed files, in order. *)
Lemma run_classes_origin files : forall st c,
  In c (l_classes (run files st)) ->
  In c (l_classes st) \/
  exists f n, In f files /\ analyze n f projectPath = Ok (c, S n).
Proof.
  induction files as [|f files IH]; intros st c Hin; [auto|].
  rewrite analyze_files_cons in Hin. apply IH in Hin as [Hin|(f' & n & Hf & A)].
  - rewrite step_classes in Hin.
    destruct (analyze (l_rng st) f projectPath) as [[c' n']|] eqn:A; [|auto].
    apply in_app_or in Hin as [Hin|[<-|[]]]; [auto|].
    right. exists f, (l_rng st). split; [simpl; auto|].
    destruct (analyzeFile_inv _ _ _ _ _ _ _ _ _ A) as (_ & _ & -> & _). exact A.
  - right. exists f', n. simpl; auto.
Qed.

(** One record per analyzable file. *)
Lemma run_classes_length files : forall st,
  List.length (l_classes (run files st)) =
  List.length (l_classes st) +
  List.length (filter (analyzable createSourceFile fs projectPath) files).
Proof.
  induction files as [|f files IH]; intros st; [simpl; lia|].
  rewrite analyze_files_cons, IH, step_classes. cbn [filter].
  rewrite <- (analyzeFile_returns createSourceFile random36 getGitMetrics fs (l_rng st)).
  destruct (analyze (l_rng st) f projectPath) as [[c n]|]; simpl.
  - rewrite length_app. simpl. lia.
  - lia.
Qed.

End LoopFacts.

(** ** External names and stubs *)

Lemma arr_includes_In (l : list string) (x : string) :
  JsString.arr_includes l x = true <-> In x l.
Proof.
  unfold JsString.arr_includes. rewrite existsb_exists. split.
  - intros (y & Hin & E). apply String.eqb_eq in E. now subst.
  - intros H. exists x. split; [exact H|apply String.eqb_refl].
Qed.

Lemma arr_includes_not_In (l : list string) (x : string) :
  JsString.arr_includes l x = false <-> ~ In x l.
Proof.
  rewrite <- arr_includes_In. destruct (JsString.arr_includes l x); intuition congruence.
Qed.

Lemma add_external_In defined names : forall acc n,
  In n (add_external defined names acc) <->
  In n acc \/ (In n names /\ ~ In n defined).
Proof.
  induction names as [|x names IH]; intros acc n; simpl; [tauto|].
  rewrite IH.
  destruct (JsString.arr_includes defined x) eqn:D; simpl.
  - apply arr_includes_In in D. split; [tauto|].
    intros [H|[[<-|H] Hn]]; tauto.
  - apply arr_includes_not_In in D.
    destruct (JsString.arr_includes acc x) eqn:Ax.
    + apply arr_includes_In in Ax. split; [tauto|].
      intros [H|[[<-|H] Hn]]; tauto.
    + rewrite in_app_iff. simpl. split.
      * intros [[H|[<-|[]]]|H]; tauto.
      * intros [H|[[<-|H] Hn]]; tauto.
Qed.

Lemma add_external_NoDup defined names : forall acc,
  NoDup acc -> NoDup (add_external defined names acc).
Proof.
  induction names as [|x names IH]; intros acc H; simpl; [exact H|].
  apply IH.
  destruct (JsString.arr_includes defined x); simpl; [exact H|].
  destruct (JsString.arr_includes acc x) eqn:Ax; [exact H|].
  apply NoDup_snoc; [exact H|]. now apply arr_includes_not_In.
Qed.

Lemma collect_external_In defined cs : forall acc n,
  In n (collect_external defined cs acc) <->
  In n acc \/
  ((exists c, In c cs /\ (In n (extends c) \/ In n (implements c))) /\ ~ In n defined).
Proof.
  induction cs as [|c cs IH]; intros acc n; simpl.
  - split; [tauto|]. intros [H|[(c & [] & _) _]]. exact H.
  - rewrite IH, !add_external_In. split.
    + intros [[[H|[H D]]|[H D]]|[(c' & Hin & H) D]]; eauto 8.
    + intros [H|[(c' & [<-|Hin] & [H|H]) D]]; eauto 8.
Qed.

Lemma collect_external_NoDup defined cs : forall acc,
  NoDup acc -> NoDup (collect_external defined cs acc).
Proof.
  induction cs as [|c cs IH]; intros acc H; simpl; [exact H|].
  apply IH. now repeat apply add_external_NoDup.
Qed.

Lemma external_names_In cs n :
  In n (external_names cs) <->
  (exists c, In c cs /\ (In n (extends c) \/ In n (implements c))) /\
  ~ In n (map name cs).
Proof.
  unfold external_names. rewrite collect_external_In. simpl. tauto.
Qed.

Lemma external_names_NoDup cs : NoDup (external_names cs).
Proof. apply collect_external_NoDup. constructor. Qed.

Lemma add_stubs_eq ext : forall classes packages,
  add_stubs ext classes packages =
  ((classes ++ map stubClass ext)%list, push_stubs ext packages).
Proof.
  induction ext as [|n ext IH]; intros classes packages; simpl.
  - now rewrite app_nil_r.
  - rewrite IH, <- app_assoc. reflexivity.
Qed.

Lemma push_stubs_keys ext : forall packages,
  map fst (push_stubs ext packages) = map fst packages.
Proof.
  induction ext as [|n ext IH]; intros packages; simpl; [reflexivity|].
  unfold push_stubs in *. simpl. now rewrite IH, push_class_keys.
Qed.

Lemma push_stubs_In ext : forall packages k v',
  In (k, v') (push_stubs ext packages) ->
  exists v, In (k, v) packages /\
            pkg_id v' = pkg_id v /\ pkg_name v' = pkg_name v /\ pkg_path v' = pkg_path v /\
            pkg_classes v' =
              (if String.eqb k "external"
               then pkg_classes v ++ map (fun n => id (stubClass n)) ext
               else pkg_classes v)%list.
Proof.
  induction ext as [|n ext IH]; intros packages k v' Hin.
  - exists v'. simpl. rewrite app_nil_r. destruct (String.eqb k "external"); auto.
  - unfold push_stubs in Hin. simpl in Hin. apply IH in Hin as (v1 & Hin & E1 & E2 & E3 & E4).
    apply push_class_In in Hin as (v & Hin & F1 & F2 & F3 & F4).
    exists v. split; [exact Hin|].
    rewrite E1, E2, E3, E4, F1, F2, F3, F4.
    repeat split; try reflexivity.
    destruct (String.eqb k "external"); [|reflexivity].
    simpl. now rewrite <- app_assoc.
Qed.

Lemma unique_key (packages : PackageMap) (k : string) (v : PackageRecord) :
  NoDup (map fst packages) -> In (k, v) packages ->
  filter (fun kv => String.eqb (fst kv) k) packages = [(k, v)].
Proof.
  induction packages as [|[k0 v0] l IH]; intros Hnd Hin; [destruct Hin|].
  simpl in *. inversion Hnd as [|? ? Hk Hl]; subst.
  destruct Hin as [E|Hin].
  - inversion E; subst. rewrite String.eqb_refl. f_equal.
    clear IH Hnd. induction l as [|[k1 v1] l IHl]; [reflexivity|].
    simpl in *. destruct (String.eqb k1 k) eqn:E1.
    + apply String.eqb_eq in E1. subst. exfalso. apply Hk. auto.
    + apply IHl; [tauto|now inversion Hl].
  - destruct (String.eqb k0 k) eqn:E0.
    + apply String.eqb_eq in E0. subst. exfalso. apply Hk.
      apply in_map_iff. exists (k, v). auto.
    + now apply IH.
Qed.

Lemma filter_values (packages : PackageMap) (k : string) :
  (forall k' v, In (k', v) packages -> pkg_path v = k') ->
  filter (fun p => String.eqb (pkg_path p) k) (map_values packages) =
  map snd (filter (fun kv => String.eqb (fst kv) k) packages).
Proof.
  unfold map_values.
  induction packages as [|[k0 v0] l IH]; intros H; [reflexivity|].
  cbn [map filter fst snd]. rewrite (H k0 v0) by (simpl; auto).
  rewrite IH by (intros; apply H; simpl; auto).
  destruct (String.eqb k0 k); reflexivity.
Qed.

(** ** The two aggregation paths *)

Lemma filter_all_true {A : Type} (f : A -> bool) (l : list A) :
  (forall x, In x l -> f x = true) -> filter f l = l.
Proof.
  induction l as [|x l IH]; intros H; [reflexivity|].
  simpl. rewrite (H x) by (simpl; auto). f_equal. apply IH. intros; apply H; simpl; auto.
Qed.

Lemma filter_all_false {A : Type} (f : A -> bool) (l : list A) :
  (forall x, In x l -> f x = false) -> filter f l = [].
Proof.
  induction l as [|x l IH]; intros H; [reflexivity|].
  simpl. rewrite (H x) by (simpl; auto). apply IH. intros; apply H; simpl; auto.
Qed.

Section PipelineFacts.

Variable createSourceFile : string -> string -> node.
Variable random36 : nat -> string.
Variable getGitMetrics : string -> string -> GitMetrics.
Variable JSON_parse : string -> exn Manifest.
Variable now : string.

Abbreviation loop fs projectPath files :=
  (analyze_files createSourceFile random36 getGitMetrics fs projectPath files (mkLoop [] [] 0)).

Lemma generateUML_inv includePatterns excludePatterns fs projectPath projectName snap :
  generateUML createSourceFile random36 getGitMetrics JSON_parse now
    includePatterns excludePatterns fs projectPath projectName = Ok snap ->
  exists files,
    findSourceFiles fs projectPath includePatterns excludePatterns = Ok files /\
    classes snap =
      (l_classes (loop fs projectPath files) ++
       map stubClass (external_names (l_classes (loop fs projectPath files))))%list /\
    packages snap =
      map_values (final_packages (external_names (l_classes (loop fs projectPath files)))
                    (l_packages (loop fs projectPath files))).
Proof.
  unfold generateUML, bind.
  destruct (findSourceFiles fs projectPath includePatterns excludePatterns) as [files|];
    [|discriminate].
  intros H. exists files. split; [reflexivity|].
  fold (external_names (l_classes (loop fs projectPath files))) in H.
  destruct (external_names (l_classes (loop fs projectPath files))) as [|n ext] eqn:E.
  - simpl in H. inversion H; subst; clear H. simpl. now rewrite app_nil_r.
  - cbn [List.length Nat.ltb Nat.leb] in H. rewrite add_stubs_eq in H.
    inversion H; subst; clear H. simpl. split; reflexivity.
Qed.

Lemma generateUML_returns includePatterns excludePatterns fs projectPath projectName files :
  findSourceFiles fs projectPath includePatterns excludePatterns = Ok files ->
  exists snap,
    generateUML createSourceFile random36 getGitMetrics JSON_parse now
      includePatterns excludePatterns fs projectPath projectName = Ok snap.
Proof.
  unfold generateUML, bind. intros ->.
  match goal with
  | |- exists _, (let '(_, _) := ?X in _) = _ => destruct X
  end.
  eauto.
Qed.

Lemma runAnalysis_inv fs projectPath options snap :
  runAnalysis createSourceFile random36 getGitMetrics JSON_parse now fs projectPath options
    = Ok (Some snap) ->
  exists files,
    findSourceFiles fs projectPath (opt_includePatterns options) (opt_excludePatterns options)
      = Ok files /\
    files <> [] /\
    classes snap = l_classes (loop fs projectPath files) /\
    packages snap = map_values (l_packages (loop fs projectPath files)).
Proof.
  unfold runAnalysis, bind.
  destruct (findSourceFiles fs projectPath _ _) as [files|]; [|discriminate].
  destruct files as [|f files]; [discriminate|].
  cbn [List.length Nat.eqb]. rewrite tui_analyze_files_eq.
  intros H. inversion H; subst; clear H. exists (f :: files).
  repeat split; try reflexivity. discriminate.
Qed.

Lemma loop_real fs projectPath files c :
  In c (l_classes (loop fs projectPath files)) -> isExternal c = false.
Proof.
  pose proof (run_inv createSourceFile random36 getGitMetrics fs projectPath files _
                (init_inv random36)) as (H & _).
  apply H.
Qed.

Lemma filter_real_app (cs : list ClassRecord) (ext : list string) :
  (forall c, In c cs -> isExternal c = false) ->
  filter is_real (cs ++ map stubClass ext) = cs /\
  filter isExternal (cs ++ map stubClass ext) = map stubClass ext.
Proof.
  intros H. rewrite !filter_app.
  rewrite (filter_all_true is_real cs)
    by (intros c Hc; unfold is_real; now rewrite (H c Hc)).
  rewrite (filter_all_false isExternal cs) by exact H.
  rewrite (filter_all_false is_real (map stubClass ext))
    by (intros c Hc; apply in_map_iff in Hc as (n & <- & _); reflexivity).
  rewrite (filter_all_true isExternal (map stubClass ext))
    by (intros c Hc; apply in_map_iff in Hc as (n & <- & _); reflexivity).
  now rewrite app_nil_r.
Qed.

End PipelineFacts.

(** ** Stub names *)

(** C7. Every stub record in the output of [generateUML] is named
    differently from every record that is not a stub; a stub is made only
    for a name that some analyzed record extends or implements and that no
    analyzed record bears. *)
Theorem stub_names_differ_from_record_names
  (createSourceFile : string -> string -> node) (random36 : nat -> string)
  (getGitMetrics : string -> string -> GitMetrics) (JSON_parse : string -> exn Manifest)
  (now : string) (includePatterns excludePatterns : list string)
  (fs : FileSystem) (projectPath projectName : string)
  (snap : Snapshot) (stub record : ClassRecord) :
  generateUML createSourceFile random36 getGitMetrics JSON_parse now
    includePatterns excludePatterns fs projectPath projectName = Ok snap ->
  In stub (classes snap) -> isExternal stub = true ->
  In record (classes snap) -> isExternal record = false ->
  name stub <> name record /\
  exists r, In r (classes snap) /\ isExternal r = false /\
            (In (name stub) (extends r) \/ In (name stub) (implements r)).
Proof.
  intros G Hs Es Hr Er.
  apply generateUML_inv in G as (files & _ & Hc & _).
  rewrite Hc in *. clear Hc.
  set (cs := l_classes _) in *.
  assert (Hreal : forall c, In c cs -> isExternal c = false)
    by (intros c; apply loop_real).
  apply in_app_or in Hs as [Hs|Hs]; [rewrite (Hreal _ Hs) in Es; discriminate|].
  apply in_app_or in Hr as [Hr|Hr];
    [|apply in_map_iff in Hr as (n & <- & _); discriminate].
  apply in_map_iff in Hs as (n & <- & Hn).
  apply external_names_In in Hn as [(c & Hin & Href) Hdef].
  cbn [name stubClass]. split.
  - intros E. apply Hdef. rewrite E. now apply in_map.
  - exists c. split; [apply in_or_app; left; exact Hin|]. split; [now apply Hreal|exact Href].
Qed.

Lemma stub_names_differ_from_record_names_witness :
  name (stubClass "B") <>
  name (record_of (sample_analyze fs_scenario "/proj/src/A.ts")) /\
  exists r,
    In r (classes (snapshot_of (sample_run defaultIncludePatterns defaultExcludePatterns
                                  fs_scenario))) /\
    isExternal r = false /\
    (In (name (stubClass "B")) (extends r) \/ In (name (stubClass "B")) (implements r)).
Proof.
  apply (stub_names_differ_from_record_names sample_parser sample_random no_git no_manifest
           "2024-01-01T00:00:00.000Z" defaultIncludePatterns defaultExcludePatterns
           fs_scenario "/proj" "proj"
           (snapshot_of (sample_run defaultIncludePatterns defaultExcludePatterns fs_scenario))
           (stubClass "B") (record_of (sample_analyze fs_scenario "/proj/src/A.ts"))).
  - vm_compute. reflexivity.
  - vm_compute. right. left. reflexivity.
  - reflexivity.
  - vm_compute. left. reflexivity.
  - reflexivity.
Defined.

(** ** The TUI path *)

Lemma substring_length_le (a b : nat) (s : string) :
  String.length (String.substring a b s) <= b.
Proof.
  revert a b. induction s as [|c s IH]; intros a b.
  - destruct a, b; simpl; lia.
  - destruct a as [|a]; simpl.
    + destruct b as [|b]; simpl; [lia|]. specialize (IH 0 b). lia.
    + apply IH.
Qed.

Lemma random_package_id (random36 : nat -> string) (n : nat) :
  "package_" ++ random_token random36 n <> "package_external".
Proof.
  intros E. simpl in E. inversion E as [E'].
  pose proof (substring_length_le 2 (9 - 2) (random36 n)) as L.
  unfold random_token, JsString.substring in E'. rewrite E' in L. simpl in L. lia.
Qed.

(** C10. [runAnalysis] of the TUI resolves no external references: its
    snapshot holds the records [analyzeFile] produced on the discovered
    files and nothing else, none of them external, and no synthesized
    "External Libraries" package; it agrees with the aggregation of
    [generateUML] exactly when no [extends] or [implements] name is
    unresolved. *)
Theorem runAnalysis_synthesizes_no_stub
  (createSourceFile : string -> string -> node) (random36 : nat -> string)
  (getGitMetrics : string -> string -> GitMetrics) (JSON_parse : string -> exn Manifest)
  (now : string) (fs : FileSystem) (projectPath : string) (options : Options)
  (snap : Snapshot) :
  runAnalysis createSourceFile random36 getGitMetrics JSON_parse now fs projectPath options
    = Ok (Some snap) ->
  (exists files,
     findSourceFiles fs projectPath (opt_includePatterns options) (opt_excludePatterns options)
       = Ok files /\
     forall c, In c (classes snap) ->
       exists f n, In f files /\
         analyzeFile createSourceFile random36 getGitMetrics fs n f projectPath
           = Ok (c, S n)) /\
  (forall c, In c (classes snap) -> isExternal c = false) /\
  (forall p, In p (packages snap) ->
     pkg_id p <> "package_external" /\
     ~ (pkg_name p = "External Libraries" /\ pkg_path p = "external") /\
     exists c, In c (classes snap) /\ package c = pkg_path p) /\
  (forall projectName uml,
     generateUML createSourceFile random36 getGitMetrics JSON_parse now
       (opt_includePatterns options) (opt_excludePatterns options)
       fs projectPath projectName = Ok uml ->
     (classes uml = classes snap /\ packages uml = packages snap <->
      external_names (classes snap) = [])).
Proof.
  intros R. apply runAnalysis_inv in R as (files & F & _ & Hc & Hp).
  pose proof (run_inv createSourceFile random36 getGitMetrics fs projectPath files _
                (init_inv random36)) as (Hext & Hnd & Hwf & Hhas).
  rewrite Hc, Hp. split; [|split; [|split]].
  - exists files. split; [exact F|]. intros c Hin.
    apply run_classes_origin in Hin as [[]|H]. exact H.
  - exact Hext.
  - intros p Hin. unfold map_values in Hin.
    apply in_map_iff in Hin as ([k v] & <- & Hin). cbn [snd].
    destruct (Hwf k v Hin) as (Epath & Ename & (n & Eid)).
    split; [|split].
    + rewrite Eid. apply random_package_id.
    + intros [En Ep]. rewrite Ename, <- Epath, Ep in En.
      vm_compute in En. discriminate.
    + rewrite Epath. apply Hhas. apply map_has_In.
      apply in_map_iff. exists (k, v). auto.
  - intros projectName uml G.
    apply generateUML_inv in G as (files' & F' & Hc' & Hp').
    rewrite F in F'. inversion F'; subst files'. clear F'.
    rewrite Hc', Hp'. split.
    + intros [E _].
      apply (f_equal (@List.length ClassRecord)) in E.
      rewrite length_app, length_map in E.
      destruct (external_names _); [reflexivity|simpl in E; lia].
    + intros ->. simpl. now rewrite app_nil_r.
Qed.

Lemma runAnalysis_synthesizes_no_stub_witness :
  sample_tui fs_scenario = Ok (Some (tui_snapshot_of (sample_tui fs_scenario))) /\
  (forall c, In c (classes (tui_snapshot_of (sample_tui fs_scenario))) ->
             isExternal c = false).
Proof.
  assert (H : sample_tui fs_scenario = Ok (Some (tui_snapshot_of (sample_tui fs_scenario))))
    by (vm_compute; reflexivity).
  split; [exact H|].
  exact (proj1 (proj2
    (runAnalysis_synthesizes_no_stub sample_parser sample_random no_git no_manifest
       "2024-01-01T00:00:00.000Z" fs_scenario "/proj"
       (mkOptions defaultIncludePatterns defaultExcludePatterns)
       (tui_snapshot_of (sample_tui fs_scenario)) H))).
Defined.

(** ** Files that cannot be analyzed *)

(** C3, as stated, fails: a file with malformed syntax is not skipped.  The
    parser returns a tree for it, the regular expressions find no name, and
    the file gets a record named after the file. *)
Lemma malformed_file_yields_a_record :
  exists snap,
    sample_run defaultIncludePatterns defaultExcludePatterns fs_malformed = Ok snap /\
    List.length (classes snap) = 3 /\
    map name (classes snap) = ["a"; "b"; "broken"].
Proof.
  eexists. split; [vm_compute; reflexivity|]. split; reflexivity.
Qed.

(** C3, amended. [generateUML] never fails on account of one file: a file
    whose analysis raises is skipped and the loop goes on, so the records
    that are not stubs are one per file whose analysis returns.  The
    analysis of a file raises when the file cannot be read or when the walk
    of its syntax tree raises, and in no other case. *)
Theorem files_that_raise_are_skipped
  (createSourceFile : string -> string -> node) (random36 : nat -> string)
  (getGitMetrics : string -> string -> GitMetrics) (JSON_parse : string -> exn Manifest)
  (now : string) (includePatterns excludePatterns : list string)
  (fs : FileSystem) (projectPath projectName : string) (files : list string) :
  findSourceFiles fs projectPath includePatterns excludePatterns = Ok files ->
  exists snap,
    generateUML createSourceFile random36 getGitMetrics JSON_parse now
      includePatterns excludePatterns fs projectPath projectName = Ok snap /\
    List.length (filter is_real (classes snap)) =
    List.length
      (filter (fun f => returns (analyzeFile createSourceFile random36 getGitMetrics
                                   fs 0 f projectPath)) files) /\
    (forall f rng,
       returns (analyzeFile createSourceFile random36 getGitMetrics fs rng f projectPath) =
       match readFileSync fs f with
       | Ok content => returns (parseWithTypeScript createSourceFile f content)
       | Throw _ => false
       end).
Proof.
  intros F.
  destruct (generateUML_returns createSourceFile random36 getGitMetrics JSON_parse now
              includePatterns excludePatterns fs projectPath projectName files F)
    as (snap & G).
  exists snap. split; [exact G|].
  apply generateUML_inv in G as (files' & F' & Hc & _).
  rewrite F in F'. inversion F'; subst files'. clear F'.
  split.
  - rewrite Hc.
    rewrite (proj1 (filter_real_app _ _ (loop_real createSourceFile random36 getGitMetrics
                                           fs projectPath files))).
    rewrite run_classes_length. simpl.
    f_equal. apply filter_ext. intros f. symmetry. apply analyzeFile_returns.
  - intros f rng. apply analyzeFile_returns.
Qed.

Lemma files_that_raise_are_skipped_witness :
  exists snap,
    sample_run defaultIncludePatterns defaultExcludePatterns fs_unreadable_file = Ok snap /\
    List.length (filter is_real (classes snap)) =
    List.length
      (filter (fun f => returns (sample_analyze fs_unreadable_file f))
         ["/proj/src/a.ts"; "/proj/src/b.ts"; "/proj/src/locked.ts"]) /\
    (forall f rng,
       returns (analyzeFile sample_parser sample_random no_git fs_unreadable_file rng f "/proj") =
       match readFileSync fs_unreadable_file f with
       | Ok content => returns (parseWithTypeScript sample_parser f content)
       | Throw _ => false
       end).
Proof.
  apply (files_that_raise_are_skipped sample_parser sample_random no_git no_manifest
           "2024-01-01T00:00:00.000Z" defaultIncludePatterns defaultExcludePatterns
           fs_unreadable_file "/proj" "proj"
           ["/proj/src/a.ts"; "/proj/src/b.ts"; "/proj/src/locked.ts"]).
  vm_compute. reflexivity.
Defined.

(** ** Stubs and their package *)

(** C6, as stated, fails: in a project with a top-level directory named
    [external] the stubs join the package of that directory, and no package
    is named "External Libraries". *)
Lemma stubs_join_an_existing_external_package :
  exists snap,
    sample_run [] defaultExcludePatterns fs_external_dir = Ok snap /\
    map name (filter isExternal (classes snap)) = ["Y"] /\
    map pkg_name (packages snap) = ["external"] /\
    map pkg_path (packages snap) = ["external"].
Proof.
  eexists. split; [vm_compute; reflexivity|]. repeat split; reflexivity.
Qed.

Section StubFacts.

Variable createSourceFile : string -> string -> node.
Variable random36 : nat -> string.
Variable getGitMetrics : string -> string -> GitMetrics.
Variable JSON_parse : string -> exn Manifest.
Variable now : string.

Lemma with_external_package_facts (packages : PackageMap) :
  NoDup (map fst packages) ->
  (forall k v, In (k, v) packages -> pkg_path v = k /\ pkg_name v = package_name k) ->
  NoDup (map fst (with_external_package packages)) /\
  (forall k v, In (k, v) (with_external_package packages) -> pkg_path v = k) /\
  (exists v, In ("external", v) (with_external_package packages)) /\
  (forall v, In ("external", v) (with_external_package packages) ->
     if map_has packages "external"
     then pkg_name v = "external"
     else v = mkPackage "package_external" "External Libraries" "external" []).
Proof.
  intros Hnd Hwf. unfold with_external_package.
  destruct (map_has packages "external") eqn:Hk; cbn [negb].
  - split; [exact Hnd|]. split; [intros k v Hin; now apply Hwf|]. split.
    + apply map_has_In, in_map_iff in Hk as ([k v] & E & Hin). simpl in E. subst k. eauto.
    + intros v Hin. destruct (Hwf _ _ Hin) as [_ E]. rewrite E. reflexivity.
  - rewrite map_set_fresh by exact Hk. split; [|split; [|split]].
    + rewrite map_app. simpl. apply NoDup_snoc; [exact Hnd|].
      intros Hin. apply map_has_In in Hin. congruence.
    + intros k v Hin. apply in_app_or in Hin as [Hin|[E|[]]]; [now apply Hwf|].
      inversion E; subst. reflexivity.
    + eexists. apply in_or_app. right. left. reflexivity.
    + intros v Hin. apply in_app_or in Hin as [Hin|[E|[]]].
      * exfalso. assert (map_has packages "external" = true); [|congruence].
        apply map_has_In, in_map_iff. exists ("external", v). auto.
      * now inversion E.
Qed.

Lemma stub_fields (s : ClassRecord) (ext : list string) :
  In s (map stubClass ext) ->
  methods s = [] /\ fields s = [] /\ dependencies s = [] /\
  extends s = [] /\ implements s = [] /\
  lines (metrics s) = 75 /\ linesOfCode (complexityMetrics s) = 75 /\
  threatLevel (complexityMetrics s) = "EXTERNAL" /\ package s = "external".
Proof.
  intros H. apply in_map_iff in H as (n & <- & _). repeat split; reflexivity.
Qed.

Lemma stubs_general includePatterns excludePatterns fs projectPath projectName snap :
  generateUML createSourceFile random36 getGitMetrics JSON_parse now
    includePatterns excludePatterns fs projectPath projectName = Ok snap ->
  (forall n,
     (exists r, In r (classes snap) /\ isExternal r = false /\
                (In n (extends r) \/ In n (implements r))) ->
     (forall r, In r (classes snap) -> isExternal r = false -> name r <> n) ->
     count_occ string_dec (map name (filter isExternal (classes snap))) n = 1) /\
  (forall s, In s (classes snap) -> isExternal s = true ->
     methods s = [] /\ fields s = [] /\ dependencies s = [] /\
     extends s = [] /\ implements s = [] /\
     lines (metrics s) = 75 /\ linesOfCode (complexityMetrics s) = 75 /\
     threatLevel (complexityMetrics s) = "EXTERNAL" /\ package s = "external") /\
  (filter isExternal (classes snap) <> [] ->
   exists p,
     filter in_external_package (packages snap) = [p] /\
     (forall s, In s (classes snap) -> isExternal s = true -> In (id s) (pkg_classes p)) /\
     ((forall r, In r (classes snap) -> isExternal r = false -> package r <> "external") ->
      p = mkPackage "package_external" "External Libraries" "external"
            (map id (filter isExternal (classes snap)))) /\
     ((exists r, In r (classes snap) /\ isExternal r = false /\ package r = "external") ->
      pkg_name p = "external")).
Proof.
  intros G. apply generateUML_inv in G as (files & _ & Hc & Hp).
  pose proof (run_inv createSourceFile random36 getGitMetrics fs projectPath files _
                (init_inv random36)) as (Hext & Hnd & Hwf & Hhas).
  set (st := analyze_files _ _ _ _ _ _ _) in *.
  set (cs := l_classes st) in *. set (pk := l_packages st) in *.
  set (ext := external_names cs) in *.
  destruct (filter_real_app cs ext Hext) as [Freal Fstub].
  assert (Hin_real : forall r, In r (classes snap) -> isExternal r = false -> In r cs).
  { intros r Hr Er. rewrite Hc in Hr. apply in_app_or in Hr as [Hr|Hr]; [exact Hr|].
    apply in_map_iff in Hr as (n & <- & _). discriminate. }
  assert (Hin_stub : forall s, In s (classes snap) -> isExternal s = true ->
                               In s (map stubClass ext)).
  { intros s Hs Es. rewrite Hc in Hs. apply in_app_or in Hs as [Hs|Hs]; [|exact Hs].
    rewrite (Hext _ Hs) in Es. discriminate. }
  assert (Hnames : map name (map stubClass ext) = ext).
  { rewrite map_map. simpl. apply map_id. }
  split; [|split].
  - intros n (r & Hr & Er & Href) Hdef.
    rewrite Hc, Fstub, Hnames.
    apply NoDup_count_occ'; [apply external_names_NoDup|].
    apply external_names_In. split.
    + exists r. split; [now apply Hin_real|exact Href].
    + intros Hn. apply in_map_iff in Hn as (r' & E & Hr').
      apply (Hdef r'); [rewrite Hc; apply in_or_app; auto|now apply Hext|exact E].
  - intros s Hs Es. apply (stub_fields s ext). now apply Hin_stub.
  - rewrite Hc at 1. rewrite Fstub. intros Hne.
    assert (Hfinal : final_packages ext pk = push_stubs ext (with_external_package pk)).
    { destruct ext; [now contradiction Hne|reflexivity]. }
    rewrite Hp, Hfinal.
    destruct (with_external_package_facts pk Hnd) as (Hnd1 & Hpath1 & (v1 & Hv1) & Hshape).
    { intros k v Hin. destruct (Hwf k v Hin) as (E1 & E2 & _). auto. }
    assert (Hkey : In "external" (map fst (push_stubs ext (with_external_package pk)))).
    { rewrite push_stubs_keys. apply in_map_iff. exists ("external", v1). auto. }
    apply in_map_iff in Hkey as ([k p] & Ek & Hinp). simpl in Ek. subst k.
    exists p.
    destruct (push_stubs_In _ _ _ _ Hinp) as (v & Hv & E1 & E2 & E3 & E4).
    rewrite String.eqb_refl in E4.
    split; [|split; [|split]].
    + unfold in_external_package. rewrite filter_values.
      * rewrite (unique_key _ "external" p); [reflexivity| |exact Hinp].
        now rewrite push_stubs_keys.
      * intros k' v' Hin'. apply push_stubs_In in Hin' as (v0 & Hv0 & _ & _ & F3 & _).
        rewrite F3. now apply Hpath1.
    + intros s Hs Es. apply Hin_stub in Hs; [|exact Es].
      apply in_map_iff in Hs as (n & <- & Hn).
      rewrite E4. apply in_or_app. right.
      apply in_map_iff. exists n. auto.
    + intros Hno. specialize (Hshape v Hv).
      destruct (map_has pk "external") eqn:Hk.
      * apply Hhas in Hk as (c & Hcin & Ec). exfalso.
        apply (Hno c); [rewrite Hc; apply in_or_app; auto|now apply Hext|exact Ec].
      * subst v. simpl in E1, E2, E3, E4.
        rewrite Hc, Fstub, map_map.
        destruct p as [pid pname ppath pclasses]. simpl in *. congruence.
    + intros (r & Hr & Er & Ep). specialize (Hshape v Hv).
      assert (Hk : map_has pk "external" = true).
      { apply Hhas. exists r. split; [now apply Hin_real|exact Ep]. }
      rewrite Hk in Hshape. congruence.
Qed.

End StubFacts.

Lemma stub_scenario
  (createSourceFile : string -> string -> node) (random36 : nat -> string)
  (getGitMetrics : string -> string -> GitMetrics) (JSON_parse : string -> exn Manifest)
  (now projectName : string) :
  createSourceFile "/proj/src/A.ts" "export class A extends B {}" = class_tree "A" "B" ->
  exists snap a p,
    generateUML createSourceFile random36 getGitMetrics JSON_parse now
      defaultIncludePatterns defaultExcludePatterns fs_scenario "/proj" projectName
      = Ok snap /\
    classes snap = [a; stubClass "B"] /\
    name a = "A" /\ extends a = ["B"] /\ isExternal a = false /\
    packages snap =
      [p; mkPackage "package_external" "External Libraries" "external" ["external_b"]] /\
    pkg_name p = "src" /\ pkg_path p = "src" /\ pkg_classes p = [id a].
Proof.
  intros H. unfold generateUML.
  replace (findSourceFiles fs_scenario "/proj" defaultIncludePatterns defaultExcludePatterns)
    with (Ok ["/proj/src/A.ts"]) by (vm_compute; reflexivity).
  cbn [bind analyze_files l_rng]. unfold analyzeFile.
  replace (readFileSync fs_scenario "/proj/src/A.ts")
    with (Ok "export class A extends B {}") by (vm_compute; reflexivity).
  cbn [bind]. unfold parseWithTypeScript. rewrite H.
  vm_compute.
  do 3 eexists. split; [reflexivity|]. repeat split; reflexivity.
Qed.

(** C6, amended. For every name that an analyzed record extends or
    implements and that no analyzed record bears, [generateUML] makes
    exactly one stub record: external, without methods, fields,
    dependencies, parents or interfaces, 75 lines high, of threat level
    "EXTERNAL", in package "external".  The ids of all stubs go to the one
    package whose path is "external": when no analyzed record lies in a
    package of that path the package is made for them, with the name
    "External Libraries"; when an analyzed record does, the stubs join its
    package, which keeps the name "external".  With [src/A.ts] holding
    [export class A extends B {}] alone, the output has the record [A] with
    parent [B], the stub [B], and the two packages of [src] and of the
    stubs. *)
Theorem stubs_for_unresolved_names
  (createSourceFile : string -> string -> node) (random36 : nat -> string)
  (getGitMetrics : string -> string -> GitMetrics) (JSON_parse : string -> exn Manifest)
  (now : string) :
  (forall includePatterns excludePatterns fs projectPath projectName snap,
     generateUML createSourceFile random36 getGitMetrics JSON_parse now
       includePatterns excludePatterns fs projectPath projectName = Ok snap ->
     (forall n,
        (exists r, In r (classes snap) /\ isExternal r = false /\
                   (In n (extends r) \/ In n (implements r))) ->
        (forall r, In r (classes snap) -> isExternal r = false -> name r <> n) ->
        count_occ string_dec (map name (filter isExternal (classes snap))) n = 1) /\
     (forall s, In s (classes snap) -> isExternal s = true ->
        methods s = [] /\ fields s = [] /\ dependencies s = [] /\
        extends s = [] /\ implements s = [] /\
        lines (metrics s) = 75 /\ linesOfCode (complexityMetrics s) = 75 /\
        threatLevel (complexityMetrics s) = "EXTERNAL" /\ package s = "external") /\
     (filter isExternal (classes snap) <> [] ->
      exists p,
        filter in_external_package (packages snap) = [p] /\
        (forall s, In s (classes snap) -> isExternal s = true -> In (id s) (pkg_classes p)) /\
        ((forall r, In r (classes snap) -> isExternal r = false -> package r <> "external") ->
         p = mkPackage "package_external" "External Libraries" "external"
               (map id (filter isExternal (classes snap)))) /\
        ((exists r, In r (classes snap) /\ isExternal r = false /\ package r = "external") ->
         pkg_name p = "external"))) /\
  (forall projectName,
     createSourceFile "/proj/src/A.ts" "export class A extends B {}" = class_tree "A" "B" ->
     exists snap a p,
       generateUML createSourceFile random36 getGitMetrics JSON_parse now
         defaultIncludePatterns defaultExcludePatterns fs_scenario "/proj" projectName
         = Ok snap /\
       classes snap = [a; stubClass "B"] /\
       name a = "A" /\ extends a = ["B"] /\ isExternal a = false /\
       packages snap =
         [p; mkPackage "package_external" "External Libraries" "external" ["external_b"]] /\
       pkg_name p = "src" /\ pkg_path p = "src" /\ pkg_classes p = [id a]).
Proof.
  split.
  - intros. eapply stubs_general; eassumption.
  - intros. now apply stub_scenario.
Qed.

Lemma stubs_for_unresolved_names_witness :
  count_occ string_dec
    (map name
       (filter isExternal
          (classes (snapshot_of (sample_run defaultIncludePatterns defaultExcludePatterns
                                   fs_scenario))))) "B" = 1 /\
  exists snap a p,
    sample_run defaultIncludePatterns defaultExcludePatterns fs_scenario = Ok snap /\
    classes snap = [a; stubClass "B"] /\
    name a = "A" /\ extends a = ["B"] /\ isExternal a = false /\
    packages snap =
      [p; mkPackage "package_external" "External Libraries" "external" ["external_b"]] /\
    pkg_name p = "src" /\ pkg_path p = "src" /\ pkg_classes p = [id a].
Proof.
  pose proof (stubs_for_unresolved_names sample_parser sample_random no_git no_manifest
                "2024-01-01T00:00:00.000Z") as [General Scenario].
  split.
  - refine (proj1 (General defaultIncludePatterns defaultExcludePatterns fs_scenario
                     "/proj" "proj"
                     (snapshot_of (sample_run defaultIncludePatterns defaultExcludePatterns
                                     fs_scenario)) _) "B" _ _).
    + vm_compute. reflexivity.
    + exists (record_of (sample_analyze fs_scenario "/proj/src/A.ts")).
      vm_compute. auto.
    + intros r Hr Er. vm_compute in Hr.
      destruct Hr as [<-|[<-|[]]]; [discriminate|discriminate Er].
  - apply (Scenario "proj"). reflexivity.
Defined.

(** ** Unreadable directories *)

Section WalkFacts.

Variable wd : string.
Variable dir : string.
Variables includes excludes : list string.

Abbreviation walk1 := (walk_entry wd dir includes excludes).
Abbreviation walkN := (walk_entries wd dir includes excludes).

Lemma walk_entry_dir currentDir n readable es files :
  walk1 currentDir (Dir n readable es) files =
  if excluded wd dir excludes (Path.join currentDir n) then Ok files
  else if readable then walkN (Path.join currentDir n) es files
  else Throw "EACCES".
Proof.
  cbn [walk_entry entry_name]. unfold excluded.
  destruct (existsb _ excludes); [reflexivity|].
  destruct readable; [|reflexivity].
  revert files. induction es as [|e es IH]; intros files; [reflexivity|].
  cbn [walk_entries]. unfold bind.
  destruct (walk_entry wd dir includes excludes (Path.join currentDir n) e files);
    [apply IH|reflexivity].
Qed.

Lemma walk_entries_raise currentDir e es :
  In e es ->
  (forall files, returns (walk1 currentDir e files) = false) ->
  forall files, returns (walkN currentDir es files) = false.
Proof.
  induction es as [|e0 es IH]; intros Hin He files; [destruct Hin|].
  cbn [walk_entries]. unfold bind.
  destruct (walk1 currentDir e0 files) as [files'|] eqn:W; [|reflexivity].
  destruct Hin as [->|Hin].
  - specialize (He files). rewrite W in He. discriminate.
  - now apply IH.
Qed.

Lemma meets_unreadable_raises currentDir entries :
  meets_unreadable wd dir excludes currentDir entries ->
  forall files, returns (walkN currentDir entries files) = false.
Proof.
  induction 1 as [cur entries n es Hin Hex|cur entries n es Hin Hex _ IH]; intros files.
  - apply (walk_entries_raise cur (Dir n false es)); [exact Hin|].
    intros fl. rewrite walk_entry_dir, Hex. reflexivity.
  - apply (walk_entries_raise cur (Dir n true es)); [exact Hin|].
    intros fl. rewrite walk_entry_dir, Hex. apply IH.
Qed.

End WalkFacts.

(** C2, as stated, fails: a directory that cannot be read and is not
    excluded makes [findSourceFiles] raise; its caller gets no file list. *)
Lemma unreadable_directory_is_fatal :
  meets_unreadable "/home" "/proj" defaultExcludePatterns "/proj"
    [Dir "src" true [File "a.ts" (Some "export const a = 1;")]; Dir "secret" false []] /\
  findSourceFiles fs_unreadable_dir "/proj" defaultIncludePatterns defaultExcludePatterns
    = Throw "EACCES" /\
  sample_run defaultIncludePatterns defaultExcludePatterns fs_unreadable_dir
    = Throw "EACCES".
Proof.
  split; [|split; reflexivity].
  apply (meets_here _ _ _ _ _ "secret" []); [simpl; auto|reflexivity].
Qed.

(** C2, amended. When the walk of [findSourceFiles] comes to a directory
    that cannot be read, be it the root or a directory below it that no
    exclude pattern covers, the read error propagates: [findSourceFiles]
    raises, and so do [generateUML] and [runAnalysis], which return no
    snapshot.  Only an excluded directory is left unread: it contributes no
    entries and cannot fail. *)
Theorem unreadable_directory_raises
  (fs : FileSystem) (dir : string) (includes excludes : list string)
  (n : string) (readable : bool) (entries : list entry) :
  lookup fs dir = Some (Dir n readable entries) ->
  readable = false \/ meets_unreadable (cwd fs) dir excludes dir entries ->
  returns (findSourceFiles fs dir includes excludes) = false /\
  (forall createSourceFile random36 getGitMetrics JSON_parse now projectName,
     returns (generateUML createSourceFile random36 getGitMetrics JSON_parse now
                includes excludes fs dir projectName) = false /\
     returns (runAnalysis createSourceFile random36 getGitMetrics JSON_parse now
                fs dir (mkOptions includes excludes)) = false) /\
  (forall currentDir e files,
     excluded (cwd fs) dir excludes (Path.join currentDir (entry_name e)) = true ->
     walk_entry (cwd fs) dir includes excludes currentDir e files = Ok files).
Proof.
  intros L H.
  assert (F : returns (findSourceFiles fs dir includes excludes) = false).
  { unfold findSourceFiles, walk. rewrite L.
    destruct readable.
    - destruct H as [H|H]; [discriminate|]. now apply meets_unreadable_raises.
    - reflexivity. }
  split; [exact F|]. split.
  - intros. unfold generateUML, runAnalysis, bind. cbn [opt_includePatterns opt_excludePatterns].
    destruct (findSourceFiles fs dir includes excludes); [discriminate|]. auto.
  - intros currentDir e files Hex. unfold excluded in Hex.
    destruct e; cbn [walk_entry entry_name] in *; rewrite Hex; reflexivity.
Qed.

Lemma unreadable_directory_raises_witness :
  returns (findSourceFiles fs_unreadable_dir "/proj" defaultIncludePatterns
             defaultExcludePatterns) = false.
Proof.
  refine (proj1 (unreadable_directory_raises fs_unreadable_dir "/proj"
                   defaultIncludePatterns defaultExcludePatterns "proj" true
                   [Dir "src" true [File "a.ts" (Some "export const a = 1;")];
                    Dir "secret" false []] _ _)).
  - reflexivity.
  - right. apply (meets_here _ _ _ _ _ "secret" []); [simpl; auto|reflexivity].
Defined.

(** ** Files in the project root *)

Lemma dirname_loop_positive path : forall i matched e,
  Path.dirname_loop path i matched = Some e -> 0 < e.
Proof.
  induction i as [|i IH]; intros matched e; simpl; [discriminate|].
  destruct (String.get (S i) path) as [c|]; [|discriminate].
  destruct (Path.is_slash c).
  - destruct matched; [apply IH|]. intros H; inversion H. lia.
  - apply IH.
Qed.

Lemma substring_nonempty (n : nat) (s : string) :
  0 < n -> 0 < String.length s -> String.substring 0 n s <> "".
Proof. destruct n, s; simpl; try lia. discriminate. Qed.

Lemma dirname_never_empty path : Path.dirname path <> "".
Proof.
  unfold Path.dirname.
  destruct (String.length path =? 0) eqn:L; [discriminate|].
  apply Nat.eqb_neq in L.
  destruct (Path.dirname_loop path (String.length path - 1) true) as [e|] eqn:D.
  - destruct (_ && _); [discriminate|].
    apply dirname_loop_positive in D. unfold JsString.slice.
    apply substring_nonempty; lia.
  - destruct (match String.get 0 path with Some c => Path.is_slash c | None => false end);
      discriminate.
Qed.

(** C1 (the code departs from it). [path.dirname] never returns the empty
    string, so the fallback to "root" is never taken: the package of a
    record is the directory name itself, and for a file directly in the
    project root that is ".", for the record and for its package. *)
Theorem root_file_package_is_dot
  (random36 : nat -> string) (getGitMetrics : string -> string -> GitMetrics)
  (JSON_parse : string -> exn Manifest) (now : string) :
  (forall path, Path.dirname path <> "") /\
  (forall fs projectRoot filePath,
     package_of fs projectRoot filePath =
     Path.dirname (Path.relative (cwd fs) projectRoot filePath)) /\
  (exists r n,
     analyzeFile sample_parser random36 getGitMetrics fs_root_file 0 "/proj/index.js" "/proj"
       = Ok (r, n) /\
     filePath r = "index.js" /\ package r = "." /\ package r <> "root") /\
  (exists snap p,
     generateUML sample_parser random36 getGitMetrics JSON_parse now
       [] defaultExcludePatterns fs_root_file "/proj" "proj" = Ok snap /\
     packages snap = [p] /\ pkg_name p = "." /\ pkg_path p = ".").
Proof.
  split; [exact dirname_never_empty|]. split; [|split].
  - intros fs projectRoot filePath. unfold package_of.
    destruct (String.eqb _ "") eqn:E; [|reflexivity].
    apply String.eqb_eq in E. now apply dirname_never_empty in E.
  - vm_compute. do 2 eexists. split; [reflexivity|]. repeat split. discriminate.
  - vm_compute. do 2 eexists. split; [reflexivity|]. repeat split.
Qed.

(** ** Test files *)

(** C4 (the code departs from it). The path probed for the test file is the
    source path with [.ts] replaced by [.testts], not by [.test.ts]: a file
    with its test next to it reports no test, and a [.mjs] file, whose path
    the replacement leaves as it is, reports one without having any. *)
Theorem test_file_probe_misses_the_sibling
  (random36 : nat -> string) (getGitMetrics : string -> string -> GitMetrics) :
  test_file_path "/proj/src/X.ts" = "/proj/src/X.testts" /\
  test_file_path "/proj/src/lonely.mjs" = "/proj/src/lonely.mjs" /\
  existsSync fs_tests "/proj/src/X.test.ts" = true /\
  existsSync fs_tests "/proj/src/lonely.test.mjs" = false /\
  (exists r n,
     analyzeFile sample_parser random36 getGitMetrics fs_tests 0 "/proj/src/X.ts" "/proj"
       = Ok (r, n) /\
     testMetrics r = Some (mkTestMetrics false 0)) /\
  (exists r n,
     analyzeFile sample_parser random36 getGitMetrics fs_tests 0 "/proj/src/lonely.mjs" "/proj"
       = Ok (r, n) /\
     testMetrics r = Some (mkTestMetrics true 0)).
Proof.
  split; [reflexivity|]. split; [reflexivity|]. split; [reflexivity|]. split; [reflexivity|].
  split; vm_compute; do 2 eexists; split; reflexivity.
Qed.

(** ** Record ids *)

(** C5 (the code departs from it). The id of a stub is its name in lower
    case with dots replaced: the stubs of [Foo] and [foo] both get the id
    [external_foo], whatever [Math.random] draws. *)
Theorem stub_ids_clash
  (random36 : nat -> string) (getGitMetrics : string -> string -> GitMetrics)
  (JSON_parse : string -> exn Manifest) (now : string) :
  exists snap,
    generateUML sample_parser random36 getGitMetrics JSON_parse now
      defaultIncludePatterns defaultExcludePatterns fs_case_clash "/proj" "proj" = Ok snap /\
    map name (filter isExternal (classes snap)) = ["Foo"; "foo"] /\
    map id (filter isExternal (classes snap)) = ["external_foo"; "external_foo"] /\
    ~ NoDup (map id (classes snap)).
Proof.
  vm_compute. eexists. split; [reflexivity|]. split; [reflexivity|]. split; [reflexivity|].
  intros H.
  inversion H as [|? ? _ H1]; subst. inversion H1 as [|? ? _ H2]; subst.
  inversion H2 as [|? ? H3 _]; subst. apply H3. left. reflexivity.
Qed.

(** ** Dependencies *)

(** C9. The scan for import edges misses local imports: a type-only
    import ([import type { Shape } from './shapes']) and an import of a
    default and a namespace binding ([import tools, * as geo from
    './geometry']) leave nothing in the dependency list, while the same
    specifiers are found after [import { Shape }] and after
    [import tools, { geo }].  The record of a file that holds the two
    missed imports and a plain one lists the plain one alone. *)
Theorem type_and_namespace_imports_are_missed :
  extract_dependencies "import { Shape } from './shapes';" = ["shapes"] /\
  extract_dependencies "import type { Shape } from './shapes';" = [] /\
  extract_dependencies "import tools, { geo } from './geometry';" = ["geometry"] /\
  extract_dependencies "import tools, * as geo from './geometry';" = [] /\
  readFileSync fs_type_import "/proj/src/app.ts" =
    Ok "import type { Shape } from './shapes';
import tools, * as geo from './geometry';
import { area } from './area';
" /\
  dependencies (record_of (sample_analyze fs_type_import "/proj/src/app.ts")) = ["area"].
Proof.
  split; [vm_compute; reflexivity|].
  split; [vm_compute; reflexivity|].
  split; [vm_compute; reflexivity|].
  split; [vm_compute; reflexivity|].
  split; vm_compute; reflexivity.
Qed.

(** * Further properties of the code *)

(** ** File discovery *)

Lemma entry_nested_ind (P : entry -> Prop) :
  (forall n c, P (File n c)) ->
  (forall n r es, Forall P es -> P (Dir n r es)) ->
  (forall n, P (Special n)) ->
  forall e, P e.
Proof.
  intros HF HD HS. fix IH 1. intros [n c|n r es|n].
  - apply HF.
  - apply HD. induction es as [|e es IHes]; constructor; [apply IH|exact IHes].
  - apply HS.
Qed.

Section DiscoveryFacts.

Variable wd : string.
Variable dir : string.
Variables includes excludes : list string.

Abbreviation found := (finds wd dir includes excludes).
Abbreviation visit1 := (walk_entry wd dir includes excludes).
Abbreviation visitN := (walk_entries wd dir includes excludes).

Lemma finds_cons cur e es f :
  found cur (e :: es) f <-> found cur [e] f \/ found cur es f.
Proof.
  split.
  - intros H. inversion H as [? ? n c Hin Hex Hext Hinc|? ? n es' ? Hin Hex Hsub]; subst.
    + destruct Hin as [->|Hin].
      * left. apply (finds_here _ _ _ _ _ _ n c); simpl; auto.
      * right. apply (finds_here _ _ _ _ _ _ n c); auto.
    + destruct Hin as [->|Hin].
      * left. apply (finds_below _ _ _ _ _ _ n es'); simpl; auto.
      * right. apply (finds_below _ _ _ _ _ _ n es'); auto.
  - intros [H|H].
    + inversion H as [? ? n c Hin Hex Hext Hinc|? ? n es' ? Hin Hex Hsub]; subst.
      * destruct Hin as [->|[]]. apply (finds_here _ _ _ _ _ _ n c); simpl; auto.
      * destruct Hin as [->|[]]. apply (finds_below _ _ _ _ _ _ n es'); simpl; auto.
    + inversion H as [? ? n c Hin Hex Hext Hinc|? ? n es' ? Hin Hex Hsub]; subst.
      * apply (finds_here _ _ _ _ _ _ n c); simpl; auto.
      * apply (finds_below _ _ _ _ _ _ n es'); simpl; auto.
Qed.

Lemma finds_nil cur f : ~ found cur [] f.
Proof. intros H. inversion H; subst; contradiction. Qed.

Abbreviation entry_spec := (walk_adds wd dir includes excludes).
Abbreviation entry_raises := (walk_raises_at wd dir includes excludes).

Lemma entries_spec es :
  Forall entry_spec es ->
  forall cur files files',
    visitN cur es files = Ok files' ->
    exists new, files' = (files ++ new)%list /\ forall f, In f new <-> found cur es f.
Proof.
  induction 1 as [|e es He _ IH]; intros cur files files' W; cbn [walk_entries] in W.
  - inversion W; subst. exists []. rewrite app_nil_r. split; [reflexivity|].
    intros f. split; [intros []|apply finds_nil].
  - unfold bind in W.
    destruct (visit1 cur e files) as [files1|] eqn:W1; [|discriminate].
    destruct (He _ _ _ W1) as (new1 & -> & H1).
    destruct (IH _ _ _ W) as (new2 & -> & H2).
    exists (new1 ++ new2)%list. rewrite app_assoc. split; [reflexivity|].
    intros f. rewrite in_app_iff, finds_cons, H1, H2. tauto.
Qed.

Lemma entry_spec_all : forall e, entry_spec e.
Proof.
  induction e as [n c|n r es IH|n] using entry_nested_ind; intros cur files files' W.
  - cbn [walk_entry entry_name] in W.
    fold (excluded wd dir excludes (Path.join cur n)) in W.
    destruct (excluded wd dir excludes (Path.join cur n)) eqn:Hex.
    + inversion W; subst. exists []. rewrite app_nil_r. split; [reflexivity|].
      intros f. split; [intros []|].
      intros H. inversion H as [? ? n0 c0 Hin Hex0|? ? n0 es0 ? Hin]; subst;
        destruct Hin as [E|[]]; inversion E; subst. congruence.
    + destruct (JsString.arr_includes sourceExtensions (Path.extname n)) eqn:Hext.
      * destruct ((List.length includes =? 0) || existsb _ includes) eqn:Hinc.
        -- inversion W; subst. exists [Path.join cur n]. split; [reflexivity|].
           intros f. split.
           ++ intros [<-|[]]. apply (finds_here _ _ _ _ _ _ n c); simpl; auto.
           ++ intros H. inversion H as [? ? n0 c0 Hin|? ? n0 es0 ? Hin]; subst;
                destruct Hin as [E|[]]; inversion E; subst. simpl; auto.
        -- inversion W; subst. exists []. rewrite app_nil_r. split; [reflexivity|].
           intros f. split; [intros []|].
           intros H. inversion H as [? ? n0 c0 Hin Hex0 Hext0 Hinc0|? ? n0 es0 ? Hin]; subst;
             destruct Hin as [E|[]]; inversion E; subst. congruence.
      * inversion W; subst. exists []. rewrite app_nil_r. split; [reflexivity|].
        intros f. split; [intros []|].
        intros H. inversion H as [? ? n0 c0 Hin Hex0 Hext0 Hinc0|? ? n0 es0 ? Hin]; subst;
          destruct Hin as [E|[]]; inversion E; subst. congruence.
  - rewrite walk_entry_dir in W.
    destruct (excluded wd dir excludes (Path.join cur n)) eqn:Hex.
    + inversion W; subst. exists []. rewrite app_nil_r. split; [reflexivity|].
      intros f. split; [intros []|].
      intros H. inversion H as [? ? n0 c0 Hin|? ? n0 es0 ? Hin Hex0]; subst;
        destruct Hin as [E|[]]; inversion E; subst. congruence.
    + destruct r; [|discriminate].
      destruct (entries_spec es IH _ _ _ W) as (new & -> & Hnew).
      exists new. split; [reflexivity|]. intros f. rewrite Hnew. split.
      * intros H. apply (finds_below _ _ _ _ _ _ n es); simpl; auto.
      * intros H. inversion H as [? ? n0 c0 Hin|? ? n0 es0 ? Hin Hex0 Hsub]; subst;
          destruct Hin as [E|[]]; inversion E; subst. exact Hsub.
  - cbn [walk_entry entry_name] in W.
    destruct (existsb _ excludes); inversion W; subst;
      exists []; rewrite app_nil_r; (split; [reflexivity|]);
      intros f; (split; [intros []|]);
      intros H; inversion H as [? ? n0 c0 Hin|? ? n0 es0 ? Hin]; subst;
      destruct Hin as [E|[]]; inversion E.
Qed.

Lemma walk_entries_finds cur es files :
  visitN cur es [] = Ok files -> forall f, In f files <-> found cur es f.
Proof.
  intros W.
  destruct (entries_spec es (proj2 (Forall_forall _ _) (fun e _ => entry_spec_all e))
              _ _ _ W) as (new & -> & H).
  exact H.
Qed.

(** Every path the walk pushes passed the three tests of [walk]. *)
Lemma finds_filters cur es f :
  found cur es f ->
  excluded wd dir excludes f = false /\
  (List.length includes =? 0) ||
  existsb (fun pattern => JsString.startsWith (Path.relative wd dir f) pattern) includes
    = true /\
  exists currentDir name,
    f = Path.join currentDir name /\
    JsString.arr_includes sourceExtensions (Path.extname name) = true.
Proof.
  induction 1 as [cur es n c Hin Hex Hext Hinc|cur es n es' f Hin Hex _ IH].
  - split; [exact Hex|]. split; [exact Hinc|]. eauto.
  - exact IH.
Qed.

Lemma entries_raise es :
  Forall entry_raises es ->
  forall cur files,
    returns (visitN cur es files) = false -> meets_unreadable wd dir excludes cur es.
Proof.
  induction 1 as [|e es He _ IH]; intros cur files W; cbn [walk_entries] in W;
    [discriminate|].
  unfold bind in W.
  destruct (visit1 cur e files) as [files1|] eqn:W1.
  - specialize (IH _ _ W).
    inversion IH as [? ? n es' Hin Hex|? ? n es' Hin Hex Hsub]; subst.
    + apply (meets_here _ _ _ _ _ n es'); simpl; auto.
    + apply (meets_below _ _ _ _ _ n es'); simpl; auto.
  - assert (M : meets_unreadable wd dir excludes cur [e])
      by (apply (He cur files); now rewrite W1).
    inversion M as [? ? n es' Hin Hex|? ? n es' Hin Hex Hsub]; subst;
      destruct Hin as [->|[]].
    + apply (meets_here _ _ _ _ _ n es'); simpl; auto.
    + apply (meets_below _ _ _ _ _ n es'); simpl; auto.
Qed.

Lemma entry_raises_all : forall e, entry_raises e.
Proof.
  induction e as [n c|n r es IH|n] using entry_nested_ind; intros cur files W.
  - cbn [walk_entry entry_name] in W.
    destruct (existsb _ excludes); [discriminate|].
    destruct (JsString.arr_includes _ _); [|discriminate].
    destruct (_ || _); discriminate.
  - rewrite walk_entry_dir in W.
    destruct (excluded wd dir excludes (Path.join cur n)) eqn:Hex; [discriminate|].
    destruct r.
    + apply (meets_below _ _ _ _ _ n es); simpl; auto.
      now apply (entries_raise es IH _ files).
    + apply (meets_here _ _ _ _ _ n es); simpl; auto.
  - cbn [walk_entry entry_name] in W. destruct (existsb _ excludes); discriminate.
Qed.

Lemma walk_entries_raise_iff cur es files :
  returns (visitN cur es files) = false <-> meets_unreadable wd dir excludes cur es.
Proof.
  split.
  - apply entries_raise. apply Forall_forall. intros e _. apply entry_raises_all.
  - intros M. now apply meets_unreadable_raises.
Qed.

End DiscoveryFacts.

Lemma includes_empty_pattern (s : string) : JsString.includes s "" = true.
Proof. destruct s; reflexivity. Qed.

Lemma walk_all_excluded wd dir includes excludes :
  In "" excludes ->
  forall es cur files, walk_entries wd dir includes excludes cur es files = Ok files.
Proof.
  intros Hin.
  assert (Hex : forall p, existsb (fun pattern => JsString.includes p pattern) excludes = true).
  { intros p. apply existsb_exists. exists "". split; [exact Hin|apply includes_empty_pattern]. }
  induction es as [|e es IH]; intros cur files; [reflexivity|].
  cbn [walk_entries]. unfold bind.
  replace (walk_entry wd dir includes excludes cur e files) with (Ok files); [apply IH|].
  destruct e; cbn [walk_entry entry_name]; now rewrite Hex.
Qed.

Lemma walk_empty_include wd dir includes excludes :
  In "" includes ->
  forall e cur files,
    walk_entry wd dir includes excludes cur e files =
    walk_entry wd dir [] excludes cur e files.
Proof.
  intros Hin.
  induction e as [n c|n r es IH|n] using entry_nested_ind; intros cur files.
  - cbn [walk_entry entry_name].
    destruct (existsb _ excludes); [reflexivity|].
    destruct (JsString.arr_includes _ _); [|reflexivity].
    replace (existsb _ includes) with true; [now rewrite orb_true_r|].
    symmetry. apply existsb_exists. exists "". split; [exact Hin|].
    unfold JsString.startsWith. now destruct (Path.relative _ _ _).
  - rewrite !walk_entry_dir.
    destruct (excluded _ _ _ _); [reflexivity|]. destruct r; [|reflexivity].
    revert files. induction IH as [|e es He _ IHes]; intros files; [reflexivity|].
    cbn [walk_entries]. unfold bind. rewrite He.
    destruct (walk_entry wd dir [] excludes (Path.join cur n) e files); [apply IHes|reflexivity].
  - reflexivity.
Qed.

Lemma split_on_trailing (p : ascii -> bool) (x : string) (c : ascii) :
  p c = true -> exists h l, JsString.split_on p (x ++ String c "") = h :: (l ++ [""])%list.
Proof.
  intros C. induction x as [|d t (h & l & IH)].
  - exists "", []. simpl. now rewrite C.
  - cbn [append JsString.split_on]. rewrite IH. destruct (p d).
    + now exists "", (h :: l).
    + now exists (String d h), l.
Qed.

(** X1. Every path [findSourceFiles] returns passed the three tests of the
    walk: no exclude pattern occurs in its path relative to the root, some
    include pattern is a prefix of that path unless the include list is
    empty, and it is the path of an entry whose name has a source
    extension. *)
Theorem findSourceFiles_filters
  (fs : FileSystem) (dir : string) (includes excludes : list string)
  (files : list string) (f : string) :
  findSourceFiles fs dir includes excludes = Ok files ->
  In f files ->
  existsb (fun pattern => JsString.includes (Path.relative (cwd fs) dir f) pattern) excludes
    = false /\
  (includes = [] \/
   exists pattern, In pattern includes /\
                   JsString.startsWith (Path.relative (cwd fs) dir f) pattern = true) /\
  exists currentDir name,
    f = Path.join currentDir name /\
    In (Path.extname name) [".js"; ".jsx"; ".ts"; ".tsx"; ".mjs"].
Proof.
  unfold findSourceFiles, walk. intros W Hin.
  destruct (lookup fs dir) as [[| n [|] es |]|]; try discriminate.
  apply (walk_entries_finds _ _ _ _ _ _ _ W) in Hin.
  apply finds_filters in Hin as (Hex & Hinc & (cur & name & -> & Hext)).
  split; [exact Hex|]. split.
  - apply orb_prop in Hinc as [Hinc|Hinc].
    + left. apply Nat.eqb_eq in Hinc. now destruct includes.
    + right. apply existsb_exists in Hinc. exact Hinc.
  - exists cur, name. split; [reflexivity|]. now apply arr_includes_In.
Qed.

Lemma findSourceFiles_filters_witness :
  existsb (fun pattern =>
             JsString.includes (Path.relative "/home" "/proj" "/proj/src/a.ts") pattern)
    defaultExcludePatterns = false /\
  (defaultIncludePatterns = [] \/
   exists pattern, In pattern defaultIncludePatterns /\
     JsString.startsWith (Path.relative "/home" "/proj" "/proj/src/a.ts") pattern = true) /\
  exists currentDir name,
    "/proj/src/a.ts" = Path.join currentDir name /\
    In (Path.extname name) [".js"; ".jsx"; ".ts"; ".tsx"; ".mjs"].
Proof.
  apply (findSourceFiles_filters fs_malformed "/proj" defaultIncludePatterns
           defaultExcludePatterns
           ["/proj/src/a.ts"; "/proj/src/b.ts"; "/proj/src/broken.ts"] "/proj/src/a.ts").
  - reflexivity.
  - simpl. auto.
Defined.

(** X2. [findSourceFiles] returns exactly the files the walk can reach: a
    path is in the result if and only if it is the path of a file entry
    with a source extension that passes the include and exclude tests and
    lies in the root or below directories that are readable and not
    excluded. *)
Theorem findSourceFiles_complete
  (fs : FileSystem) (dir : string) (includes excludes : list string)
  (n : string) (entries : list entry) (files : list string) :
  lookup fs dir = Some (Dir n true entries) ->
  findSourceFiles fs dir includes excludes = Ok files ->
  forall f, In f files <-> finds (cwd fs) dir includes excludes dir entries f.
Proof.
  unfold findSourceFiles, walk. intros -> W. now apply walk_entries_finds.
Qed.

Lemma findSourceFiles_complete_witness :
  In "/proj/src/A.ts" ["/proj/src/A.ts"] <->
  finds "/home" "/proj" defaultIncludePatterns defaultExcludePatterns "/proj"
    [Dir "src" true [File "A.ts" (Some "export class A extends B {}")]] "/proj/src/A.ts".
Proof.
  apply (findSourceFiles_complete fs_scenario "/proj" defaultIncludePatterns
           defaultExcludePatterns "proj"
           [Dir "src" true [File "A.ts" (Some "export class A extends B {}")]]
           ["/proj/src/A.ts"]); reflexivity.
Defined.

(** X3. On a readable root, [findSourceFiles] raises if and only if its walk
    meets a directory that cannot be read and that no exclude pattern
    covers; otherwise it returns a list. *)
Theorem findSourceFiles_raises_iff
  (fs : FileSystem) (dir : string) (includes excludes : list string)
  (n : string) (entries : list entry) :
  lookup fs dir = Some (Dir n true entries) ->
  (returns (findSourceFiles fs dir includes excludes) = false <->
   meets_unreadable (cwd fs) dir excludes dir entries).
Proof.
  unfold findSourceFiles, walk. intros ->. apply walk_entries_raise_iff.
Qed.

Lemma findSourceFiles_raises_iff_witness :
  meets_unreadable "/home" "/proj" defaultExcludePatterns "/proj"
    [Dir "src" true [File "a.ts" (Some "export const a = 1;")]; Dir "secret" false []] /\
  returns (findSourceFiles fs_unreadable_dir "/proj" defaultIncludePatterns
             defaultExcludePatterns) = false.
Proof.
  assert (M : meets_unreadable "/home" "/proj" defaultExcludePatterns "/proj"
                [Dir "src" true [File "a.ts" (Some "export const a = 1;")];
                 Dir "secret" false []]).
  { apply (meets_here _ _ _ _ _ "secret" []); [simpl; auto|vm_compute; reflexivity]. }
  split; [exact M|].
  apply (proj2 (findSourceFiles_raises_iff fs_unreadable_dir "/proj" defaultIncludePatterns
                  defaultExcludePatterns "proj"
                  [Dir "src" true [File "a.ts" (Some "export const a = 1;")];
                   Dir "secret" false []] eq_refl)).
  exact M.
Defined.

(** X4. An empty exclude pattern excludes everything: the empty string
    occurs in every path, so discovery on a readable root returns no
    file.  In the TUI an answer to the exclude prompt that ends in a comma
    holds such a pattern after its last comma, and [runAnalysis] then
    returns [null]. *)
Theorem empty_exclude_pattern_excludes_all
  (fs : FileSystem) (dir : string) (includes excludes : list string)
  (n : string) (entries : list entry) :
  lookup fs dir = Some (Dir n true entries) ->
  In "" excludes ->
  findSourceFiles fs dir includes excludes = Ok [] /\
  forall createSourceFile random36 getGitMetrics JSON_parse now answers typed,
    Tui.customize answers = true ->
    Tui.exclude answers = typed ++ "," ->
    runAnalysis createSourceFile random36 getGitMetrics JSON_parse now fs dir
      (fst (Tui.configureOptions answers)) = Ok None.
Proof.
  intros L Hin. split.
  - unfold findSourceFiles, walk. rewrite L. now apply walk_all_excluded.
  - intros until typed. intros Hc He.
    unfold runAnalysis, bind, Tui.configureOptions. rewrite Hc, He.
    cbn [fst opt_includePatterns opt_excludePatterns].
    unfold findSourceFiles, walk. rewrite L.
    rewrite walk_all_excluded; [reflexivity|].
    unfold Tui.parse_patterns.
    destruct (split_on_trailing (Ascii.eqb ",") typed ","%char eq_refl) as (h & l & ->).
    cbn [map]. right. rewrite map_app. apply in_or_app. right. simpl. auto.
Qed.

Lemma empty_exclude_pattern_excludes_all_witness :
  findSourceFiles fs_scenario "/proj" defaultIncludePatterns ["dist"; ""] = Ok [] /\
  runAnalysis sample_parser sample_random no_git no_manifest "2024-01-01T00:00:00.000Z"
    fs_scenario "/proj"
    (fst (Tui.configureOptions (Tui.mkAnswers true "src" "node_modules, dist," "out.json")))
  = Ok None.
Proof.
  destruct (empty_exclude_pattern_excludes_all fs_scenario "/proj" defaultIncludePatterns
              ["dist"; ""] "proj"
              [Dir "src" true [File "A.ts" (Some "export class A extends B {}")]]
              eq_refl (or_intror (or_introl eq_refl))) as [F T].
  split; [exact F|].
  apply (T sample_parser sample_random no_git no_manifest "2024-01-01T00:00:00.000Z"
           (Tui.mkAnswers true "src" "node_modules, dist," "out.json") "node_modules, dist");
    reflexivity.
Defined.

(** X5. An empty include pattern includes everything: it is a prefix of
    every path, so a list that holds it selects what the empty list
    selects. *)
Theorem empty_include_pattern_includes_all
  (fs : FileSystem) (dir : string) (includes excludes : list string) :
  In "" includes ->
  findSourceFiles fs dir includes excludes = findSourceFiles fs dir [] excludes.
Proof.
  intros Hin. unfold findSourceFiles, walk.
  assert (H : forall es files,
             walk_entries (cwd fs) dir includes excludes dir es files =
             walk_entries (cwd fs) dir [] excludes dir es files).
  { induction es as [|e es IH]; intros files; [reflexivity|].
    cbn [walk_entries]. unfold bind.
    rewrite (walk_empty_include _ _ _ _ Hin).
    destruct (walk_entry _ _ [] _ _ e files); [apply IH|reflexivity]. }
  destruct (lookup fs dir) as [[| n [|] es |]|]; try reflexivity. apply H.
Qed.

Lemma empty_include_pattern_includes_all_witness :
  findSourceFiles fs_root_file "/proj" [""] defaultExcludePatterns =
  findSourceFiles fs_root_file "/proj" [] defaultExcludePatterns.
Proof.
  apply (empty_include_pattern_includes_all fs_root_file "/proj" [""] defaultExcludePatterns).
  simpl. auto.
Defined.

(** ** The walk of the syntax tree *)

Lemma node_nested_ind (P : node -> Prop) :
  (forall n, Forall P (node_children n) -> P n) -> forall n, P n.
Proof.
  intros H. fix IH 1. intros n. apply H.
  destruct n as [name hc ms cs|name hc cs|cs]; cbn [node_children];
    induction cs as [|c cs IHcs]; constructor; try apply IH; exact IHcs.
Qed.

Lemma visit_children isTypeScript n result :
  visit isTypeScript n result =
  match n with
  | ClassDeclaration (Some className) heritageClauses members children =>
      do classInfo <- match heritageClauses with
                      | Some clauses => class_heritage clauses (mkClassInfo className None [] [])
                      | None => Ok (mkClassInfo className None [] [])
                      end;
      visit_all isTypeScript children
        (mkParseResult
           (pr_classes result ++
            [mkClassInfo (ci_name classInfo) (ci_extends classInfo) (ci_implements classInfo)
               (ci_methods classInfo ++ class_methods members)])%list
           (pr_interfaces result))
  | InterfaceDeclaration (Some interfaceName) heritageClauses children =>
      if isTypeScript then
        visit_all isTypeScript children
          (mkParseResult (pr_classes result)
             (pr_interfaces result ++
              [match heritageClauses with
               | Some clauses => interface_heritage clauses (mkInterfaceInfo interfaceName [])
               | None => mkInterfaceInfo interfaceName []
               end])%list)
      else visit_all isTypeScript children result
  | _ => visit_all isTypeScript (node_children n) result
  end.
Proof.
  assert (F : forall cs r,
            (fix forEachChild (cs : list node) (result : ParseResult) : exn ParseResult :=
               match cs with
               | [] => Ok result
               | c :: cs' => do result' <- visit isTypeScript c result; forEachChild cs' result'
               end) cs r = visit_all isTypeScript cs r).
  { induction cs as [|c cs IH]; intros r; [reflexivity|].
    cbn [visit_all]. unfold bind. destruct (visit isTypeScript c r); [apply IH|reflexivity]. }
  destruct n as [[className|] hc ms cs|[interfaceName|] hc cs|cs]; cbn [visit node_children];
    try apply F.
  - unfold bind. destruct (match hc with Some _ => _ | None => _ end); [apply F|reflexivity].
  - destruct isTypeScript; apply F.
Qed.

Lemma class_heritage_raises clauses : forall info,
  returns (class_heritage clauses info) = false <-> existsb empty_extends clauses = true.
Proof.
  induction clauses as [|clause clauses IH]; intros info; cbn [class_heritage existsb].
  - split; discriminate.
  - unfold empty_extends at 1.
    destruct (token clause); [destruct (types clause)|]; simpl.
    + tauto.
    + apply IH.
    + apply IH.
Qed.

Lemma visit_all_raises isTypeScript cs :
  Forall (raises_on_empty_extends isTypeScript) cs ->
  forall result,
    returns (visit_all isTypeScript cs result) = false <->
    exists c, In c cs /\ has_empty_extends c.
Proof.
  induction 1 as [|c cs Hc _ IH]; intros result; cbn [visit_all].
  - split; [discriminate|]. intros (c & [] & _).
  - unfold bind. destruct (visit isTypeScript c result) as [r|] eqn:V.
    + rewrite IH. split.
      * intros (c' & Hin & B). exists c'. simpl; auto.
      * intros (c' & [<-|Hin] & B); [|eauto].
        apply (Hc result) in B. rewrite V in B. discriminate.
    + split; [|reflexivity]. intros _. exists c. split; [simpl; auto|].
      apply (Hc result). now rewrite V.
Qed.

Lemma visit_raises isTypeScript : forall n, raises_on_empty_extends isTypeScript n.
Proof.
  induction n as [n IH] using node_nested_ind. intros result.
  rewrite visit_children.
  assert (Below : (exists c, In c (node_children n) /\ has_empty_extends c) ->
                  has_empty_extends n).
  { intros (c & Hin & B). now apply (empty_extends_below n c). }
  assert (Inv : has_empty_extends n ->
                (exists className clauses members children,
                   n = ClassDeclaration (Some className) (Some clauses) members children /\
                   existsb empty_extends clauses = true) \/
                (exists c, In c (node_children n) /\ has_empty_extends c)).
  { intros B. inversion B; subst; [left|right]; eauto 8. }
  destruct n as [[className|] hc ms cs|[interfaceName|] hc cs|cs]; cbn [node_children] in *.
  - unfold bind. destruct hc as [clauses|].
    + destruct (class_heritage clauses _) as [info|] eqn:Hh.
      * rewrite (visit_all_raises _ _ IH). split; [exact Below|].
        intros B. apply Inv in B as [(? & ? & ? & ? & E & B)|B]; [|exact B].
        inversion E; subst.
        epose proof (proj2 (class_heritage_raises _ _) B) as R.
        rewrite Hh in R. discriminate.
      * split; [|reflexivity]. intros _. apply empty_extends_here.
        apply (class_heritage_raises _ (mkClassInfo className None [] [])).
        now rewrite Hh.
    + rewrite (visit_all_raises _ _ IH). split; [exact Below|].
      intros B. apply Inv in B as [(? & ? & ? & ? & E & B)|B]; [discriminate|exact B].
  - rewrite (visit_all_raises _ _ IH). split; [exact Below|].
    intros B. apply Inv in B as [(? & ? & ? & ? & E & B)|B]; [discriminate|exact B].
  - destruct isTypeScript; rewrite (visit_all_raises _ _ IH); (split; [exact Below|]);
      intros B; apply Inv in B as [(? & ? & ? & ? & E & B)|B];
      first [discriminate|exact B].
  - rewrite (visit_all_raises _ _ IH). split; [exact Below|].
    intros B. apply Inv in B as [(? & ? & ? & ? & E & B)|B]; [discriminate|exact B].
  - rewrite (visit_all_raises _ _ IH). split; [exact Below|].
    intros B. apply Inv in B as [(? & ? & ? & ? & E & B)|B]; [discriminate|exact B].
Qed.

Lemma visit_all_keeps_interfaces cs :
  Forall keeps_interfaces cs ->
  forall result result',
    visit_all false cs result = Ok result' -> pr_interfaces result' = pr_interfaces result.
Proof.
  induction 1 as [|c cs Hc _ IH]; intros result result' V; cbn [visit_all] in V.
  - now inversion V.
  - unfold bind in V. destruct (visit false c result) as [r|] eqn:V1; [|discriminate].
    rewrite (IH _ _ V). now apply Hc.
Qed.

Lemma visit_keeps_interfaces : forall n, keeps_interfaces n.
Proof.
  induction n as [n IH] using node_nested_ind. intros result result'.
  rewrite visit_children.
  destruct n as [[className|] hc ms cs|[interfaceName|] hc cs|cs]; cbn [node_children] in *;
    try (intros V; now apply (visit_all_keeps_interfaces _ IH) in V).
  unfold bind. destruct (match hc with Some _ => _ | None => _ end); [|discriminate].
  intros V. now apply (visit_all_keeps_interfaces _ IH) in V.
Qed.

(** X6. The analysis of a file raises when the file cannot be read, and
    when the syntax tree of its text holds a named class declaration with
    an [extends] clause that has no type (as in [class A extends {]):
    [parseWithTypeScript] reads [clause.types[0].expression] of such a
    clause, wherever in the tree the class stands. *)
Theorem empty_extends_clause_fails_the_file
  (createSourceFile : string -> string -> node) (random36 : nat -> string)
  (getGitMetrics : string -> string -> GitMetrics)
  (fs : FileSystem) (rng : nat) (filePath projectRoot : string) :
  (returns (readFileSync fs filePath) = false \/
   exists content,
     readFileSync fs filePath = Ok content /\
     has_empty_extends (createSourceFile filePath content)) ->
  returns (analyzeFile createSourceFile random36 getGitMetrics fs rng filePath projectRoot)
    = false.
Proof.
  rewrite analyzeFile_returns. unfold analyzable, parseWithTypeScript.
  intros [R|(content & R & B)].
  - destruct (readFileSync fs filePath); [discriminate|reflexivity].
  - rewrite R. now apply visit_raises.
Qed.

Lemma empty_extends_clause_fails_the_file_witness :
  returns (analyzeFile empty_extends_parser sample_random no_git fs_empty_extends 0
             "/proj/src/A.ts" "/proj") = false.
Proof.
  apply empty_extends_clause_fails_the_file. right.
  exists "export class A extends {}". split; [reflexivity|].
  apply (empty_extends_below _
           (ClassDeclaration (Some "A") (Some [mkClause ExtendsKeyword []]) [] []));
    [simpl; auto|].
  now apply empty_extends_here.
Defined.

(** X7. For a file whose extension is neither [.ts] nor [.tsx] the parse
    result holds no interface, whatever the tree holds; interface
    declarations are collected for TypeScript files only. *)
Theorem javascript_files_have_no_interfaces
  (createSourceFile : string -> string -> node) (filePath content : string)
  (result : ParseResult) :
  Path.extname filePath <> ".ts" ->
  Path.extname filePath <> ".tsx" ->
  parseWithTypeScript createSourceFile filePath content = Ok result ->
  pr_interfaces result = [].
Proof.
  intros N1 N2. unfold parseWithTypeScript.
  replace (JsString.arr_includes [".ts"; ".tsx"] (Path.extname filePath)) with false.
  - intros V. now apply visit_keeps_interfaces in V.
  - symmetry. apply arr_includes_not_In. simpl. intuition congruence.
Qed.

Lemma javascript_files_have_no_interfaces_witness :
  parseWithTypeScript (fun _ _ => OtherNode [InterfaceDeclaration (Some "I") None []])
    "/proj/src/app.js" "interface I {}" = Ok (mkParseResult [] []) /\
  pr_interfaces (mkParseResult [] []) = [].
Proof.
  assert (H : parseWithTypeScript
                (fun _ _ => OtherNode [InterfaceDeclaration (Some "I") None []])
                "/proj/src/app.js" "interface I {}" = Ok (mkParseResult [] []))
    by reflexivity.
  split; [exact H|].
  apply (javascript_files_have_no_interfaces
           (fun _ _ => OtherNode [InterfaceDeclaration (Some "I") None []])
           "/proj/src/app.js" "interface I {}" (mkParseResult [] [])).
  - vm_compute. discriminate.
  - vm_compute. discriminate.
  - exact H.
Defined.

(** ** The metrics of a record *)

Lemma analyzeFile_metrics
  (createSourceFile : string -> string -> node) (random36 : nat -> string)
  (getGitMetrics : string -> string -> GitMetrics)
  (fs : FileSystem) (rng : nat) (file projectRoot : string) (r : ClassRecord) (n : nat) :
  analyzeFile createSourceFile random36 getGitMetrics fs rng file projectRoot = Ok (r, n) ->
  exists content,
    readFileSync fs file = Ok content /\
    metrics r =
      mkMetrics (JsString.count_lines content) (cyclomaticComplexity content)
        (List.length (methods r)) 0 /\
    complexityMetrics r =
      mkComplexityMetrics (cyclomaticComplexity content) (cyclomaticComplexity content) 0
        (JsString.count_lines content) (List.length (methods r))
        (threat_level (cyclomaticComplexity content))
        (threat_color (cyclomaticComplexity content))
        (threat_level (cyclomaticComplexity content)) [] /\
    filePath r = Path.relative (cwd fs) projectRoot file.
Proof.
  unfold analyzeFile, bind.
  destruct (readFileSync fs file) as [content|] eqn:R; [|discriminate].
  destruct (parseWithTypeScript createSourceFile file content) as [ts|]; [|discriminate].
  intros H. inversion H; subst; clear H. exists content. cbn. auto.
Qed.

Lemma split_on_length (p : ascii -> bool) (s : string) :
  List.length (JsString.split_on p s) = S (count_chars p s).
Proof.
  induction s as [|c t IH]; [reflexivity|].
  cbn [JsString.split_on count_chars]. destruct (p c).
  - simpl. now rewrite IH.
  - destruct (JsString.split_on p t); simpl in *; lia.
Qed.

(** X8. The line count of a record is one more than the number of line
    feeds in the text of its file, in [metrics] and in [complexityMetrics]
    alike: an empty file has one line, and a final line feed counts as a
    line of its own. *)
Theorem lines_count_line_feeds
  (createSourceFile : string -> string -> node) (random36 : nat -> string)
  (getGitMetrics : string -> string -> GitMetrics)
  (fs : FileSystem) (rng : nat) (file projectRoot : string) (r : ClassRecord) (n : nat) :
  analyzeFile createSourceFile random36 getGitMetrics fs rng file projectRoot = Ok (r, n) ->
  exists content,
    readFileSync fs file = Ok content /\
    lines (metrics r) = S (count_chars (Ascii.eqb "010") content) /\
    linesOfCode (complexityMetrics r) = lines (metrics r).
Proof.
  intros A. apply analyzeFile_metrics in A as (content & R & -> & -> & _).
  exists content. split; [exact R|]. cbn. split; [|reflexivity].
  apply split_on_length.
Qed.

Lemma lines_count_line_feeds_witness :
  exists content,
    readFileSync fs_imports "/proj/src/app.js" = Ok content /\
    lines (metrics (record_of (sample_analyze fs_imports "/proj/src/app.js"))) =
      S (count_chars (Ascii.eqb "010") content) /\
    linesOfCode (complexityMetrics (record_of (sample_analyze fs_imports "/proj/src/app.js"))) =
      lines (metrics (record_of (sample_analyze fs_imports "/proj/src/app.js"))).
Proof.
  apply (lines_count_line_feeds sample_parser sample_random no_git fs_imports 0
           "/proj/src/app.js" "/proj"
           (record_of (sample_analyze fs_imports "/proj/src/app.js")) 1).
  vm_compute. reflexivity.
Defined.

(** X9. The threat level of a record follows the number of whole-word
    keywords in the text of its file: "CRITICAL" above 15, "HIGH" from 11
    to 15, "MODERATE" from 6 to 10, "LOW" up to 5; the label is the level,
    and the colour is red, orange, yellow or green for the four levels in
    that order. *)
Theorem threat_level_bands
  (createSourceFile : string -> string -> node) (random36 : nat -> string)
  (getGitMetrics : string -> string -> GitMetrics)
  (fs : FileSystem) (rng : nat) (file projectRoot : string) (r : ClassRecord) (n : nat) :
  analyzeFile createSourceFile random36 getGitMetrics fs rng file projectRoot = Ok (r, n) ->
  exists content,
    readFileSync fs file = Ok content /\
    (threatLevel (complexityMetrics r) = "CRITICAL" <->
       15 < ComplexitySpec.keyword_occurrences content) /\
    (threatLevel (complexityMetrics r) = "HIGH" <->
       10 < ComplexitySpec.keyword_occurrences content <= 15) /\
    (threatLevel (complexityMetrics r) = "MODERATE" <->
       5 < ComplexitySpec.keyword_occurrences content <= 10) /\
    (threatLevel (complexityMetrics r) = "LOW" <->
       ComplexitySpec.keyword_occurrences content <= 5) /\
    label (complexityMetrics r) = threatLevel (complexityMetrics r) /\
    (threatColor (complexityMetrics r) = "red" <->
       threatLevel (complexityMetrics r) = "CRITICAL") /\
    (threatColor (complexityMetrics r) = "orange" <->
       threatLevel (complexityMetrics r) = "HIGH") /\
    (threatColor (complexityMetrics r) = "yellow" <->
       threatLevel (complexityMetrics r) = "MODERATE") /\
    (threatColor (complexityMetrics r) = "green" <->
       threatLevel (complexityMetrics r) = "LOW").
Proof.
  intros A. apply analyzeFile_metrics in A as (content & R & _ & -> & _).
  exists content. split; [exact R|].
  set (k := ComplexitySpec.keyword_occurrences content).
  cbn [threatLevel threatColor label].
  rewrite complexity_is_keyword_count. fold k. clearbody k.
  unfold threat_level, threat_color.
  destruct (Nat.ltb_spec 15 k); [|destruct (Nat.ltb_spec 10 k); [|destruct (Nat.ltb_spec 5 k)]];
    repeat split; intros; try discriminate; try lia; try reflexivity.
Qed.

Lemma threat_level_bands_witness :
  exists content,
    readFileSync fs_imports "/proj/src/app.js" = Ok content /\
    threatLevel (complexityMetrics (record_of (sample_analyze fs_imports "/proj/src/app.js")))
      = "LOW".
Proof.
  destruct (threat_level_bands sample_parser sample_random no_git fs_imports 0
              "/proj/src/app.js" "/proj"
              (record_of (sample_analyze fs_imports "/proj/src/app.js")) 1)
    as (content & R & _ & _ & _ & Low & _).
  - vm_compute. reflexivity.
  - exists content. split; [exact R|]. reflexivity.
Defined.

(** ** Records and packages *)

Lemma push_class_In_fwd (packages : PackageMap) (key c k : string) (v : PackageRecord) :
  In (k, v) packages ->
  exists v', In (k, v') (push_class packages key c) /\
             pkg_path v' = pkg_path v /\
             (forall i, In i (pkg_classes v) -> In i (pkg_classes v')) /\
             (k = key -> In c (pkg_classes v')).
Proof.
  intros Hin. unfold push_class.
  destruct (String.eqb k key) eqn:E.
  - exists (mkPackage (pkg_id v) (pkg_name v) (pkg_path v) (pkg_classes v ++ [c])).
    split; [|split; [reflexivity|split]].
    + apply in_map_iff. exists (k, v). simpl. rewrite E. auto.
    + intros i Hi. simpl. apply in_or_app; auto.
    + intros _. simpl. apply in_or_app; simpl; auto.
  - exists v. split; [|split; [reflexivity|split; [auto|]]].
    + apply in_map_iff. exists (k, v). simpl. rewrite E. auto.
    + intros ->. rewrite String.eqb_refl in E. discriminate.
Qed.

Lemma push_stubs_In_fwd ext : forall packages k v,
  In (k, v) packages ->
  exists v', In (k, v') (push_stubs ext packages) /\
             pkg_path v' = pkg_path v /\
             (forall i, In i (pkg_classes v) -> In i (pkg_classes v')) /\
             (k = "external" -> forall n, In n ext -> In (id (stubClass n)) (pkg_classes v')).
Proof.
  induction ext as [|n ext IH]; intros packages k v Hin.
  - exists v. simpl. repeat split; auto. intros _ n [].
  - destruct (push_class_In_fwd packages "external" (id (stubClass n)) k v Hin)
      as (v1 & Hin1 & P1 & K1 & N1).
    destruct (IH _ _ _ Hin1) as (v2 & Hin2 & P2 & K2 & N2).
    exists v2. split; [exact Hin2|]. split; [congruence|]. split; [auto|].
    intros E m [<-|Hm]; [apply K2, N1, E|now apply N2].
Qed.

Lemma push_class_ids (packages : PackageMap) (k c : string) :
  map (fun kv => pkg_id (snd kv)) (push_class packages k c) =
  map (fun kv => pkg_id (snd kv)) packages.
Proof.
  unfold push_class. rewrite map_map. apply map_ext.
  intros [k' v]; simpl. destruct (String.eqb k' k); reflexivity.
Qed.

Lemma push_class_length (packages : PackageMap) (k c : string) :
  List.length (push_class packages k c) = List.length packages.
Proof. unfold push_class. apply length_map. Qed.

Lemma NoDup_middle {A : Type} (l l' : list A) (x : A) :
  NoDup (l ++ l') -> ~ In x (l ++ l') -> NoDup (l ++ x :: l').
Proof.
  intros H N. apply (proj2 (NoDup_Add (Add_app x l l'))). auto.
Qed.

Lemma package_name_nonempty (pkgPath : string) : package_name pkgPath <> "".
Proof.
  unfold package_name. destruct (JsString.pop _) as [n|]; [|discriminate].
  destruct (String.eqb n "") eqn:E; [discriminate|]. now apply String.eqb_neq.
Qed.

Section LoopFacts2.

Variable createSourceFile : string -> string -> node.
Variable random36 : nat -> string.
Variable getGitMetrics : string -> string -> GitMetrics.
Variable fs : FileSystem.
Variable projectPath : string.

Abbreviation analyze2 := (analyzeFile createSourceFile random36 getGitMetrics fs).
Abbreviation step2 := (loop_step createSourceFile random36 getGitMetrics fs projectPath).
Abbreviation run2 := (analyze_files createSourceFile random36 getGitMetrics fs projectPath).

Lemma step_xref st f : xref_inv st -> xref_inv (step2 st f).
Proof.
  intros [H1 H2]. unfold loop_step.
  destruct (analyze2 (l_rng st) f projectPath) as [[c n]|]; [|split; assumption].
  set (pk1 := if negb (map_has (l_packages st) (package c))
              then map_set (l_packages st) (package c)
                     (mkPackage ("package_" ++ random_token random36 n)
                        (package_name (package c)) (package c) [])
              else l_packages st).
  assert (Sub : forall k v, In (k, v) (l_packages st) -> In (k, v) pk1).
  { intros k v Hin. unfold pk1.
    destruct (map_has (l_packages st) (package c)) eqn:Hk; cbn [negb]; [exact Hin|].
    rewrite map_set_fresh by exact Hk. apply in_or_app; auto. }
  assert (Old : forall k v, In (k, v) pk1 ->
                  In (k, v) (l_packages st) \/ (k = package c /\ pkg_classes v = [])).
  { intros k v Hin. unfold pk1 in Hin.
    destruct (map_has (l_packages st) (package c)) eqn:Hk; cbn [negb] in Hin; [auto|].
    rewrite map_set_fresh in Hin by exact Hk.
    apply in_app_or in Hin as [Hin|[E|[]]]; [auto|]. inversion E; subst. auto. }
  assert (Key : exists v, In (package c, v) pk1).
  { unfold pk1. destruct (map_has (l_packages st) (package c)) eqn:Hk; cbn [negb].
    - apply map_has_In, in_map_iff in Hk as ([k v] & E & Hin). simpl in E. subst k. eauto.
    - rewrite map_set_fresh by exact Hk. eexists. apply in_or_app. right. left. reflexivity. }
  assert (E : (let '(packages, rng) :=
                 if negb (map_has (l_packages st) (package c))
                 then (map_set (l_packages st) (package c)
                         (mkPackage ("package_" ++ random_token random36 n)
                            (package_name (package c)) (package c) []), S n)
                 else (l_packages st, n) in
               mkLoop (l_classes st ++ [c]) (push_class packages (package c) (id c)) rng) =
              mkLoop (l_classes st ++ [c]) (push_class pk1 (package c) (id c))
                (if negb (map_has (l_packages st) (package c)) then S n else n)).
  { unfold pk1. destruct (negb _); reflexivity. }
  cbn zeta. rewrite E. clear E. split; cbn [l_classes l_packages].
  - intros c' Hin. apply in_app_or in Hin as [Hin|[<-|[]]].
    + destruct (H1 c' Hin) as (v & Hv & Hi).
      destruct (push_class_In_fwd pk1 (package c) (id c) _ _ (Sub _ _ Hv))
        as (v' & Hv' & _ & K & _).
      exists v'. auto.
    + destruct Key as (v & Hv).
      destruct (push_class_In_fwd pk1 (package c) (id c) _ _ Hv) as (v' & Hv' & _ & _ & N).
      exists v'. auto.
  - intros k v' i Hin Hi.
    apply push_class_In in Hin as (v & Hv & _ & _ & _ & Ec).
    rewrite Ec in Hi.
    assert (Hold : In i (pkg_classes v) ->
                   exists c0, In c0 (l_classes st ++ [c]) /\ id c0 = i /\ package c0 = k).
    { intros Hiv. destruct (Old _ _ Hv) as [Hv0|[_ Hnil]].
      - destruct (H2 k v i Hv0 Hiv) as (c0 & Hc0 & E1 & E2).
        exists c0. split; [apply in_or_app; auto|auto].
      - rewrite Hnil in Hiv. destruct Hiv. }
    destruct (String.eqb k (package c)) eqn:Ek; [|now apply Hold].
    apply in_app_or in Hi as [Hi|[<-|[]]]; [now apply Hold|].
    apply String.eqb_eq in Ek. exists c. split; [apply in_or_app; simpl; auto|auto].
Qed.

Lemma run_xref files : forall st, xref_inv st -> xref_inv (run2 files st).
Proof.
  induction files as [|f files IH]; intros st H; [exact H|].
  rewrite analyze_files_cons. apply IH, step_xref, H.
Qed.

Lemma init_xref : xref_inv (mkLoop [] [] 0).
Proof. split; simpl; [intros c []|intros k v i []]. Qed.

Lemma step_draws st f : draws_inv random36 st -> draws_inv random36 (step2 st f).
Proof.
  intros (ci & pi & Hc & Hp & Hnd & Hlt & Hn). unfold loop_step.
  destruct (analyze2 (l_rng st) f projectPath) as [[c n]|] eqn:A;
    [|exists ci, pi; auto].
  destruct (analyzeFile_inv _ _ _ _ _ _ _ _ _ A) as (_ & _ & -> & Hid & _).
  destruct (map_has (l_packages st) (package c)) eqn:Hk; cbn [negb].
  - exists (ci ++ [l_rng st])%list, pi. cbn [l_classes l_packages l_rng].
    rewrite !map_app, push_class_ids, push_class_length, length_app. simpl.
    split; [now rewrite Hc, Hid|]. split; [exact Hp|]. split; [|split; [|lia]].
    + rewrite <- app_assoc. simpl. apply NoDup_middle.
      * exact Hnd.
      * intros Hin. apply Hlt in Hin. lia.
    + intros i Hin. rewrite <- app_assoc in Hin. simpl in Hin.
      apply in_app_or in Hin as [Hin|[<-|Hin]]; [| lia |];
        (assert (i < l_rng st) by (apply Hlt, in_or_app; auto)); lia.
  - rewrite map_set_fresh by exact Hk.
    exists (ci ++ [l_rng st])%list, (pi ++ [S (l_rng st)])%list.
    cbn [l_classes l_packages l_rng].
    rewrite !map_app, push_class_ids, push_class_length, !length_app, map_app. simpl.
    split; [now rewrite Hc, Hid|]. split; [now rewrite Hp|]. split; [|split; [|lia]].
    + rewrite app_assoc. apply NoDup_snoc.
      * rewrite <- app_assoc. simpl. apply NoDup_middle.
        -- exact Hnd.
        -- intros Hin. apply Hlt in Hin. lia.
      * intros Hin. rewrite <- app_assoc in Hin. simpl in Hin.
        apply in_app_or in Hin as [Hin|[E|Hin]]; [| lia |];
          (assert (S (l_rng st) < l_rng st) by (apply Hlt, in_or_app; auto)); lia.
    + intros i Hin. rewrite app_assoc in Hin.
      apply in_app_or in Hin as [Hin|[<-|[]]]; [|lia].
      rewrite <- app_assoc in Hin. simpl in Hin.
      apply in_app_or in Hin as [Hin|[<-|Hin]]; [| lia |];
        (assert (i < l_rng st) by (apply Hlt, in_or_app; auto)); lia.
Qed.

Lemma run_draws files : forall st, draws_inv random36 st -> draws_inv random36 (run2 files st).
Proof.
  induction files as [|f files IH]; intros st H; [exact H|].
  rewrite analyze_files_cons. apply IH, step_draws, H.
Qed.

Lemma init_draws : draws_inv random36 (mkLoop [] [] 0).
Proof.
  exists [], []. simpl. repeat split; auto; try constructor. intros i [].
Qed.

(** The records follow the files, one per file whose analysis returns. *)
Lemma run_file_paths files : forall st,
  map filePath (l_classes (run2 files st)) =
  (map filePath (l_classes st) ++
   map (Path.relative (cwd fs) projectPath)
     (filter (analyzable createSourceFile fs projectPath) files))%list.
Proof.
  induction files as [|f files IH]; intros st; [simpl; now rewrite app_nil_r|].
  rewrite analyze_files_cons, IH, step_classes. cbn [filter].
  rewrite <- (analyzeFile_returns createSourceFile random36 getGitMetrics fs (l_rng st)).
  destruct (analyze2 (l_rng st) f projectPath) as [[c n]|] eqn:A; [|reflexivity].
  apply analyzeFile_metrics in A as (_ & _ & _ & _ & Hfp).
  cbn [returns map]. rewrite map_app, <- app_assoc. simpl. now rewrite Hfp.
Qed.

End LoopFacts2.

(** ** The snapshot *)

Lemma paths_are_keys (packages : PackageMap) :
  (forall k v, In (k, v) packages -> pkg_path v = k) ->
  map pkg_path (map_values packages) = map fst packages.
Proof.
  intros H. unfold map_values. rewrite map_map. apply map_ext_in.
  intros [k v] Hin. now apply H.
Qed.

Lemma with_external_package_In (packages : PackageMap) (k : string) (v : PackageRecord) :
  In (k, v) (with_external_package packages) ->
  In (k, v) packages \/
  (k = "external" /\ v = mkPackage "package_external" "External Libraries" "external" [] /\
   map_has packages "external" = false).
Proof.
  unfold with_external_package.
  destruct (map_has packages "external") eqn:Hk; cbn [negb]; [auto|].
  rewrite map_set_fresh by exact Hk. intros Hin.
  apply in_app_or in Hin as [Hin|[E|[]]]; [auto|]. inversion E; subst. auto.
Qed.

Lemma with_external_package_incl (packages : PackageMap) (k : string) (v : PackageRecord) :
  In (k, v) packages -> In (k, v) (with_external_package packages).
Proof.
  unfold with_external_package.
  destruct (map_has packages "external") eqn:Hk; cbn [negb]; [auto|].
  rewrite map_set_fresh by exact Hk. intros Hin. apply in_or_app; auto.
Qed.

Lemma push_stubs_ids ext : forall packages,
  map (fun kv => pkg_id (snd kv)) (push_stubs ext packages) =
  map (fun kv => pkg_id (snd kv)) packages.
Proof.
  induction ext as [|n ext IH]; intros packages; [reflexivity|].
  unfold push_stubs in *. simpl. now rewrite IH, push_class_ids.
Qed.

Lemma NoDup_map_on {A B : Type} (f : A -> B) (l : list A) :
  NoDup l -> (forall x y, In x l -> In y l -> f x = f y -> x = y) -> NoDup (map f l).
Proof.
  induction 1 as [|x l Hx Hl IH]; intros Inj; simpl; constructor.
  - intros Hin. apply in_map_iff in Hin as (y & E & Hy).
    apply Hx. rewrite (Inj x y); simpl; auto.
  - apply IH. intros a b Ha Hb. apply Inj; simpl; auto.
Qed.

Lemma filter_on_ids (h : string -> bool) (l : list PackageRecord) :
  List.length (filter (fun p => h (pkg_id p)) l) = List.length (filter h (map pkg_id l)).
Proof.
  induction l as [|p l IH]; [reflexivity|]. simpl.
  destruct (h (pkg_id p)); simpl; now rewrite IH.
Qed.

Section SnapshotFacts.

Variable createSourceFile : string -> string -> node.
Variable random36 : nat -> string.
Variable getGitMetrics : string -> string -> GitMetrics.
Variable fs : FileSystem.
Variable projectPath : string.
Variable files : list string.

Abbreviation final_state :=
  (analyze_files createSourceFile random36 getGitMetrics fs projectPath files (mkLoop [] [] 0)).

Lemma final_packages_facts ext k v' :
  In (k, v') (final_packages ext (l_packages final_state)) ->
  pkg_path v' = k /\
  exists v,
    (In (k, v) (l_packages final_state) \/
     (k = "external" /\ v = mkPackage "package_external" "External Libraries" "external" [])) /\
    pkg_id v' = pkg_id v /\ pkg_name v' = pkg_name v /\
    forall i, In i (pkg_classes v') ->
      In i (pkg_classes v) \/ (k = "external" /\ exists n, In n ext /\ i = id (stubClass n)).
Proof.
  pose proof (run_inv createSourceFile random36 getGitMetrics fs projectPath files _
                (init_inv random36)) as (_ & _ & Hwf & _).
  destruct ext as [|n0 ext0]; cbn [final_packages].
  - intros Hin. split; [now apply Hwf|]. exists v'. auto.
  - set (ext := n0 :: ext0). intros Hin.
    apply push_stubs_In in Hin as (v & Hv & E1 & E2 & E3 & E4).
    apply with_external_package_In in Hv.
    assert (P : pkg_path v = k).
    { destruct Hv as [Hv|(-> & -> & _)]; [now apply Hwf|reflexivity]. }
    split; [congruence|]. exists v. split; [|split; [exact E1|split; [exact E2|]]].
    + destruct Hv as [Hv|(E & Ev & _)]; auto.
    + intros i Hi. rewrite E4 in Hi.
      destruct (String.eqb k "external") eqn:Ek; [|auto].
      apply String.eqb_eq in Ek. apply in_app_or in Hi as [Hi|Hi]; [auto|].
      right. split; [exact Ek|]. apply in_map_iff in Hi as (n & <- & Hn). eauto.
Qed.

Lemma final_packages_fwd ext k v :
  In (k, v) (l_packages final_state) ->
  exists v', In (k, v') (final_packages ext (l_packages final_state)) /\
             forall i, In i (pkg_classes v) -> In i (pkg_classes v').
Proof.
  intros Hin. destruct ext as [|n0 ext0]; cbn [final_packages]; [eauto|].
  apply with_external_package_incl in Hin.
  destruct (push_stubs_In_fwd (n0 :: ext0) _ _ _ Hin) as (v' & Hv' & _ & K & _). eauto.
Qed.

Lemma final_packages_stub ext n :
  In n ext ->
  exists v', In ("external", v') (final_packages ext (l_packages final_state)) /\
             In (id (stubClass n)) (pkg_classes v').
Proof.
  intros Hn. destruct ext as [|n0 ext0]; [destruct Hn|]. cbn [final_packages].
  assert (K : exists v, In ("external", v) (with_external_package (l_packages final_state))).
  { unfold with_external_package.
    destruct (map_has (l_packages final_state) "external") eqn:Hk; cbn [negb].
    - apply map_has_In, in_map_iff in Hk as ([k v] & E & Hin). simpl in E. subst k. eauto.
    - rewrite map_set_fresh by exact Hk. eexists. apply in_or_app. right. left. reflexivity. }
  destruct K as (v & Hv).
  destruct (push_stubs_In_fwd (n0 :: ext0) _ _ _ Hv) as (v' & Hv' & _ & _ & N). eauto.
Qed.

Lemma final_cross_referenced ext snap :
  classes snap = (l_classes final_state ++ map stubClass ext)%list ->
  packages snap = map_values (final_packages ext (l_packages final_state)) ->
  cross_referenced snap.
Proof.
  intros Hc Hp.
  pose proof (run_xref createSourceFile random36 getGitMetrics fs projectPath files _
                init_xref) as [X1 X2].
  unfold cross_referenced. rewrite Hc, Hp. unfold map_values. split.
  - intros c Hin. apply in_app_or in Hin as [Hin|Hin].
    + destruct (X1 c Hin) as (v & Hv & Hi).
      destruct (final_packages_fwd ext _ _ Hv) as (v' & Hv' & K).
      exists v'. split; [apply in_map_iff; exists (package c, v'); auto|].
      split; [now apply (final_packages_facts ext) in Hv'|auto].
    + apply in_map_iff in Hin as (n & <- & Hn).
      destruct (final_packages_stub ext n Hn) as (v' & Hv' & Hi).
      exists v'. split; [apply in_map_iff; exists ("external", v'); auto|].
      split; [now apply (final_packages_facts ext) in Hv'|exact Hi].
  - intros p i Hin Hi. apply in_map_iff in Hin as ([k v'] & <- & Hin). cbn [snd] in *.
    destruct (final_packages_facts ext _ _ Hin) as (P & v & Hv & _ & _ & Hcl).
    rewrite P. destruct (Hcl i Hi) as [Hiv|(Ek & n & Hn & ->)].
    + destruct Hv as [Hv|(_ & ->)]; [|destruct Hiv].
      destruct (X2 k v i Hv Hiv) as (c & Hcin & E1 & E2).
      exists c. split; [apply in_or_app; auto|auto].
    + exists (stubClass n). split; [apply in_or_app; right; now apply in_map|].
      split; [reflexivity|]. now rewrite Ek.
Qed.

Lemma final_packages_keys ext :
  NoDup (map fst (final_packages ext (l_packages final_state))).
Proof.
  pose proof (run_inv createSourceFile random36 getGitMetrics fs projectPath files _
                (init_inv random36)) as (_ & Hnd & Hwf & _).
  destruct ext as [|n0 ext0]; cbn [final_packages]; [exact Hnd|].
  rewrite push_stubs_keys.
  apply with_external_package_facts; [exact Hnd|].
  intros k v Hin. destruct (Hwf k v Hin) as (E1 & E2 & _). auto.
Qed.

Lemma final_packages_named ext snap :
  packages snap = map_values (final_packages ext (l_packages final_state)) ->
  NoDup (map pkg_path (packages snap)) /\
  forall p, In p (packages snap) -> pkg_name p <> "".
Proof.
  intros ->.
  pose proof (run_inv createSourceFile random36 getGitMetrics fs projectPath files _
                (init_inv random36)) as (_ & _ & Hwf & _).
  split.
  - rewrite paths_are_keys; [apply final_packages_keys|].
    intros k v Hin. now apply (final_packages_facts ext) in Hin.
  - intros p Hin. apply in_map_iff in Hin as ([k v'] & <- & Hin). cbn [snd].
    destruct (final_packages_facts ext _ _ Hin) as (_ & v & Hv & _ & -> & _).
    destruct Hv as [Hv|(_ & ->)]; [|discriminate].
    destruct (Hwf k v Hv) as (_ & -> & _). apply package_name_nonempty.
Qed.

Lemma final_ids_distinct ext snap :
  classes snap = (l_classes final_state ++ map stubClass ext)%list ->
  packages snap = map_values (final_packages ext (l_packages final_state)) ->
  distinct_draws random36 (l_rng final_state) ->
  NoDup (map id (filter is_real (classes snap))) /\
  NoDup (map pkg_id (packages snap)).
Proof.
  intros Hc Hp D.
  pose proof (run_draws createSourceFile random36 getGitMetrics fs projectPath files _
                (init_draws random36)) as (ci & pi & Ec & Ep & Hnd & Hlt & Hn).
  assert (Inj : forall (prefix : string) (l : list nat),
            (forall i, In i l -> In i (ci ++ pi)) -> NoDup l ->
            NoDup (map (fun i => prefix ++ random_token random36 i) l)).
  { intros prefix l Sub Hl. apply NoDup_map_on; [exact Hl|].
    intros x y Hx Hy E. apply D.
    - now apply Sub, Hlt in Hx.
    - now apply Sub, Hlt in Hy.
    - clear -E. induction prefix as [|c prefix IH]; simpl in E; [exact E|].
      inversion E. auto. }
  split.
  - rewrite Hc.
    rewrite (proj1 (filter_real_app _ ext (loop_real createSourceFile random36 getGitMetrics
                                             fs projectPath files))).
    rewrite Ec. apply Inj.
    + intros i Hi. apply in_or_app; auto.
    + now apply NoDup_app_remove_r in Hnd.
  - rewrite Hp. unfold map_values. rewrite map_map.
    assert (Rnd : NoDup (map (fun kv : string * PackageRecord => pkg_id (snd kv))
                           (l_packages final_state))).
    { rewrite Ep. apply Inj.
      - intros i Hi. apply in_or_app; auto.
      - now apply NoDup_app_remove_l in Hnd. }
    destruct ext as [|n0 ext0]; cbn [final_packages]; [exact Rnd|].
    rewrite push_stubs_ids. unfold with_external_package.
    destruct (map_has (l_packages final_state) "external") eqn:Hk; cbn [negb]; [exact Rnd|].
    rewrite map_set_fresh by exact Hk. rewrite map_app. simpl.
    apply NoDup_snoc; [exact Rnd|].
    rewrite Ep. intros Hin. apply in_map_iff in Hin as (i & E & _).
    now apply random_package_id in E.
Qed.

(** The draws of a run: one for every analyzed record and one for every
    package but the one made for the stubs. *)
Lemma final_draws ext snap :
  classes snap = (l_classes final_state ++ map stubClass ext)%list ->
  packages snap = map_values (final_packages ext (l_packages final_state)) ->
  l_rng final_state = drawn_ids snap.
Proof.
  intros Hc Hp.
  pose proof (run_draws createSourceFile random36 getGitMetrics fs projectPath files _
                (init_draws random36)) as (ci & pi & _ & Ep & _ & _ & Hn).
  unfold drawn_ids. rewrite Hn, Hc.
  rewrite (proj1 (filter_real_app _ ext (loop_real createSourceFile random36 getGitMetrics
                                           fs projectPath files))).
  f_equal. rewrite Hp.
  rewrite (filter_on_ids (fun i => negb (String.eqb i "package_external"))).
  unfold map_values. rewrite map_map.
  assert (Rnd : filter (fun i => negb (String.eqb i "package_external"))
                  (map (fun kv : string * PackageRecord => pkg_id (snd kv))
                     (l_packages final_state)) =
                map (fun kv : string * PackageRecord => pkg_id (snd kv))
                  (l_packages final_state)).
  { rewrite Ep. apply filter_all_true. intros i Hin.
    apply in_map_iff in Hin as (j & <- & _).
    apply negb_true_iff, String.eqb_neq, random_package_id. }
  destruct ext as [|n0 ext0]; cbn [final_packages].
  - now rewrite Rnd, length_map.
  - rewrite push_stubs_ids. unfold with_external_package.
    destruct (map_has (l_packages final_state) "external") eqn:Hk; cbn [negb].
    + now rewrite Rnd, length_map.
    + rewrite map_set_fresh by exact Hk. rewrite map_app, filter_app, Rnd. simpl.
      now rewrite app_nil_r, length_map.
Qed.

End SnapshotFacts.

(** X10. In the snapshot of [generateUML] and in the one of [runAnalysis],
    records and packages point at each other: the id of every record,
    stub or not, is listed by a package whose path is the record's
    package, and every id a package lists is the id of a record of that
    package. *)
Theorem snapshot_is_cross_referenced
  (createSourceFile : string -> string -> node) (random36 : nat -> string)
  (getGitMetrics : string -> string -> GitMetrics) (JSON_parse : string -> exn Manifest)
  (now : string) (fs : FileSystem) (projectPath : string) (snap : Snapshot) :
  (forall includePatterns excludePatterns projectName,
     generateUML createSourceFile random36 getGitMetrics JSON_parse now
       includePatterns excludePatterns fs projectPath projectName = Ok snap ->
     cross_referenced snap) /\
  (forall options,
     runAnalysis createSourceFile random36 getGitMetrics JSON_parse now fs projectPath options
       = Ok (Some snap) ->
     cross_referenced snap).
Proof.
  split.
  - intros inc exc projectName G.
    apply generateUML_inv in G as (files & _ & Hc & Hp).
    exact (final_cross_referenced _ _ _ _ _ _ _ _ Hc Hp).
  - intros options R.
    apply runAnalysis_inv in R as (files & _ & _ & Hc & Hp).
    apply (final_cross_referenced createSourceFile random36 getGitMetrics fs projectPath
             files []); [now rewrite app_nil_r|exact Hp].
Qed.

Lemma snapshot_is_cross_referenced_witness :
  cross_referenced
    (snapshot_of (sample_run defaultIncludePatterns defaultExcludePatterns fs_case_clash)).
Proof.
  refine (proj1 (snapshot_is_cross_referenced sample_parser sample_random no_git no_manifest
                   "2024-01-01T00:00:00.000Z" fs_case_clash "/proj"
                   (snapshot_of (sample_run defaultIncludePatterns defaultExcludePatterns
                                   fs_case_clash)))
            defaultIncludePatterns defaultExcludePatterns "proj" _).
  vm_compute. reflexivity.
Defined.

(** X11. A snapshot has one package per package path: the paths of its
    packages are pairwise distinct, and no package has an empty name. *)
Theorem one_package_per_path
  (createSourceFile : string -> string -> node) (random36 : nat -> string)
  (getGitMetrics : string -> string -> GitMetrics) (JSON_parse : string -> exn Manifest)
  (now : string) (fs : FileSystem) (projectPath : string) (snap : Snapshot) :
  (forall includePatterns excludePatterns projectName,
     generateUML createSourceFile random36 getGitMetrics JSON_parse now
       includePatterns excludePatterns fs projectPath projectName = Ok snap ->
     NoDup (map pkg_path (packages snap)) /\
     forall p, In p (packages snap) -> pkg_name p <> "") /\
  (forall options,
     runAnalysis createSourceFile random36 getGitMetrics JSON_parse now fs projectPath options
       = Ok (Some snap) ->
     NoDup (map pkg_path (packages snap)) /\
     forall p, In p (packages snap) -> pkg_name p <> "").
Proof.
  split.
  - intros inc exc projectName G.
    apply generateUML_inv in G as (files & _ & _ & Hp).
    exact (final_packages_named _ _ _ _ _ _ _ _ Hp).
  - intros options R.
    apply runAnalysis_inv in R as (files & _ & _ & _ & Hp).
    exact (final_packages_named createSourceFile random36 getGitMetrics fs projectPath
             files [] snap Hp).
Qed.

Lemma one_package_per_path_witness :
  NoDup (map pkg_path
           (packages (snapshot_of (sample_run [] defaultExcludePatterns fs_external_dir)))) /\
  forall p,
    In p (packages (snapshot_of (sample_run [] defaultExcludePatterns fs_external_dir))) ->
    pkg_name p <> "".
Proof.
  refine (proj1 (one_package_per_path sample_parser sample_random no_git no_manifest
                   "2024-01-01T00:00:00.000Z" fs_external_dir "/proj"
                   (snapshot_of (sample_run [] defaultExcludePatterns fs_external_dir)))
            [] defaultExcludePatterns "proj" _).
  vm_compute. reflexivity.
Defined.

(** X12. In the output of [generateUML] the stubs come after all analyzed
    records, and no two stubs bear the same name. *)
Theorem stubs_come_last
  (createSourceFile : string -> string -> node) (random36 : nat -> string)
  (getGitMetrics : string -> string -> GitMetrics) (JSON_parse : string -> exn Manifest)
  (now : string) (includePatterns excludePatterns : list string)
  (fs : FileSystem) (projectPath projectName : string) (snap : Snapshot) :
  generateUML createSourceFile random36 getGitMetrics JSON_parse now
    includePatterns excludePatterns fs projectPath projectName = Ok snap ->
  classes snap = (filter is_real (classes snap) ++ filter isExternal (classes snap))%list /\
  NoDup (map name (filter isExternal (classes snap))).
Proof.
  intros G. apply generateUML_inv in G as (files & _ & Hc & _).
  destruct (filter_real_app _ (external_names (l_classes
              (analyze_files createSourceFile random36 getGitMetrics fs projectPath files
                 (mkLoop [] [] 0))))
              (loop_real createSourceFile random36 getGitMetrics fs projectPath files))
    as [R S].
  rewrite Hc, R, S. split; [reflexivity|].
  rewrite map_map. simpl. rewrite map_id. apply external_names_NoDup.
Qed.

Lemma stubs_come_last_witness :
  classes (snapshot_of (sample_run defaultIncludePatterns defaultExcludePatterns fs_case_clash))
  = (filter is_real
       (classes (snapshot_of (sample_run defaultIncludePatterns defaultExcludePatterns
                                fs_case_clash))) ++
     filter isExternal
       (classes (snapshot_of (sample_run defaultIncludePatterns defaultExcludePatterns
                                fs_case_clash))))%list /\
  NoDup (map name
           (filter isExternal
              (classes (snapshot_of (sample_run defaultIncludePatterns defaultExcludePatterns
                                       fs_case_clash))))).
Proof.
  apply (stubs_come_last sample_parser sample_random no_git no_manifest
           "2024-01-01T00:00:00.000Z" defaultIncludePatterns defaultExcludePatterns
           fs_case_clash "/proj" "proj").
  vm_compute. reflexivity.
Defined.

(** X13. The analyzed records follow the order of discovery: their file
    paths are the paths, relative to the root, of the discovered files
    whose analysis returns, in the order [findSourceFiles] lists them. *)
Theorem records_follow_discovery
  (createSourceFile : string -> string -> node) (random36 : nat -> string)
  (getGitMetrics : string -> string -> GitMetrics) (JSON_parse : string -> exn Manifest)
  (now : string) (includePatterns excludePatterns : list string)
  (fs : FileSystem) (projectPath projectName : string) (snap : Snapshot) :
  generateUML createSourceFile random36 getGitMetrics JSON_parse now
    includePatterns excludePatterns fs projectPath projectName = Ok snap ->
  exists files,
    findSourceFiles fs projectPath includePatterns excludePatterns = Ok files /\
    map filePath (filter is_real (classes snap)) =
    map (Path.relative (cwd fs) projectPath)
      (filter (fun f => returns (analyzeFile createSourceFile random36 getGitMetrics
                                   fs 0 f projectPath)) files).
Proof.
  intros G. apply generateUML_inv in G as (files & F & Hc & _).
  exists files. split; [exact F|]. rewrite Hc.
  rewrite (proj1 (filter_real_app _ _ (loop_real createSourceFile random36 getGitMetrics
                                         fs projectPath files))).
  rewrite run_file_paths. simpl. f_equal. apply filter_ext.
  intros f. symmetry. apply analyzeFile_returns.
Qed.

Lemma records_follow_discovery_witness :
  exists files,
    findSourceFiles fs_unreadable_file "/proj" defaultIncludePatterns defaultExcludePatterns
      = Ok files /\
    map filePath
      (filter is_real
         (classes (snapshot_of (sample_run defaultIncludePatterns defaultExcludePatterns
                                  fs_unreadable_file)))) =
    map (Path.relative "/home" "/proj")
      (filter (fun f => returns (sample_analyze fs_unreadable_file f)) files).
Proof.
  apply (records_follow_discovery sample_parser sample_random no_git no_manifest
           "2024-01-01T00:00:00.000Z" defaultIncludePatterns defaultExcludePatterns
           fs_unreadable_file "/proj" "proj").
  vm_compute. reflexivity.
Defined.

(** X14. A run of [generateUML] makes one random draw for every analyzed
    record and one for every package but the one it makes for the stubs;
    when the tokens of these draws differ from one another, the ids of
    the analyzed records are pairwise distinct and so are the ids of the
    packages. *)
Theorem distinct_draws_give_distinct_ids
  (createSourceFile : string -> string -> node) (random36 : nat -> string)
  (getGitMetrics : string -> string -> GitMetrics) (JSON_parse : string -> exn Manifest)
  (now : string) (includePatterns excludePatterns : list string)
  (fs : FileSystem) (projectPath projectName : string) (snap : Snapshot) :
  generateUML createSourceFile random36 getGitMetrics JSON_parse now
    includePatterns excludePatterns fs projectPath projectName = Ok snap ->
  exists files,
    findSourceFiles fs projectPath includePatterns excludePatterns = Ok files /\
    l_rng (analyze_files createSourceFile random36 getGitMetrics fs projectPath files
             (mkLoop [] [] 0)) = drawn_ids snap /\
    (distinct_draws random36 (drawn_ids snap) ->
     NoDup (map id (filter is_real (classes snap))) /\
     NoDup (map pkg_id (packages snap))).
Proof.
  intros G. apply generateUML_inv in G as (files & F & Hc & Hp).
  exists files. split; [exact F|].
  pose proof (final_draws _ _ _ _ _ _ _ _ Hc Hp) as R.
  split; [exact R|]. intros D. rewrite <- R in D.
  exact (final_ids_distinct _ _ _ _ _ _ _ _ Hc Hp D).
Qed.

Lemma distinct_draws_give_distinct_ids_witness :
  drawn_ids (snapshot_of (sample_run defaultIncludePatterns defaultExcludePatterns
                            fs_two_stubs)) = 3 /\
  List.length (classes (snapshot_of (sample_run defaultIncludePatterns
                                       defaultExcludePatterns fs_two_stubs))) = 4 /\
  NoDup (map id
           (filter is_real
              (classes (snapshot_of (sample_run defaultIncludePatterns defaultExcludePatterns
                                       fs_two_stubs))))) /\
  NoDup (map pkg_id
           (packages (snapshot_of (sample_run defaultIncludePatterns defaultExcludePatterns
                                     fs_two_stubs)))).
Proof.
  split; [vm_compute; reflexivity|]. split; [vm_compute; reflexivity|].
  destruct (distinct_draws_give_distinct_ids sample_parser sample_random no_git no_manifest
              "2024-01-01T00:00:00.000Z" defaultIncludePatterns defaultExcludePatterns
              fs_two_stubs "/proj" "proj"
              (snapshot_of (sample_run defaultIncludePatterns defaultExcludePatterns
                              fs_two_stubs)) eq_refl) as (files & _ & _ & H).
  apply H. intros i j Hi Hj. vm_compute in Hi, Hj.
  do 3 (destruct i as [|i];
        [do 3 (destruct j as [|j]; [vm_compute; first [reflexivity|discriminate]|]); lia|]).
  lia.
Defined.

(** ** The ids of the stubs *)

Lemma string_app_assoc (a b c : string) : (a ++ b) ++ c = a ++ b ++ c.
Proof. induction a as [|x a IH]; simpl; [reflexivity|now rewrite IH]. Qed.

Lemma string_app_nil_r (a : string) : a ++ "" = a.
Proof. induction a as [|x a IH]; simpl; [reflexivity|now rewrite IH]. Qed.

Lemma string_app_inv_head (a b c : string) : a ++ b = a ++ c -> b = c.
Proof. induction a as [|x a IH]; simpl; [tauto|]. intros E. injection E. exact IH. Qed.

Lemma concat_empty_cons (x : string) (l : list string) :
  String.concat "" (x :: l) = x ++ String.concat "" l.
Proof. destruct l; simpl; [now rewrite string_app_nil_r|reflexivity]. Qed.

Lemma map_chars_app (f : ascii -> ascii) (a b : string) :
  JsString.map_chars f (a ++ b) = JsString.map_chars f a ++ JsString.map_chars f b.
Proof. induction a as [|x a IH]; simpl; [reflexivity|now rewrite IH]. Qed.

Lemma map_chars_compose (f g : ascii -> ascii) (s : string) :
  JsString.map_chars f (JsString.map_chars g s) = JsString.map_chars (fun c => f (g c)) s.
Proof. induction s as [|x s IH]; simpl; [reflexivity|now rewrite IH]. Qed.

Lemma map_chars_length (f : ascii -> ascii) (s : string) :
  String.length (JsString.map_chars f s) = String.length s.
Proof. induction s as [|x s IH]; simpl; [reflexivity|now rewrite IH]. Qed.

(** The leftmost match of [/\./]: the first dot, after a text without
    dots. *)
Lemma exec_dot (s : string) : forall p,
  match exec dotRegex p s with
  | Some f =>
      text f = "." /\
      JsString.map_chars (fun c => if Ascii.eqb c "." then "_"%char else c) s =
        skipped f ++ "_" ++
        JsString.map_chars (fun c => if Ascii.eqb c "." then "_"%char else c) (rest (after f)) /\
      String.length (rest (after f)) < String.length s
  | None =>
      JsString.map_chars (fun c => if Ascii.eqb c "." then "_"%char else c) s = s
  end.
Proof.
  induction s as [|c t IH]; intros p; [reflexivity|].
  cbn [exec]. unfold attempt, dotRegex in *. cbn [Lit m rest caps] in *.
  rewrite (Ascii.eqb_sym "."%char c).
  destruct (Ascii.eqb c ".") eqn:E.
  - apply Ascii.eqb_eq in E. subst c. cbn [text skipped after rest]. split; [|split].
    + unfold consumed. cbn [rest String.length].
      replace (S (String.length t) - String.length t) with 1 by lia.
      simpl. now rewrite substring_zero_zero.
    + simpl. reflexivity.
    + simpl. lia.
  - specialize (IH (Some c)). destruct (exec (Seq (Chr (Ascii.eqb ".")) Eps) (Some c) t) as [f|].
    + destruct IH as (T & M & L). cbn [text skipped after]. split; [exact T|]. split.
      * cbn [JsString.map_chars]. rewrite E. simpl. now rewrite M.
      * simpl. lia.
    + cbn [JsString.map_chars]. rewrite E. now rewrite IH.
Qed.

(** The global replacement of dots is the map that turns every dot into
    an underscore. *)
Lemma scan_dot (fuel : nat) : forall s p,
  String.length s < fuel ->
  String.concat "" (map (fun f => skipped f ++ "_") (fst (scan fuel dotRegex p s)))
    ++ snd (scan fuel dotRegex p s) =
  JsString.map_chars (fun c => if Ascii.eqb c "." then "_"%char else c) s.
Proof.
  induction fuel as [|fuel IH]; intros s p L; [lia|].
  cbn [scan]. pose proof (exec_dot s p) as X.
  destruct (exec dotRegex p s) as [f|].
  - destruct X as (T & M & L'). rewrite T.
    specialize (IH (rest (after f)) (prev (after f)) ltac:(lia)).
    destruct (scan fuel dotRegex (prev (after f)) (rest (after f))) as [l tl].
    cbn [fst snd] in *. cbn [map]. rewrite concat_empty_cons, M, !string_app_assoc.
    now rewrite <- IH.
  - simpl. now rewrite X.
Qed.

Lemma replace_dots (s : string) :
  replace_all dotRegex (fun _ => "_") s =
  JsString.map_chars (fun c => if Ascii.eqb c "." then "_"%char else c) s.
Proof.
  unfold replace_all.
  pose proof (scan_dot (S (String.length s)) s None ltac:(lia)) as H.
  destruct (scan (S (String.length s)) dotRegex None s) as [l tl]. exact H.
Qed.

Lemma stub_id_closed_form (className : string) :
  id (stubClass className) = "external_" ++ stub_key className.
Proof.
  unfold stubClass, stub_key, JsString.toLowerCase. cbn [id].
  now rewrite replace_dots, map_chars_compose.
Qed.


(** ** The command line and the prompts *)

Lemma split_on_nonempty (p : ascii -> bool) (s : string) : JsString.split_on p s <> [].
Proof.
  intros E. pose proof (split_on_length p s) as L. rewrite E in L. discriminate.
Qed.

Lemma split_on_free (p : ascii -> bool) (x : string) :
  free_of p x = true -> JsString.split_on p x = [x].
Proof.
  unfold free_of. induction x as [|c t IH]; [reflexivity|].
  cbn [count_chars JsString.split_on]. destruct (p c); [discriminate|].
  intros F. now rewrite (IH F).
Qed.

Lemma split_on_separator (p : ascii -> bool) (x y : string) (c : ascii) :
  free_of p x = true -> p c = true ->
  JsString.split_on p (x ++ String c y) = x :: JsString.split_on p y.
Proof.
  unfold free_of. intros F C. induction x as [|d t IH].
  - simpl. now rewrite C.
  - cbn [count_chars] in F. cbn [append JsString.split_on].
    destruct (p d); [discriminate|]. now rewrite (IH F).
Qed.

Lemma split_concat (l : list string) :
  l <> [] -> Forall (fun s => free_of (Ascii.eqb ",") s = true) l ->
  JsString.split_on (Ascii.eqb ",") (String.concat "," l) = l.
Proof.
  induction l as [|x l IH]; [easy|]. intros _ F.
  apply Forall_cons_iff in F as [Fx Fl]. destruct l as [|y l].
  - simpl. now apply split_on_free.
  - change (String.concat "," (x :: y :: l)) with (x ++ String "," (String.concat "," (y :: l))).
    rewrite split_on_separator by easy. f_equal. apply IH; easy.
Qed.

Lemma concat_is_empty (sep : string) (l : list string) :
  l <> [] -> l <> [""] -> sep <> "" -> String.concat sep l <> "".
Proof.
  intros N1 N2 S. destruct l as [|x [|y l]]; [easy| |].
  - simpl. intros ->. easy.
  - change (String.concat sep (x :: y :: l)) with (x ++ sep ++ String.concat sep (y :: l)).
    destruct x; [|discriminate]. destruct sep; [easy|discriminate].
Qed.

Lemma parse_options_step (a v : string) (rest : list string) (cfg : Cli.Config) :
  Cli.parse_options (a :: v :: rest) cfg =
  if String.eqb a "--output" && negb (String.eqb v "") then
    Cli.parse_options rest
      (Cli.mkConfig (Cli.targetPath cfg) (Some v) (Cli.includePatterns cfg)
         (Cli.excludePatterns cfg))
  else if String.eqb a "--include" && negb (String.eqb v "") then
    Cli.parse_options rest
      (Cli.mkConfig (Cli.targetPath cfg) (Cli.outputFile cfg)
         (JsString.split_on (Ascii.eqb ",") v) (Cli.excludePatterns cfg))
  else if String.eqb a "--exclude" && negb (String.eqb v "") then
    Cli.parse_options rest
      (Cli.mkConfig (Cli.targetPath cfg) (Cli.outputFile cfg) (Cli.includePatterns cfg)
         (JsString.split_on (Ascii.eqb ",") v))
  else Cli.parse_options (v :: rest) cfg.
Proof. reflexivity. Qed.

(** What the loop over the options keeps of a property of the
    configuration that every assignment of the loop keeps. *)
Lemma parse_options_inv (P : Cli.Config -> Prop) :
  (forall cfg v, P cfg ->
     P (Cli.mkConfig (Cli.targetPath cfg) (Some v) (Cli.includePatterns cfg)
          (Cli.excludePatterns cfg))) ->
  (forall cfg v, P cfg ->
     P (Cli.mkConfig (Cli.targetPath cfg) (Cli.outputFile cfg)
          (JsString.split_on (Ascii.eqb ",") v) (Cli.excludePatterns cfg))) ->
  (forall cfg v, P cfg ->
     P (Cli.mkConfig (Cli.targetPath cfg) (Cli.outputFile cfg) (Cli.includePatterns cfg)
          (JsString.split_on (Ascii.eqb ",") v))) ->
  forall args cfg, P cfg -> P (Cli.parse_options args cfg).
Proof.
  intros Ho Hi He args.
  enough (H : (forall cfg, P cfg -> P (Cli.parse_options args cfg)) /\
              (forall a cfg, P cfg -> P (Cli.parse_options (a :: args) cfg)))
    by apply H.
  induction args as [|v rest [IH1 IH2]].
  - split; intros; assumption.
  - split; [exact (IH2 v)|]. intros a cfg H. rewrite parse_options_step.
    repeat match goal with
           | |- context [if ?b then _ else _] => destruct b
           end; auto.
Qed.

(** X17. No command line gives the analysis an empty list of patterns,
    and no answer to the prompts of the TUI does: the test
    [includePatterns.length === 0] of [findSourceFiles] never holds in a
    run started from either. *)
Theorem front_ends_pass_no_empty_list :
  (forall args c,
     Cli.parse_args args = Cli.Configured c ->
     Cli.includePatterns c <> [] /\ Cli.excludePatterns c <> []) /\
  (forall answers,
     opt_includePatterns (fst (Tui.configureOptions answers)) <> [] /\
     opt_excludePatterns (fst (Tui.configureOptions answers)) <> []).
Proof.
  split.
  - intros args c. unfold Cli.parse_args.
    destruct (_ || _); [discriminate|]. intros E. injection E as <-.
    apply (parse_options_inv
             (fun c => Cli.includePatterns c <> [] /\ Cli.excludePatterns c <> [])).
    + intros cfg v H. exact H.
    + intros cfg v [_ H]. split; [apply split_on_nonempty|exact H].
    + intros cfg v [H _]. split; [exact H|apply split_on_nonempty].
    + split; discriminate.
  - intros answers. unfold Tui.configureOptions, Tui.parse_patterns.
    destruct (Tui.customize answers); cbn [fst opt_includePatterns opt_excludePatterns].
    + split; intros E; apply map_eq_nil in E; revert E; apply split_on_nonempty.
    + split; discriminate.
Qed.

Lemma front_ends_pass_no_empty_list_witness :
  Cli.includePatterns
    (Cli.mkConfig "proj" None [""; ""] defaultExcludePatterns) <> [] /\
  Cli.excludePatterns
    (Cli.mkConfig "proj" None [""; ""] defaultExcludePatterns) <> [].
Proof.
  apply (proj1 front_ends_pass_no_empty_list ["proj"; "--include"; ","; "--include"; ""]).
  vm_compute. reflexivity.
Defined.

(** X18. A command line that spells a configuration out in full is read
    back as that configuration: the path first, then [--output],
    [--include] and [--exclude] with their values, the patterns joined by
    commas.  The patterns hold no comma, no value is empty and none is a
    help flag. *)
Theorem parse_args_reads_back (c : Cli.Config) (output : string) :
  Cli.targetPath c <> "" ->
  output <> "" ->
  Forall (fun s => free_of (Ascii.eqb ",") s = true) (Cli.includePatterns c) ->
  Cli.includePatterns c <> [] -> Cli.includePatterns c <> [""] ->
  Forall (fun s => free_of (Ascii.eqb ",") s = true) (Cli.excludePatterns c) ->
  Cli.excludePatterns c <> [] -> Cli.excludePatterns c <> [""] ->
  JsString.arr_includes (Cli.render c output) "--help" = false ->
  JsString.arr_includes (Cli.render c output) "-h" = false ->
  Cli.parse_args (Cli.render c output) =
  Cli.Configured
    (Cli.mkConfig (Cli.targetPath c) (Some output) (Cli.includePatterns c)
       (Cli.excludePatterns c)).
Proof.
  intros T O Fi Ni Ni' Fe Ne Ne' H1 H2. unfold Cli.parse_args. rewrite H1, H2.
  cbn [orb]. unfold Cli.render. cbn [List.tl List.hd_error or_default Cli.parse_options].
  apply String.eqb_neq in T, O. rewrite T, O.
  pose proof (concat_is_empty "," _ Ni Ni' ltac:(discriminate)) as Ci.
  pose proof (concat_is_empty "," _ Ne Ne' ltac:(discriminate)) as Ce.
  apply String.eqb_neq in Ci, Ce.
  cbn [String.eqb Ascii.eqb Bool.eqb andb negb Cli.targetPath Cli.outputFile
       Cli.includePatterns Cli.excludePatterns].
  rewrite Ci, Ce. cbn [negb]. cbn [Cli.targetPath Cli.outputFile
       Cli.includePatterns Cli.excludePatterns].
  now rewrite !split_concat.
Qed.

Lemma parse_args_reads_back_witness :
  Cli.parse_args
    ["."; "--output"; "my-uml.json"; "--include"; "src,lib"; "--exclude"; "dist"] =
  Cli.Configured (Cli.mkConfig "." (Some "my-uml.json") ["src"; "lib"] ["dist"]).
Proof.
  apply (parse_args_reads_back (Cli.mkConfig "." None ["src"; "lib"] ["dist"]) "my-uml.json");
    try discriminate; try reflexivity;
    repeat constructor.
Defined.

Lemma trim_leading_space (s : string) : JsString.trim (String " " s) = JsString.trim s.
Proof. reflexivity. Qed.

Lemma parse_default_answer (l : list string) :
  l <> [] ->
  Forall (fun s => free_of (Ascii.eqb ",") s = true /\ JsString.trim s = s) l ->
  map JsString.trim (JsString.split_on (Ascii.eqb ",") (String.concat ", " l)) = l.
Proof.
  induction l as [|x l IH]; [easy|]. intros _ F.
  apply Forall_cons_iff in F as [[Fx Tx] Fl]. destruct l as [|y l].
  - simpl. rewrite split_on_free by easy. simpl. now rewrite Tx.
  - change (String.concat ", " (x :: y :: l))
      with (x ++ String "," (String " " (String.concat ", " (y :: l)))).
    rewrite split_on_separator by easy. cbn [map]. rewrite Tx. f_equal.
    specialize (IH ltac:(easy) Fl).
    apply Forall_cons_iff in Fl as [[Fy Ty] Fl].
    assert (S : forall z, exists h r, JsString.split_on (Ascii.eqb ",") z = h :: r /\
              JsString.split_on (Ascii.eqb ",") (String " " z) = String " " h :: r).
    { intros z. cbn [JsString.split_on]. simpl (Ascii.eqb "," " ").
      destruct (JsString.split_on (Ascii.eqb ",") z) as [|h r] eqn:E.
      - now apply split_on_nonempty in E.
      - now exists h, r. }
    destruct (S (String.concat ", " (y :: l))) as (h & r & E1 & E2).
    rewrite E1 in IH. rewrite E2. cbn [map] in *. now rewrite trim_leading_space.
Qed.

(** X19. The prompts of [configureOptions] read their own defaults back:
    a list of patterns shown as the default answer and accepted as it is
    gives that list again, when the patterns hold no comma and no white
    space at their ends.  So customizing and accepting both defaults
    gives the options of a run that was not customized. *)
Theorem accepted_defaults_read_back (l : list string) :
  l <> [] ->
  Forall (fun s => free_of (Ascii.eqb ",") s = true /\ JsString.trim s = s) l ->
  Tui.parse_patterns (Tui.default_answer l) = l /\
  (forall customize outputFile,
     fst (Tui.configureOptions
            (Tui.mkAnswers customize (Tui.default_answer defaultIncludePatterns)
               (Tui.default_answer defaultExcludePatterns) outputFile)) =
     mkOptions defaultIncludePatterns defaultExcludePatterns).
Proof.
  intros N F. split; [exact (parse_default_answer l N F)|].
  intros customize outputFile. unfold Tui.configureOptions.
  destruct customize; cbn [fst Tui.customize Tui.include Tui.exclude]; [|reflexivity].
  unfold Tui.parse_patterns, Tui.default_answer.
  rewrite !parse_default_answer; try discriminate; try reflexivity;
    repeat (constructor; [split; reflexivity|]); constructor.
Qed.

Lemma accepted_defaults_read_back_witness :
  Tui.parse_patterns (Tui.default_answer ["src"; "my lib"; ".git"]) = ["src"; "my lib"; ".git"] /\
  (forall customize outputFile,
     fst (Tui.configureOptions
            (Tui.mkAnswers customize (Tui.default_answer defaultIncludePatterns)
               (Tui.default_answer defaultExcludePatterns) outputFile)) =
     mkOptions defaultIncludePatterns defaultExcludePatterns).
Proof.
  apply (accepted_defaults_read_back ["src"; "my lib"; ".git"]).
  - discriminate.
  - repeat (constructor; [split; reflexivity|]). constructor.
Defined.

(** ** The suggestions and the table of the TUI *)

Lemma suggestions_in_sound (fs : FileSystem) (basePath : string) (s : Tui.Suggestion) :
  In s (Tui.suggestions_in fs basePath) ->
  exists entries e,
    Tui.readdirSync fs basePath = Ok entries /\
    In e (firstn 5 entries) /\
    Tui.isDirectory e = true /\
    JsString.startsWith (entry_name e) "." = false /\
    Tui.sg_value s = Path.join basePath (entry_name e) /\
    Tui.sg_short s = entry_name e /\
    existsSync fs (Path.join (Tui.sg_value s) "package.json") = true.
Proof.
  unfold Tui.suggestions_in. destruct (existsSync fs basePath); [|easy].
  destruct (Tui.readdirSync fs basePath) as [entries|]; [|easy].
  intros H. apply in_flat_map in H as (e & He & H). exists entries, e.
  destruct (Tui.isDirectory e); [|easy].
  destruct (JsString.startsWith (entry_name e) ".") eqn:Hd; [easy|]. cbn [andb negb] in H.
  destruct (existsSync fs (Path.join (Path.join basePath (entry_name e)) "package.json"))
    eqn:Hp; [|easy].
  destruct H as [<-|[]]. cbn [Tui.sg_value Tui.sg_short]. now rewrite Hp.
Qed.

Lemma firstn_In {A : Type} (n : nat) (l : list A) (x : A) : In x (firstn n l) -> In x l.
Proof. rewrite <- (firstn_skipn n l) at 2. intros H. apply in_or_app. now left. Qed.

(** X20. [findSuggestedProjects] suggests at most ten paths, and each is a
    project: a directory among the first five entries of one of the five
    common locations, with a name that does not start with a dot and with
    a [package.json] in it.  The suggestion's value is the path of the
    directory and its short name is the directory's name. *)
Theorem suggestions_are_projects (fs : FileSystem) (homeDir : string) :
  List.length (Tui.findSuggestedProjects fs homeDir) <= 10 /\
  forall s,
    In s (Tui.findSuggestedProjects fs homeDir) ->
    exists basePath entries e,
      In basePath (Tui.commonPaths homeDir (cwd fs)) /\
      Tui.readdirSync fs basePath = Ok entries /\
      In e (firstn 5 entries) /\
      Tui.isDirectory e = true /\
      JsString.startsWith (entry_name e) "." = false /\
      Tui.sg_value s = Path.join basePath (entry_name e) /\
      Tui.sg_short s = entry_name e /\
      existsSync fs (Path.join (Tui.sg_value s) "package.json") = true.
Proof.
  split; [apply firstn_le_length|].
  intros s H. apply firstn_In in H. apply in_flat_map in H as (basePath & Hb & H).
  apply suggestions_in_sound in H as (entries & e & H). now exists basePath, entries, e.
Qed.

Lemma suggestions_are_projects_witness :
  exists basePath entries e,
    In basePath (Tui.commonPaths "/home/u" "/home/u/work") /\
    Tui.readdirSync Tui.fs_home basePath = Ok entries /\
    In e (firstn 5 entries) /\
    Tui.isDirectory e = true /\
    JsString.startsWith (entry_name e) "." = false /\
    "/home/u/projects/app" = Path.join basePath (entry_name e) /\
    "app" = entry_name e /\
    existsSync Tui.fs_home (Path.join "/home/u/projects/app" "package.json") = true.
Proof.
  apply (proj2 (suggestions_are_projects Tui.fs_home "/home/u")
           (Tui.mkSuggestion "app (/home/u/projects)" "/home/u/projects/app" "app")).
  vm_compute. now left.
Defined.

Lemma insert_by_complexity_In (x z : ClassRecord) (l : list ClassRecord) :
  In z (Tui.insert_by_complexity x l) <-> z = x \/ In z l.
Proof.
  induction l as [|y l IH]; simpl; [intuition congruence|].
  destruct (complexity (metrics y) <=? complexity (metrics x)); simpl; [intuition congruence|].
  rewrite IH. intuition congruence.
Qed.

Lemma insert_by_complexity_perm (x : ClassRecord) (l : list ClassRecord) :
  Permutation (x :: l) (Tui.insert_by_complexity x l).
Proof.
  induction l as [|y l IH]; simpl; [apply Permutation_refl|].
  destruct (complexity (metrics y) <=? complexity (metrics x)); [apply Permutation_refl|].
  eapply Permutation_trans; [apply perm_swap|]. now apply perm_skip.
Qed.

Lemma sort_by_complexity_perm (l : list ClassRecord) :
  Permutation l (Tui.sort_by_complexity l).
Proof.
  induction l as [|x l IH]; [apply Permutation_refl|].
  cbn [Tui.sort_by_complexity fold_right].
  eapply Permutation_trans; [apply perm_skip, IH|apply insert_by_complexity_perm].
Qed.

Lemma insert_by_complexity_sorted (x : ClassRecord) (l : list ClassRecord) :
  StronglySorted (fun a b => complexity (metrics b) <= complexity (metrics a)) l ->
  StronglySorted (fun a b => complexity (metrics b) <= complexity (metrics a))
    (Tui.insert_by_complexity x l).
Proof.
  induction l as [|y l IH]; intros S; simpl.
  - constructor; constructor.
  - apply StronglySorted_inv in S as [S F].
    destruct (complexity (metrics y) <=? complexity (metrics x)) eqn:E.
    + apply Nat.leb_le in E. constructor; [now constructor|].
      constructor; [exact E|]. rewrite Forall_forall in *. intros z Hz.
      specialize (F z Hz). simpl in F. lia.
    + apply Nat.leb_gt in E. constructor; [now apply IH|].
      rewrite Forall_forall in *. intros z Hz.
      apply insert_by_complexity_In in Hz as [->|Hz]; [lia|now apply F].
Qed.

Lemma sort_by_complexity_sorted (l : list ClassRecord) :
  StronglySorted (fun a b => complexity (metrics b) <= complexity (metrics a))
    (Tui.sort_by_complexity l).
Proof.
  induction l as [|x l IH]; [constructor|].
  cbn [Tui.sort_by_complexity fold_right]. now apply insert_by_complexity_sorted.
Qed.

Lemma StronglySorted_app_inv {A : Type} (R : A -> A -> Prop) (a b : list A) :
  StronglySorted R (a ++ b)%list ->
  StronglySorted R a /\ forall r x, In r a -> In x b -> R r x.
Proof.
  induction a as [|y a IH]; simpl; intros S.
  - split; [constructor|easy].
  - apply StronglySorted_inv in S as [S F]. destruct (IH S) as [Sa Hab]. split.
    + constructor; [exact Sa|]. apply Forall_app in F. tauto.
    + intros r x [<-|Hr] Hx; [|now apply Hab].
      rewrite Forall_forall in F. apply F, in_or_app. now right.
Qed.

(** The sort is stable: it moves no record past one of the same
    complexity. *)
Lemma insert_by_complexity_stable (k : nat) (x : ClassRecord) (l : list ClassRecord) :
  filter (fun c => complexity (metrics c) =? k) (Tui.insert_by_complexity x l) =
  filter (fun c => complexity (metrics c) =? k) (x :: l).
Proof.
  induction l as [|y l IH]; [reflexivity|]. cbn [Tui.insert_by_complexity].
  destruct (complexity (metrics y) <=? complexity (metrics x)) eqn:E; [reflexivity|].
  apply Nat.leb_gt in E. cbn [filter] in *. rewrite IH.
  destruct (complexity (metrics y) =? k) eqn:Ey; [|reflexivity].
  apply Nat.eqb_eq in Ey.
  destruct (complexity (metrics x) =? k) eqn:Ex; [|reflexivity].
  apply Nat.eqb_eq in Ex. lia.
Qed.

Lemma sort_by_complexity_stable (k : nat) (l : list ClassRecord) :
  filter (fun c => complexity (metrics c) =? k) (Tui.sort_by_complexity l) =
  filter (fun c => complexity (metrics c) =? k) l.
Proof.
  induction l as [|x l IH]; [reflexivity|].
  cbn [Tui.sort_by_complexity fold_right]. rewrite insert_by_complexity_stable.
  cbn [filter]. fold (Tui.sort_by_complexity l). now rewrite IH.
Qed.

Lemma filter_firstn {A : Type} (p : A -> bool) (l : list A) : forall n,
  exists m, filter p (firstn n l) = firstn m (filter p l).
Proof.
  induction l as [|x l IH]; intros n.
  - exists 0. now destruct n.
  - destruct n as [|n]; [now exists 0|]. destruct (IH n) as (m & E).
    cbn [firstn filter]. destruct (p x).
    + exists (S m). cbn [firstn]. now rewrite E.
    + now exists m.
Qed.

(** X21. The table of the most complex components in [displayResults]
    has five rows, or one per record when there are fewer; the rows are in
    descending order of complexity; no record left out is more complex
    than a row; and the rows of one complexity are the first records of
    that complexity in the snapshot, in the order of the snapshot. *)
Theorem most_complex_components (umlData : Snapshot) :
  List.length (Tui.sortedByComplexity umlData) = Nat.min 5 (List.length (classes umlData)) /\
  StronglySorted (fun a b => complexity (metrics b) <= complexity (metrics a))
    (Tui.sortedByComplexity umlData) /\
  (exists rest,
     Permutation (classes umlData) (Tui.sortedByComplexity umlData ++ rest)%list /\
     forall r x, In r (Tui.sortedByComplexity umlData) -> In x rest ->
       complexity (metrics x) <= complexity (metrics r)) /\
  (forall k, exists n,
     filter (fun c => complexity (metrics c) =? k) (Tui.sortedByComplexity umlData) =
     firstn n (filter (fun c => complexity (metrics c) =? k) (classes umlData))).
Proof.
  unfold Tui.sortedByComplexity.
  pose proof (sort_by_complexity_perm (classes umlData)) as P.
  pose proof (sort_by_complexity_sorted (classes umlData)) as S.
  rewrite <- (firstn_skipn 5 (Tui.sort_by_complexity (classes umlData))) in S.
  apply StronglySorted_app_inv in S as [S1 S2].
  split; [|split; [exact S1|split]].
  - rewrite length_firstn. now rewrite <- (Permutation_length P).
  - exists (skipn 5 (Tui.sort_by_complexity (classes umlData))).
    split; [now rewrite firstn_skipn|exact S2].
  - intros k. rewrite <- (sort_by_complexity_stable k (classes umlData)).
    apply filter_firstn.
Qed.

(** X22. The URL typed under the GitHub entry of the menu of the TUI is
    handed to the analysis as the project path: nothing clones it, and
    when no directory of that name exists the round ends with the error
    of [readdirSync] instead of a result. *)
Theorem github_choice_is_read_as_a_path
  (createSourceFile : string -> string -> node) (random36 : nat -> string)
  (getGitMetrics : string -> string -> GitMetrics) (JSON_parse : string -> exn Manifest)
  (now : string) (fs : FileSystem) (choice : Tui.Choice) (answers : Tui.Answers) :
  Tui.project choice = "github" ->
  Tui.validate_url (Tui.githubUrl choice) = true ->
  existsSync fs (Tui.githubUrl choice) = false ->
  main_round createSourceFile random36 getGitMetrics JSON_parse now fs choice answers =
  Some (Throw "ENOENT").
Proof.
  intros P _ E. unfold main_round, Tui.selectProject. rewrite P. cbn [String.eqb].
  simpl. unfold runAnalysis, findSourceFiles, existsSync in *.
  destruct (lookup fs (Tui.githubUrl choice)); [discriminate|]. reflexivity.
Qed.

Lemma github_choice_is_read_as_a_path_witness :
  main_round sample_parser sample_random no_git no_manifest "2024-01-01T00:00:00.000Z"
    Tui.fs_home (Tui.mkChoice "github" "" "https://github.com/user/repo")
    (Tui.mkAnswers false "" "" "repo-uml.json") =
  Some (Throw "ENOENT").
Proof.
  apply github_choice_is_read_as_a_path; reflexivity.
Defined.

(** ** The ids of a snapshot *)

(** X23. An analyzed record never shares its id with a stub.  When the
    tokens of the random draws of a run differ from one another, the ids
    of the records of the snapshot of [generateUML], stubs included, are
    pairwise distinct exactly when no two stubs have names that agree up
    to case and the reading of dots as underscores. *)
Theorem class_ids_distinct_iff_stub_keys_distinct
  (createSourceFile : string -> string -> node) (random36 : nat -> string)
  (getGitMetrics : string -> string -> GitMetrics) (JSON_parse : string -> exn Manifest)
  (now : string) (includePatterns excludePatterns : list string)
  (fs : FileSystem) (projectPath projectName : string) (snap : Snapshot) :
  generateUML createSourceFile random36 getGitMetrics JSON_parse now
    includePatterns excludePatterns fs projectPath projectName = Ok snap ->
  (forall c s, In c (classes snap) -> In s (classes snap) ->
     isExternal c = false -> isExternal s = true -> id c <> id s) /\
  (distinct_draws random36 (drawn_ids snap) ->
   (NoDup (map id (classes snap)) <->
    NoDup (map stub_key (map name (filter isExternal (classes snap)))))).
Proof.
  intros G. apply generateUML_inv in G as (files & _ & Hc & Hp).
  pose proof (run_draws createSourceFile random36 getGitMetrics fs projectPath files _
                (init_draws random36)) as (ci & _ & Ec & _).
  pose proof (loop_real createSourceFile random36 getGitMetrics fs projectPath files) as Real.
  assert (Apart : forall a,
            In a (map id (l_classes (analyze_files createSourceFile random36 getGitMetrics
                                       fs projectPath files (mkLoop [] [] 0)))) ->
            forall n, a <> id (stubClass n)).
  { intros a Ha n E. rewrite Ec in Ha. apply in_map_iff in Ha as (i & <- & _).
    rewrite stub_id_closed_form in E. discriminate. }
  split.
  - intros c s Hin Hs Ec' Es. rewrite Hc in Hin, Hs.
    apply in_app_or in Hin as [Hin|Hin];
      [|apply in_map_iff in Hin as (n & <- & _); discriminate].
    apply in_app_or in Hs as [Hs|Hs]; [rewrite (Real _ Hs) in Es; discriminate|].
    apply in_map_iff in Hs as (n & <- & _). apply Apart. now apply in_map.
  - intros D.
    rewrite <- (final_draws _ _ _ _ _ _ _ _ Hc Hp) in D.
    destruct (final_ids_distinct _ _ _ _ _ _ _ _ Hc Hp D) as [Hreal _].
    destruct (filter_real_app _ (external_names (l_classes
                (analyze_files createSourceFile random36 getGitMetrics fs projectPath files
                   (mkLoop [] [] 0)))) Real) as [R S].
    rewrite Hc in Hreal |- *. rewrite R in Hreal. rewrite S. clear R S Hc Hp D.
    set (cs := l_classes _) in *. set (ext := external_names cs).
    rewrite map_app, !map_map. cbn [name stubClass].
    rewrite (map_ext (fun n => id (stubClass n)) (fun n => "external_" ++ stub_key n))
      by (intros n; apply stub_id_closed_form).
    rewrite <- (map_map stub_key (fun k => "external_" ++ k)).
    split.
    + intros H. apply NoDup_app_remove_l in H. now apply NoDup_map_inv in H.
    + intros H. apply NoDup_app.
      * exact Hreal.
      * apply NoDup_map_on; [exact H|]. intros x y _ _. apply string_app_inv_head.
      * intros a Ha Hb. apply in_map_iff in Hb as (k & E & Hk).
        apply in_map_iff in Hk as (n & <- & _).
        apply (Apart a Ha n). now rewrite stub_id_closed_form.
Qed.

Lemma class_ids_distinct_iff_stub_keys_distinct_witness :
  map id (classes (snapshot_of (sample_run defaultIncludePatterns defaultExcludePatterns
                                  fs_two_stubs))) =
    ["component_0k3x9q2"; "component_2k3x9q2"; "external_b"; "external_y"] /\
  NoDup (map id (classes (snapshot_of (sample_run defaultIncludePatterns
                                         defaultExcludePatterns fs_two_stubs)))).
Proof.
  split; [vm_compute; reflexivity|].
  destruct (class_ids_distinct_iff_stub_keys_distinct sample_parser sample_random no_git
              no_manifest "2024-01-01T00:00:00.000Z" defaultIncludePatterns
              defaultExcludePatterns fs_two_stubs "/proj" "proj"
              (snapshot_of (sample_run defaultIncludePatterns defaultExcludePatterns
                              fs_two_stubs)) eq_refl) as [_ H].
  apply H.
  - intros i j Hi Hj. vm_compute in Hi, Hj.
    do 3 (destruct i as [|i];
          [do 3 (destruct j as [|j]; [vm_compute; first [reflexivity|discriminate]|]); lia|]).
    lia.
  - vm_compute. repeat constructor; simpl; intuition discriminate.
Defined.
